(** * arduino-audio-tools: the WAV codec and the sample converters

    A shallow embedding of [src/CodecWAV.h] (the RIFF/WAVE header scanner
    [WAVHeader], the streaming [WAVDecoder] and the [WAVEncoder]) and of
    [src/AudioTools/Converter.h] (the stereo sample converters), followed
    by the properties of the specification stated over that embedding.

    Conventions of the embedding.
    - C++ integers are [Z] and every conversion between integer types is
      written out ([to_uint32], [to_int], [to_size_t], [to_long], ...).
      [uint32_t], [uint16_t], [int32_t], [int64_t] have the width of their
      name; [int] is 32 bits.  The width of [long] and [size_t] is the one
      thing that depends on the target: 32 bits on the micro-controllers
      the library is written for (ESP32, ESP8266, RP2040, ...: [ILP32]),
      64 bits on a desktop build ([LP64]).  The definitions take the
      target as a parameter.
    - A byte buffer is a [list byte]; the pointer/length pair of the
      source is the list together with its length.
    - Member functions that update [this] are functions in a state monad
      over the object's record.
    - [while] loops take a fuel argument and report when it ran out. *)

From Stdlib Require Import ZArith List Bool Lia.
From Stdlib Require Import Strings.Byte.
From Stdlib Require Import Floats.SpecFloat.
From stdpp Require Import base list.
Import ListNotations.

Local Open Scope Z_scope.

(** ** Integer types *)

Inductive platform := ILP32 | LP64.

Definition long_bits (p : platform) : Z :=
  match p with ILP32 => 32 | LP64 => 64 end.

Definition wrap_unsigned (w x : Z) : Z := x mod 2 ^ w.
Definition wrap_signed (w x : Z) : Z := (x + 2 ^ (w - 1)) mod 2 ^ w - 2 ^ (w - 1).

Definition to_uint16 : Z -> Z := wrap_unsigned 16.
Definition to_uint32 : Z -> Z := wrap_unsigned 32.
Definition to_int16 : Z -> Z := wrap_signed 16.
Definition to_int : Z -> Z := wrap_signed 32.
Definition to_int32 : Z -> Z := wrap_signed 32.
Definition to_int64 : Z -> Z := wrap_signed 64.
Definition to_size_t (p : platform) : Z -> Z := wrap_unsigned (long_bits p).
Definition to_long (p : platform) : Z -> Z := wrap_signed (long_bits p).

Definition byte_val (b : byte) : Z := Z.of_N (Byte.to_N b).

Definition byte_of_Z (z : Z) : byte :=
  match Byte.of_N (Z.to_N (z mod 256)) with
  | Some b => b
  | None => x00
  end.

(** [#define WAV_FORMAT_PCM 0x0001] and
    [#define TAG(a, b, c, d) (((a) << 24) | ((b) << 16) | ((c) << 8) | (d))] *)
Definition WAV_FORMAT_PCM : Z := 1.

Definition TAG (a b c d : byte) : Z :=
  Z.lor (Z.lor (Z.lor (Z.shiftl (byte_val a) 24) (Z.shiftl (byte_val b) 16))
               (Z.shiftl (byte_val c) 8))
        (byte_val d).

(** ** [struct WAVAudioInfo] *)

Record WAVAudioInfo := mkWAVAudioInfo {
  format : Z;            (* int *)
  sample_rate : Z;       (* int *)
  bits_per_sample : Z;   (* int *)
  channels : Z;          (* int *)
  byte_rate : Z;         (* int *)
  block_align : Z;       (* int *)
  is_streamed : bool;
  is_valid : bool;
  data_length : Z;       (* uint32_t *)
  file_size : Z          (* uint32_t *)
}.

(** [memset(&headerInfo, 0, sizeof(WAVAudioInfo))] *)
Definition zeroed_info : WAVAudioInfo :=
  mkWAVAudioInfo 0 0 0 0 0 0 false false 0 0.

Definition set_format (v : Z) (i : WAVAudioInfo) : WAVAudioInfo :=
  mkWAVAudioInfo v (sample_rate i) (bits_per_sample i) (channels i)
    (byte_rate i) (block_align i) (is_streamed i) (is_valid i)
    (data_length i) (file_size i).
Definition set_sample_rate (v : Z) (i : WAVAudioInfo) : WAVAudioInfo :=
  mkWAVAudioInfo (format i) v (bits_per_sample i) (channels i)
    (byte_rate i) (block_align i) (is_streamed i) (is_valid i)
    (data_length i) (file_size i).
Definition set_bits_per_sample (v : Z) (i : WAVAudioInfo) : WAVAudioInfo :=
  mkWAVAudioInfo (format i) (sample_rate i) v (channels i)
    (byte_rate i) (block_align i) (is_streamed i) (is_valid i)
    (data_length i) (file_size i).
Definition set_channels (v : Z) (i : WAVAudioInfo) : WAVAudioInfo :=
  mkWAVAudioInfo (format i) (sample_rate i) (bits_per_sample i) v
    (byte_rate i) (block_align i) (is_streamed i) (is_valid i)
    (data_length i) (file_size i).
Definition set_byte_rate (v : Z) (i : WAVAudioInfo) : WAVAudioInfo :=
  mkWAVAudioInfo (format i) (sample_rate i) (bits_per_sample i) (channels i)
    v (block_align i) (is_streamed i) (is_valid i)
    (data_length i) (file_size i).
Definition set_block_align (v : Z) (i : WAVAudioInfo) : WAVAudioInfo :=
  mkWAVAudioInfo (format i) (sample_rate i) (bits_per_sample i) (channels i)
    (byte_rate i) v (is_streamed i) (is_valid i)
    (data_length i) (file_size i).
Definition set_is_streamed (v : bool) (i : WAVAudioInfo) : WAVAudioInfo :=
  mkWAVAudioInfo (format i) (sample_rate i) (bits_per_sample i) (channels i)
    (byte_rate i) (block_align i) v (is_valid i)
    (data_length i) (file_size i).
Definition set_is_valid (v : bool) (i : WAVAudioInfo) : WAVAudioInfo :=
  mkWAVAudioInfo (format i) (sample_rate i) (bits_per_sample i) (channels i)
    (byte_rate i) (block_align i) (is_streamed i) v
    (data_length i) (file_size i).
Definition set_data_length (v : Z) (i : WAVAudioInfo) : WAVAudioInfo :=
  mkWAVAudioInfo (format i) (sample_rate i) (bits_per_sample i) (channels i)
    (byte_rate i) (block_align i) (is_streamed i) (is_valid i)
    v (file_size i).
Definition set_file_size (v : Z) (i : WAVAudioInfo) : WAVAudioInfo :=
  mkWAVAudioInfo (format i) (sample_rate i) (bits_per_sample i) (channels i)
    (byte_rate i) (block_align i) (is_streamed i) (is_valid i)
    (data_length i) v.

(** ** [class WAVHeader]: the chunk scanner *)

Module WAVHeader.

(** What the cursor did, newest first.  The list is a ghost field: no
    function of the scanner reads it. *)
Inductive access :=
| Fetch (i : Z)            (* [buffer[i]] was read, the cursor moved to [i + 1] *)
| Sentinel (pos : Z)       (* [getChar] returned -1 at [pos], nothing was read *)
| Moved (from to : Z).     (* [seek] took the cursor from [from] to [to] *)

Record t := mk {
  headerInfo : WAVAudioInfo;
  buffer : list byte;
  len : Z;                 (* size_t *)
  data_pos : Z;            (* size_t *)
  sound_pos : Z;           (* size_t *)
  trail : list access
}.

(** A freshly constructed object: [data_pos = 0], [sound_pos = 0]; the
    other members are not initialised by the constructor and are given
    here the values [begin] would overwrite anyway. *)
Definition fresh : t := mk zeroed_info [] 0 0 0 [].

Definition M (A : Type) : Type := t -> A * t.

#[global] Instance M_ret : MRet M := fun A (a : A) h => (a, h).
#[global] Instance M_bind : MBind M := fun A B (k : A -> M B) (m : M A) h =>
  let (a, h') := m h in k a h'.

Abbreviation ret := mret.

Definition with_info (f : WAVAudioInfo -> WAVAudioInfo) : M unit :=
  fun h => (tt, mk (f (headerInfo h)) (buffer h) (len h) (data_pos h)
                   (sound_pos h) (trail h)).
Definition info : M WAVAudioInfo := fun h => (headerInfo h, h).

Inductive origin := SEEK_SET | SEEK_CUR | SEEK_END.

Section Scanner.
Variable p : platform.

(** [int getChar()]: the guard keeps [data_pos + 1] within [size_t]. *)
Definition getChar : M Z := fun h =>
  if data_pos h <? len h then
    (byte_val (nth (Z.to_nat (data_pos h)) (buffer h) x00),
     mk (headerInfo h) (buffer h) (len h) (data_pos h + 1) (sound_pos h)
        (Fetch (data_pos h) :: trail h))
  else
    (-1,
     mk (headerInfo h) (buffer h) (len h) (data_pos h) (sound_pos h)
        (Sentinel (data_pos h) :: trail h)).

(** [uint32_t read_tag()]: [tag = (tag << 8) | getChar()], four times;
    the [int] returned by [getChar] is converted to [uint32_t]. *)
Definition read_tag : M Z :=
  let tag := 0 in
  c ← getChar;
  let tag := Z.lor (to_uint32 (Z.shiftl tag 8)) (to_uint32 c) in
  c ← getChar;
  let tag := Z.lor (to_uint32 (Z.shiftl tag 8)) (to_uint32 c) in
  c ← getChar;
  let tag := Z.lor (to_uint32 (Z.shiftl tag 8)) (to_uint32 c) in
  c ← getChar;
  let tag := Z.lor (to_uint32 (Z.shiftl tag 8)) (to_uint32 c) in
  ret tag.

(** [uint32_t read_int32()]: [value |= getChar() << k]; the shift is
    done on [int] and the result converted to [uint32_t]. *)
Definition read_int32 : M Z :=
  let value := 0 in
  c ← getChar;
  let value := Z.lor value (to_uint32 (to_int (Z.shiftl c 0))) in
  c ← getChar;
  let value := Z.lor value (to_uint32 (to_int (Z.shiftl c 8))) in
  c ← getChar;
  let value := Z.lor value (to_uint32 (to_int (Z.shiftl c 16))) in
  c ← getChar;
  let value := Z.lor value (to_uint32 (to_int (Z.shiftl c 24))) in
  ret value.

(** [uint16_t read_int16()] *)
Definition read_int16 : M Z :=
  let value := 0 in
  c ← getChar;
  let value := to_uint16 (Z.lor value (to_int (Z.shiftl c 0))) in
  c ← getChar;
  let value := to_uint16 (Z.lor value (to_int (Z.shiftl c 8))) in
  ret value.

(** [void skip(int n)]: [for (i = 0; i < n; i++) getChar();] *)
Fixpoint skip_loop (n : nat) : M unit :=
  match n with
  | O => ret tt
  | S n' => getChar;; skip_loop n'
  end.
Definition skip (n : Z) : M unit := skip_loop (Z.to_nat n).

(** [void seek(long int offset, int origin)]: [data_pos = offset] or
    [data_pos += offset], computed in [size_t]. *)
Definition seek (offset : Z) (o : origin) : M unit := fun h =>
  match o with
  | SEEK_SET =>
      let q := to_size_t p offset in
      (tt, mk (headerInfo h) (buffer h) (len h) q (sound_pos h)
              (Moved (data_pos h) q :: trail h))
  | SEEK_CUR =>
      let q := to_size_t p (data_pos h + to_size_t p offset) in
      (tt, mk (headerInfo h) (buffer h) (len h) q (sound_pos h)
              (Moved (data_pos h) q :: trail h))
  | SEEK_END => (tt, h)
  end.

Definition tell : M Z := fun h => (data_pos h, h).

(** [bool eof()]: [data_pos >= len - 1], the subtraction in [size_t]. *)
Definition eof : M bool := fun h =>
  (to_size_t p (len h - 1) <=? data_pos h, h).

Definition set_sound_pos (v : Z) : M unit := fun h =>
  (tt, mk (headerInfo h) (buffer h) (len h) (data_pos h) v (trail h)).

(** How one pass through a loop body ends. *)
Inductive flow :=
| Next (length : Z)      (* the end of the body, or [continue] *)
| Break (length : Z)     (* [break] *)
| Return                 (* [return] out of [begin] *)
| Starved.               (* the fuel ran out *)

(** The body of [while (length >= 8)]: one sub-chunk of the RIFF form.
    [length], [sublength] are [uint32_t]. *)
Definition chunk_body (length : Z) : M flow :=
  subtag ← read_tag;
  e ← eof;
  if e : bool then ret (Break length) else
  sublength ← read_int32;
  let length := to_uint32 (length - 8) in
  if length <? sublength then ret (Break length) else
  if subtag =? TAG "f" "m" "t" " " then
    if sublength <? 16 then ret (Break length) else
    v ← read_int16; with_info (set_format v);;
    v ← read_int16; with_info (set_channels v);;
    v ← read_int32; with_info (set_sample_rate (to_int v));;
    v ← read_int32; with_info (set_byte_rate (to_int v));;
    v ← read_int16; with_info (set_block_align v);;
    v ← read_int16; with_info (set_bits_per_sample v);;
    i ← info;
    if format i =? 65534 then
      if sublength <? 28 then ret (Break length) else
      skip 8;;
      v ← read_int32; with_info (set_format (to_int v));;
      skip (to_int (to_uint32 (sublength - 28)));;
      with_info (set_is_valid true);;
      ret (Next (to_uint32 (length - sublength)))
    else
      skip (to_int (to_uint32 (sublength - 16)));;
      with_info (set_is_valid true);;
      ret (Next (to_uint32 (length - sublength)))
  else if subtag =? TAG "d" "a" "t" "a" then
    q ← tell;
    set_sound_pos q;;
    with_info (set_data_length sublength);;
    i ← info;
    if (data_length i =? 0) || is_streamed i then
      with_info (set_is_streamed true);;
      ret Return
    else
      seek (to_long p sublength) SEEK_CUR;;
      ret (Next (to_uint32 (length - sublength)))
  else
    skip (to_int sublength);;
    ret (Next (to_uint32 (length - sublength))).

(** [while (length >= 8) { ... }] *)
Fixpoint chunk_loop (fuel : nat) (length : Z) : M flow :=
  if 8 <=? length then
    match fuel with
    | O => ret Starved
    | S fuel' =>
        r ← chunk_body length;
        match r with
        | Next length' => chunk_loop fuel' length'
        | other => ret other
        end
    end
  else ret (Break length).

(** The body of [while (!eof())]: one top-level chunk.  The length
    carried by the result is not used. *)
Definition riff_body (fuel : nat) : M flow :=
  tag ← read_tag;
  e ← eof;
  if e : bool then ret (Break 0) else
  length ← read_int32;
  streamed ← ret ((length =? 0) || (2147418112 <=? length));
  (if streamed : bool then with_info (set_is_streamed true) else ret tt);;
  let length := if streamed : bool then to_uint32 (-1) else length in
  if negb (tag =? TAG "R" "I" "F" "F") || (length <? 4) then
    seek (to_long p length) SEEK_CUR;;
    ret (Next 0)
  else
  tag2 ← read_tag;
  let length := to_uint32 (length - 4) in
  if negb (tag2 =? TAG "W" "A" "V" "E") then
    seek (to_long p length) SEEK_CUR;;
    ret (Next 0)
  else
  r ← chunk_loop fuel length;
  match r with
  | Next length | Break length =>
      (if 0 <? length then seek (to_long p length) SEEK_CUR else ret tt);;
      ret (Next 0)
  | Return => ret Return
  | Starved => ret Starved
  end.

(** [while (!eof()) { ... }] *)
Fixpoint riff_loop (fuel inner : nat) : M bool :=
  e ← eof;
  if e : bool then ret true else
  match fuel with
  | O => ret false
  | S fuel' =>
      r ← riff_body inner;
      match r with
      | Next _ => riff_loop fuel' inner
      | Break _ | Return => ret true
      | Starved => ret false
      end
  end.

(** [void begin(uint8_t* buffer, size_t len)].  The result is [true]
    when the scan ran to its end within the fuel.  [sound_pos] is not
    reset here: it keeps the value an earlier scan left. *)
Definition begin (fuel : nat) (buf : list byte) : M bool := fun h =>
  riff_loop fuel fuel
    (mk zeroed_info buf (Z.of_nat (length buf)) 0 (sound_pos h) (trail h)).

(** [WAVAudioInfo &audioInfo()] *)
Definition audioInfo : M WAVAudioInfo := info.

(** [bool soundData(uint8_t* &data, size_t &len)]: the pointer
    [buffer + sound_pos] is the buffer from that offset on. *)
Definition soundData : M (option (list byte * Z)) := fun h =>
  if 0 <? sound_pos h then
    (Some (skipn (Z.to_nat (sound_pos h)) (buffer h),
           to_size_t p
             (Z.max (to_long p (to_size_t p (len h - sound_pos h))) 0)),
     mk (headerInfo h) (buffer h) (len h) (data_pos h) 0 (trail h))
  else (None, h).

End Scanner.
End WAVHeader.

(** ** Collaborators of the codec

    The byte sink ([Print], [Stream]) and the format listener
    ([AudioBaseInfoDependent]) are not part of the codec; the codec only
    calls them.  A sink is modelled by the bytes it has taken so far, the
    number of times it was flushed, and its policy: how many of the [n]
    bytes offered by one [write] it takes (between 0 and [n]). *)

Record Print := mkPrint {
  taken : list byte;
  flushes : nat;
  accepts : Z -> Z
}.

(** [size_t Print::write(const uint8_t *data, size_t n)] *)
Definition Print_write (data : list byte) (n : Z) (s : Print) : Z * Print :=
  let k := Z.max 0 (Z.min n (accepts s n)) in
  (k, mkPrint (taken s ++ firstn (Z.to_nat k) data) (flushes s) (accepts s)).

Definition Print_flush (s : Print) : Print :=
  mkPrint (taken s) (S (flushes s)) (accepts s).

(** A sink that takes everything it is offered. *)
Definition unbounded_sink : Print := mkPrint [] O (fun n => n).

Record AudioBaseInfo := mkAudioBaseInfo {
  bi_sample_rate : Z;
  bi_channels : Z;
  bi_bits_per_sample : Z
}.

(** A listener answers [validate] and records the formats it was given by
    [setAudioInfo]. *)
Record AudioBaseInfoDependent := mkListener {
  validate : AudioBaseInfo -> bool;
  notified : list AudioBaseInfo
}.

Definition setAudioInfo (bi : AudioBaseInfo) (l : AudioBaseInfoDependent) :
    AudioBaseInfoDependent :=
  mkListener (validate l) (bi :: notified l).

Definition accepting_listener : AudioBaseInfoDependent :=
  mkListener (fun _ => true) [].

(** ** [class WAVDecoder] *)

Module WAVDecoder.

Record t := mk {
  header : WAVHeader.t;
  out : Print;
  audioBaseInfoSupport : option AudioBaseInfoDependent;
  isFirst : bool;
  isValid : bool;
  active : bool
}.

(** The two constructors.  [active] has no initialiser in the class; its
    value before [begin] is the argument [a]. *)
Definition make (out_stream : Print) (a : bool) : t :=
  mk WAVHeader.fresh out_stream None true true a.
Definition make_with (out_stream : Print) (bi : AudioBaseInfoDependent)
    (a : bool) : t :=
  mk WAVHeader.fresh out_stream (Some bi) true true a.

(** [void begin()] *)
Definition begin (d : t) : t :=
  mk (header d) (out d) (audioBaseInfoSupport d) true (isValid d) true.

Definition audioInfo (d : t) : WAVAudioInfo := WAVHeader.headerInfo (header d).

(** [size_t write(const void *in_ptr, size_t in_size)].  [None] when the
    header scan ran out of fuel. *)
Definition write (p : platform) (fuel : nat) (in_ptr : list byte) (d : t) :
    option (Z * t) :=
  let in_size := Z.of_nat (length in_ptr) in
  let result := 0 in
  if active d then
    if isFirst d then
      let (finished, h) := WAVHeader.begin p fuel in_ptr (header d) in
      if negb finished then None else
      let (sound, h) := WAVHeader.soundData p h in
      match sound with
      | Some (sound_ptr, len) =>
          let isFirst' := false in
          let isValid' := is_valid (WAVHeader.headerInfo h) in
          let format := format (WAVHeader.headerInfo h) in
          let isValid' := format =? WAV_FORMAT_PCM in
          if negb (format =? WAV_FORMAT_PCM) then
            let isValid' := false in
            Some (result,
                  mk h (out d) (audioBaseInfoSupport d) isFirst' isValid'
                     (active d))
          else
            let bi := mkAudioBaseInfo
                        (sample_rate (WAVHeader.headerInfo h))
                        (channels (WAVHeader.headerInfo h))
                        (bits_per_sample (WAVHeader.headerInfo h)) in
            match audioBaseInfoSupport d with
            | Some l =>
                let isValid' := validate l bi in
                if isValid' then
                  let l := setAudioInfo bi l in
                  let (result, o) := Print_write sound_ptr len (out d) in
                  Some (result, mk h o (Some l) isFirst' isValid' (active d))
                else
                  Some (result,
                        mk h (out d) (Some l) isFirst' isValid' (active d))
            | None =>
                Some (result, mk h (out d) None isFirst' isValid' (active d))
            end
      | None =>
          Some (result,
                mk h (out d) (audioBaseInfoSupport d) (isFirst d) (isValid d)
                   (active d))
      end
    else if isValid d then
      let (result, o) := Print_write in_ptr in_size (out d) in
      Some (result,
            mk (header d) o (audioBaseInfoSupport d) (isFirst d) (isValid d)
               (active d))
    else Some (result, d)
  else Some (result, d).

(** A run of [write] calls, one per buffer: the results, in order, and
    the decoder after the last one. *)
Fixpoint writes (p : platform) (fuel : nat) (bufs : list (list byte)) (d : t) :
    option (list Z * t) :=
  match bufs with
  | [] => Some ([], d)
  | b :: bufs' =>
      match write p fuel b d with
      | Some (r, d') =>
          match writes p fuel bufs' d' with
          | Some (rs, d'') => Some (r :: rs, d'')
          | None => None
          end
      | None => None
      end
  end.

End WAVDecoder.

(** ** [class WAVEncoder] *)

(** The first [n] bytes of the object representation of an integer, on
    the little-endian targets of the library: what
    [write32] and [write16] send when they pass the address of [value]
    to [stream.write]. *)
Fixpoint le_bytes (n : nat) (v : Z) : list byte :=
  match n with
  | O => []
  | S n' => byte_of_Z v :: le_bytes n' (v / 256)
  end.

(** How a call ends: it returns a value, or it traps on a division by
    zero.  [WAVEncoder::write] holds such a division in its not-open
    path ([int x = 10 / 0;]); its result is never read, and no path of
    the model traps (see [WAVEncoder.write]). *)
Inductive outcome (A : Type) :=
| Returned (a : A)
| DivisionByZero.
Arguments Returned {A} a.
Arguments DivisionByZero {A}.

Module WAVEncoder.

Record t := mk {
  stream_ptr : option Print;
  audioInfo : WAVAudioInfo;
  size_limit : Z;          (* int64_t *)
  header_written : bool;
  is_open : bool           (* volatile bool *)
}.

(** [WAVAudioInfo defaultConfig()].  The three [DEFAULT_...] macros come
    from a configuration header that is taken as given; [byte_rate] and
    [block_align] are left unset by the source and are arguments here. *)
Definition defaultConfig
    (DEFAULT_SAMPLE_RATE DEFAULT_BITS_PER_SAMPLE DEFAULT_CHANNELS : Z)
    (unset_byte_rate unset_block_align : Z) : WAVAudioInfo :=
  mkWAVAudioInfo WAV_FORMAT_PCM DEFAULT_SAMPLE_RATE DEFAULT_BITS_PER_SAMPLE
    DEFAULT_CHANNELS unset_byte_rate unset_block_align false true
    2147418112 (to_uint32 (2147418112 + 36)).

(** The two constructors.  [size_limit] and [is_open] have no
    initialiser; [stream_ptr] has none in the empty constructor. *)
Definition make (cfg : WAVAudioInfo) (unset_limit : Z) (unset_open : bool) : t :=
  mk None cfg unset_limit false unset_open.
Definition make_with (o : Print) (cfg : WAVAudioInfo) (unset_limit : Z)
    (unset_open : bool) : t :=
  mk (Some o) cfg unset_limit false unset_open.

(** [void begin(WAVAudioInfo &ai)] *)
Definition begin (ai : WAVAudioInfo) (e : t) : t :=
  let audioInfo := ai in
  let audioInfo :=
    set_byte_rate
      (to_int (to_int (sample_rate audioInfo * bits_per_sample audioInfo)
               * channels audioInfo)) audioInfo in
  let audioInfo :=
    set_block_align
      (to_int (Z.quot (bits_per_sample audioInfo) 8 * channels audioInfo))
      audioInfo in
  if is_streamed audioInfo || (data_length audioInfo =? 0)
     || (2147418112 <=? data_length audioInfo) then
    let audioInfo := set_is_streamed true audioInfo in
    let audioInfo := set_data_length (to_uint32 (-1)) audioInfo in
    mk (stream_ptr e) audioInfo (size_limit e) false true
  else
    mk (stream_ptr e) audioInfo (data_length audioInfo) false true.

(** [void begin(Stream &out, WAVAudioInfo &ai)] *)
Definition begin_with (o : Print) (ai : WAVAudioInfo) (e : t) : t :=
  begin ai (mk (Some o) (audioInfo e) (size_limit e) (header_written e)
               (is_open e)).

(** [void end()] *)
Definition end_ (e : t) : t :=
  mk (stream_ptr e) (audioInfo e) (size_limit e) (header_written e) false.

(** The header writers send to [*stream_ptr] and ignore the counts. *)
Definition send (data : list byte) (s : Print) : Print :=
  snd (Print_write data (Z.of_nat (length data)) s).

(** [write32(Stream&, uint64_t value)], [write16(Stream&, uint16_t value)] *)
Definition write32 (value : Z) (s : Print) : Print :=
  send (le_bytes 4 (wrap_unsigned 64 value)) s.
Definition write16 (value : Z) (s : Print) : Print :=
  send (le_bytes 2 (to_uint16 value)) s.

Definition writeRiffHeader (ai : WAVAudioInfo) (s : Print) : Print :=
  let s := send ["R"; "I"; "F"; "F"]%byte s in
  let s := write32 (to_uint32 (file_size ai - 8)) s in
  send ["W"; "A"; "V"; "E"]%byte s.

Definition writeFMT (ai : WAVAudioInfo) (s : Print) : Print :=
  let fmt_len := 16 in
  let byteRate :=
    to_uint32
      (Z.quot (to_int (to_int (sample_rate ai * bits_per_sample ai)
                       * channels ai)) 8) in
  let frame_size :=
    to_uint32 (Z.quot (to_int (channels ai * bits_per_sample ai)) 8) in
  let s := send ["f"; "m"; "t"; " "]%byte s in
  let s := write32 fmt_len s in
  let s := write16 (format ai) s in
  let s := write16 (channels ai) s in
  let s := write32 (sample_rate ai) s in
  let s := write32 byteRate s in
  let s := write16 frame_size s in
  write16 (bits_per_sample ai) s.

(** [writeDataHeader] also updates [audioInfo.file_size]. *)
Definition writeDataHeader (ai : WAVAudioInfo) (s : Print) :
    WAVAudioInfo * Print :=
  let s := send ["d"; "a"; "t"; "a"]%byte s in
  let ai := set_file_size (to_uint32 (file_size ai - 44)) ai in
  (ai, write32 (file_size ai) s).

(** [size_t write(const void *in_ptr, size_t in_size)].  The not-open
    path is [int x = 10 / 0; return 0;]: [x] is never read, the
    optimising builds of the library drop the division, and the call
    returns 0. *)
Definition write (p : platform) (in_ptr : list byte) (e : t) :
    outcome Z * t :=
  let in_size := Z.of_nat (length in_ptr) in
  if negb (is_open e) then (Returned 0, e) else
  match stream_ptr e with
  | None => (Returned 0, e)
  | Some s =>
      let '(ai, s, written) :=
        if negb (header_written e) then
          let s := writeRiffHeader (audioInfo e) s in
          let s := writeFMT (audioInfo e) s in
          let (ai, s) := writeDataHeader (audioInfo e) s in
          (ai, s, true)
        else (audioInfo e, s, header_written e) in
      let result := 0 in
      if is_streamed ai then
        let (n, s) := Print_write in_ptr in_size s in
        let result := to_int32 n in
        (Returned (to_size_t p result),
         mk (Some s) ai (size_limit e) written (is_open e))
      else if 0 <? size_limit e then
        let write_size := Z.min in_size (to_size_t p (size_limit e)) in
        let (n, s) := Print_write in_ptr write_size s in
        let result := to_int32 n in
        let limit := to_int64 (size_limit e - result) in
        if limit <=? 0 then
          (Returned (to_size_t p result),
           mk (Some (Print_flush s)) ai limit written false)
        else
          (Returned (to_size_t p result),
           mk (Some s) ai limit written (is_open e))
      else
        (Returned (to_size_t p result),
         mk (Some s) ai (size_limit e) written (is_open e))
  end.

(** [bool isOpen()] *)
Definition isOpen (e : t) : bool := is_open e.

(** A run of [write] calls, one per buffer.  A run would stop at a
    call that does not return. *)
Fixpoint writes (p : platform) (bufs : list (list byte)) (e : t) :
    list (outcome Z) * t :=
  match bufs with
  | [] => ([], e)
  | b :: bufs' =>
      match write p b e with
      | (Returned n, e') =>
          let (rs, e'') := writes p bufs' e' in (Returned n :: rs, e'')
      | (DivisionByZero, e') => ([DivisionByZero], e')
      end
  end.

(** The sink of an encoder that has one, and the bytes it has taken. *)
Definition sink_bytes (e : t) : list byte :=
  match stream_ptr e with
  | Some s => taken s
  | None => []
  end.

End WAVEncoder.

(** ** Sample arithmetic of the converters

    The converters are templates over the sample type [T]; they mix [T]
    with [float] (IEEE 754 binary32, here [spec_float] at precision 24).
    An operand of an expression is either an [int] (what a narrower
    integer promotes to) or a [float]; the usual arithmetic conversions
    turn the [int] into a [float] when the other operand is one.  Signed
    overflow and a [float] that does not fit the integer it is stored to
    are undefined in the language; the model wraps them. *)

Definition f32_of_Z (z : Z) : spec_float := binary_normalize 24 128 z 0 false.

(** Conversion of a [float] to an integer discards the fraction. *)
Definition f32_trunc (f : spec_float) : Z :=
  match f with
  | S754_finite s m e =>
      let v := if 0 <=? e then Z.pos m * 2 ^ e else Z.pos m / 2 ^ (- e) in
      if s then - v else v
  | _ => 0
  end.

Inductive num :=
| Int (z : Z)
| Flt (f : spec_float).

Definition num_float (a : num) : spec_float :=
  match a with Int z => f32_of_Z z | Flt f => f end.

Definition num_add (a b : num) : num :=
  match a, b with
  | Int x, Int y => Int (to_int (x + y))
  | _, _ => Flt (SFadd 24 128 (num_float a) (num_float b))
  end.
Definition num_sub (a b : num) : num :=
  match a, b with
  | Int x, Int y => Int (to_int (x - y))
  | _, _ => Flt (SFsub 24 128 (num_float a) (num_float b))
  end.
Definition num_mul (a b : num) : num :=
  match a, b with
  | Int x, Int y => Int (to_int (x * y))
  | _, _ => Flt (SFmul 24 128 (num_float a) (num_float b))
  end.
Definition num_div (a b : num) : num :=
  match a, b with
  | Int x, Int y => Int (to_int (Z.quot x y))
  | _, _ => Flt (SFdiv 24 128 (num_float a) (num_float b))
  end.
Definition num_neg (a : num) : num :=
  match a with
  | Int x => Int (to_int (- x))
  | Flt f => Flt (SFopp f)
  end.
Definition num_ltb (a b : num) : bool :=
  match a, b with
  | Int x, Int y => x <? y
  | _, _ => SFltb (num_float a) (num_float b)
  end.

(** A sample type: how a value enters an expression and how the value of
    an expression is stored back. *)
Class Sample (T : Type) := {
  load : T -> num;
  store : num -> T
}.

(** [int16_t] and [int32_t] samples are integers in their range, [float]
    samples are [spec_float]s. *)
Definition store_int (wrap : Z -> Z) (a : num) : Z :=
  match a with Int z => wrap z | Flt f => wrap (f32_trunc f) end.

Definition int16_sample : Sample Z := {| load := Int; store := store_int to_int16 |}.
Definition int32_sample : Sample Z := {| load := Int; store := store_int to_int32 |}.
Definition float_sample : Sample spec_float :=
  {| load := Flt; store := num_float |}.

(** ** Stereo buffers: [T src[][2]] with its frame count

    A buffer is the list of its frames.  An access outside the list is
    outside the array; the functions below then give [None]. *)

Definition get {T} (src : list (T * T)) (j : nat) (c : nat) : option T :=
  f ← src !! j;
  match c with
  | 0%nat => Some (fst f)
  | 1%nat => Some (snd f)
  | _ => None
  end.

Definition set {T} (src : list (T * T)) (j : nat) (c : nat) (v : T) :
    option (list (T * T)) :=
  f ← src !! j;
  match c with
  | 0%nat => Some (<[j := (v, snd f)]> src)
  | 1%nat => Some (<[j := (fst f, v)]> src)
  | _ => None
  end.

(** [for (size_t j = from; j < from + count; j++) body] *)
Fixpoint for_upto {S} (count from : nat) (body : nat -> S -> option S) (s : S) :
    option S :=
  match count with
  | O => Some s
  | Datatypes.S count' => s' ← body from s; for_upto count' (Datatypes.S from) body s'
  end.

(** ** [class ConverterScaler] *)

Module ConverterScaler.
Section Scaler.
Context {T : Type} `{Sample T}.

Record t := mk {
  factor : spec_float;
  maxValue : T;
  offset : T
}.

(** The constructor takes the arguments in the order
    [factor, offset, maxValue]. *)
Definition make (factor : spec_float) (offset maxValue : T) : t :=
  mk factor maxValue offset.

(** The body of the loop of [convert], statement by statement. *)
Definition convert_frame (cv : t) (j : nat) (src : list (T * T)) :
    option (list (T * T)) :=
  a ← get src j 0;
  src ← set src j 0
          (store (num_mul (num_add (load a) (load (offset cv)))
                          (Flt (factor cv))));
  a ← get src j 0;
  src ← (if num_ltb (load (maxValue cv)) (load a) then
           set src j 0 (maxValue cv)
         else
           a ← get src j 0;
           if num_ltb (load a) (num_neg (load (maxValue cv))) then
             set src j 0 (store (num_neg (load (maxValue cv))))
           else Some src);
  b ← get src j 1;
  src ← set src j 1
          (store (num_add (load b)
                          (num_mul (load (offset cv)) (Flt (factor cv)))));
  b ← get src j 1;
  if num_ltb (load (maxValue cv)) (load b) then
    set src j 1 (maxValue cv)
  else
    a ← get src j 0;
    if num_ltb (load a) (num_neg (load (maxValue cv))) then
      set src j 1 (store (num_neg (load (maxValue cv))))
    else Some src.

(** [void convert(T src[][2], size_t size)] *)
Definition convert (cv : t) (src : list (T * T)) (size : nat) :
    option (list (T * T)) :=
  for_upto size 0 (convert_frame cv) src.

(** What the documentation of the class and the specification ask of
    one sample: [clip((s + offset) * factor, -maxValue, +maxValue)]. *)
Definition scaled (cv : t) (s : T) : T :=
  let v := store (num_mul (num_add (load s) (load (offset cv)))
                          (Flt (factor cv))) in
  if num_ltb (load (maxValue cv)) (load v) then maxValue cv
  else if num_ltb (load v) (num_neg (load (maxValue cv))) then
    store (num_neg (load (maxValue cv)))
  else v.
End Scaler.
Arguments t T : clear implicits.
End ConverterScaler.

(** ** [class ConverterAutoCenter] *)

Module ConverterAutoCenter.
Section AutoCenter.
Context {T : Type} `{Sample T}.

Record t := mk {
  offset : T;
  left : spec_float;
  right : spec_float;
  is_setup : bool
}.

(** The constructor initialises [is_setup] only; the other members
    start with whatever the arguments say. *)
Definition make (unset_offset : T) (unset_left unset_right : spec_float) : t :=
  mk unset_offset unset_left unset_right false.

(** [left += src[j][0]; right += src[j][1];] *)
Definition accumulate (j : nat) (st : t * list (T * T)) :
    option (t * list (T * T)) :=
  let (cv, src) := st in
  a ← get src j 0;
  let cv := mk (offset cv) (num_float (num_add (Flt (left cv)) (load a)))
               (right cv) (is_setup cv) in
  b ← get src j 1;
  let cv := mk (offset cv) (left cv)
               (num_float (num_add (Flt (right cv)) (load b)))
               (is_setup cv) in
  Some (cv, src).

(** [void setup(T src[][2], size_t size)] *)
Definition setup (cv : t) (src : list (T * T)) (size : nat) : option t :=
  if negb (is_setup cv) then
    '(cv, _) ← for_upto size 0 accumulate (cv, src);
    let cv := mk (offset cv)
                 (num_float (num_div (Flt (left cv)) (Int (Z.of_nat size))))
                 (right cv) (is_setup cv) in
    let cv := mk (offset cv) (left cv)
                 (num_float (num_div (Flt (right cv)) (Int (Z.of_nat size))))
                 (is_setup cv) in
    if num_ltb (Int 0) (Flt (left cv)) then
      Some (mk (store (Flt (left cv))) (left cv) (right cv) true)
    else if num_ltb (Int 0) (Flt (right cv)) then
      Some (mk (store (Flt (right cv))) (left cv) (right cv) true)
    else Some cv
  else Some cv.

(** [src[j][0] = src[j][0] - offset; src[j][1] = src[j][1] - offset;] *)
Definition center_frame (cv : t) (j : nat) (src : list (T * T)) :
    option (list (T * T)) :=
  a ← get src j 0;
  src ← set src j 0 (store (num_sub (load a) (load (offset cv))));
  b ← get src j 1;
  set src j 1 (store (num_sub (load b) (load (offset cv)))).

(** [void convert(T src[][2], size_t size)] *)
Definition convert (cv : t) (src : list (T * T)) (size : nat) :
    option (t * list (T * T)) :=
  cv ← setup cv src size;
  if is_setup cv then
    src ← for_upto size 0 (center_frame cv) src;
    Some (cv, src)
  else Some (cv, src).
End AutoCenter.
Arguments t T : clear implicits.
End ConverterAutoCenter.

(** ** [class ConverterSwitchLeftAndRight] *)

Module ConverterSwitchLeftAndRight.
Section Switch.
Context {T : Type}.

(** [src[j][1] = src[j][0]; src[j][0] = src[j][1];] *)
Definition convert_frame (j : nat) (src : list (T * T)) :
    option (list (T * T)) :=
  a ← get src j 0;
  src ← set src j 1 a;
  b ← get src j 1;
  set src j 0 b.

(** [void convert(T src[][2], size_t size)] *)
Definition convert (src : list (T * T)) (size : nat) : option (list (T * T)) :=
  for_upto size 0 convert_frame src.
End Switch.
End ConverterSwitchLeftAndRight.

(** ** [class CallbackConverter]

    The loop of [convert] indexes its two arrays with a counter that
    starts at [size].  To say what it touches, an array is modelled here
    with the memory that follows it: a function from the index to the
    frame found there.  The accesses are recorded, oldest first. *)

Module CallbackConverter.

Inductive access :=
| Load (i : Z)       (* a sample of [src[i]] was read *)
| Store (i : Z).     (* a sample of [target[i]] was written *)

Section Callback.
Context {FromType ToType : Type}.
Variable convert_ptr : FromType -> ToType.

Definition write_at (target : Z -> ToType * ToType) (i : Z)
    (f : ToType * ToType) : Z -> ToType * ToType :=
  fun k => if k =? i then f else target k.

(** [target[i][0] = convert_ptr(src[i][0]);
     target[i][1] = convert_ptr(src[i][1]);], the calls made through
    the function pointer. *)
Definition convert_frame (src : Z -> FromType * FromType) (i : Z)
    (st : (Z -> ToType * ToType) * list access) :
    (Z -> ToType * ToType) * list access :=
  let (target, log) := st in
  let target := write_at target i (convert_ptr (fst (src i)), snd (target i)) in
  let log := log ++ [Load i; Store i] in
  let target := write_at target i (fst (target i), convert_ptr (snd (src i))) in
  let log := log ++ [Load i; Store i] in
  (target, log).

(** [for (int i = size; i > 0; i--)]: [n] is the value of [i]. *)
Fixpoint convert_loop (src : Z -> FromType * FromType) (n : nat)
    (st : (Z -> ToType * ToType) * list access) :
    (Z -> ToType * ToType) * list access :=
  match n with
  | O => st
  | S n' => convert_loop src n' (convert_frame src (Z.of_nat n) st)
  end.

(** [void convert(FromType src[][2], ToType target[][2], size_t size)]:
    [int i = size] converts the [size_t] to [int]. *)
Definition convert (src : Z -> FromType * FromType)
    (target : Z -> ToType * ToType) (size : Z) :
    (Z -> ToType * ToType) * list access :=
  convert_loop src (Z.to_nat (to_int size)) (target, []).
End Callback.
End CallbackConverter.


(** ** The other converters of [Converter.h] *)

(** [a == b] after the usual arithmetic conversions. *)
Definition num_eqb (a b : num) : bool :=
  match a, b with
  | Int x, Int y => x =? y
  | _, _ => SFeqb (num_float a) (num_float b)
  end.

Definition INT32_MAX : Z := 2147483647.
Definition INT16_MAX : Z := 32767.

(** [static int16_t convertFrom32To16(int32_t value)]:
    [return static_cast<float>(value) / INT32_MAX * INT16_MAX;], the
    two constants converted to [float], the product converted to the
    return type. *)
Definition convertFrom32To16 (value : Z) : Z :=
  store_int to_int16
    (num_mul (num_div (Flt (f32_of_Z value)) (Int INT32_MAX)) (Int INT16_MAX)).

(** [for (int j = 0; j < size; j++) body]: the counter is an [int]
    compared with a [size_t].  A [size] beyond [INT_MAX] makes the
    counter overflow, which the language does not define: [None]. *)
Definition for_int_upto {S} (size : nat) (body : nat -> S -> option S) (s : S) :
    option S :=
  if Z.of_nat size <=? INT32_MAX then for_upto size 0 body s else None.

(** *** [class ConverterToInternalDACFormat] *)

Module ConverterToInternalDACFormat.
Section DAC.
Context {T : Type} `{Sample T}.

(** [src[i][0] = src[i][0] + 0x8000; src[i][1] = src[i][1] + 0x8000;] *)
Definition convert_frame (i : nat) (src : list (T * T)) : option (list (T * T)) :=
  a ← get src i 0;
  src ← set src i 0 (store (num_add (load a) (Int 32768)));
  b ← get src i 1;
  set src i 1 (store (num_add (load b) (Int 32768))).

(** [void convert(T src[][2], size_t size)] *)
Definition convert (src : list (T * T)) (size : nat) : option (list (T * T)) :=
  for_int_upto size convert_frame src.
End DAC.
End ConverterToInternalDACFormat.

(** *** [class ConverterFillLeftAndRight] *)

Module ConverterFillLeftAndRight.

Record t := mk {
  is_setup : bool;
  left_empty : bool;
  right_empty : bool
}.

(** The constructor, with the initialisers of the three members. *)
Definition make : t := mk false true true.

Section Fill.
Context {T : Type} `{Sample T}.

(** [for (int j = 0; j < size; j++) { if (src[j][c] != 0) { flag = false;
    break; } }]: the flag after the loop.  [from] is the value of [j];
    incrementing it at [INT_MAX] is not defined. *)
Fixpoint scan_channel (count from : nat) (c : nat) (src : list (T * T))
    (flag : bool) : option bool :=
  match count with
  | O => Some flag
  | S count' =>
      a ← get src from c;
      if negb (num_eqb (load a) (Int 0)) then Some false
      else if Z.of_nat from =? INT32_MAX then None
      else scan_channel count' (S from) c src flag
  end.

(** [void setup(T src[][2], size_t size)] *)
Definition setup (cv : t) (src : list (T * T)) (size : nat) : option t :=
  if negb (is_setup cv) then
    l ← scan_channel size 0 0 src (left_empty cv);
    let cv := mk (is_setup cv) l (right_empty cv) in
    r ← scan_channel size 0 1 src (right_empty cv);
    let cv := mk (is_setup cv) (left_empty cv) r in
    if negb (right_empty cv) || negb (left_empty cv) then
      Some (mk true (left_empty cv) (right_empty cv))
    else Some cv
  else Some cv.

(** [src[j][0] = src[j][1];] and [src[j][1] = src[j][0];] *)
Definition left_from_right (j : nat) (src : list (T * T)) : option (list (T * T)) :=
  b ← get src j 1;
  set src j 0 b.
Definition right_from_left (j : nat) (src : list (T * T)) : option (list (T * T)) :=
  a ← get src j 0;
  set src j 1 a.

(** [void convert(T src[][2], size_t size)] *)
Definition convert (cv : t) (src : list (T * T)) (size : nat) :
    option (t * list (T * T)) :=
  cv ← setup cv src size;
  if left_empty cv && negb (right_empty cv) then
    src ← for_upto size 0 left_from_right src;
    Some (cv, src)
  else if negb (left_empty cv) && right_empty cv then
    src ← for_upto size 0 right_from_left src;
    Some (cv, src)
  else Some (cv, src).
End Fill.
End ConverterFillLeftAndRight.

(** What [ConverterScaler::convert] stores in the right channel of a
    frame: the offset alone is scaled, and the lower bound is tested on
    the left sample of the frame, already converted. *)
Definition scaler_right {T} `{Sample T} (cv : ConverterScaler.t T) (f : T * T) : T :=
  let v := store (num_add (load (snd f))
                          (num_mul (load (ConverterScaler.offset cv))
                                   (Flt (ConverterScaler.factor cv)))) in
  if num_ltb (load (ConverterScaler.maxValue cv)) (load v) then
    ConverterScaler.maxValue cv
  else if num_ltb (load (ConverterScaler.scaled cv (fst f)))
                  (num_neg (load (ConverterScaler.maxValue cv))) then
    store (num_neg (load (ConverterScaler.maxValue cv)))
  else v.

(** The values the loop counter of [CallbackConverter::convert] takes when
    it starts at [n]: [n, n - 1, ..., 1]. *)
Fixpoint countdown (n : nat) : list Z :=
  match n with
  | O => []
  | S n' => Z.of_nat n :: countdown n'
  end.
(** What one call of [ConverterAutoCenter::setup] leaves in the object:
    nothing changes once [is_setup] holds; before that the two
    accumulators, which keep what earlier calls left in them, take the
    samples of the buffer, are divided by the frame count, and the first
    of the two that is positive becomes the offset. *)
Definition autocenter_sums {T} `{Sample T} (l r : spec_float) (src : list (T * T)) :
    spec_float * spec_float :=
  fold_left
    (fun acc f => (num_float (num_add (Flt (fst acc)) (load (fst f))),
                   num_float (num_add (Flt (snd acc)) (load (snd f)))))
    src (l, r).

Definition calibrate {T} `{Sample T} (cv : ConverterAutoCenter.t T)
    (src : list (T * T)) : ConverterAutoCenter.t T :=
  if ConverterAutoCenter.is_setup cv then cv else
  let sums := autocenter_sums (ConverterAutoCenter.left cv)
                              (ConverterAutoCenter.right cv) src in
  let l := num_float (num_div (Flt (fst sums)) (Int (Z.of_nat (length src)))) in
  let r := num_float (num_div (Flt (snd sums)) (Int (Z.of_nat (length src)))) in
  if num_ltb (Int 0) (Flt l) then ConverterAutoCenter.mk (store (Flt l)) l r true
  else if num_ltb (Int 0) (Flt r) then ConverterAutoCenter.mk (store (Flt r)) l r true
  else ConverterAutoCenter.mk (ConverterAutoCenter.offset cv) l r false.

(** A buffer with [off] subtracted from every sample of both channels. *)
Definition centered {T} `{Sample T} (off : T) (src : list (T * T)) : list (T * T) :=
  map (fun f => (store (num_sub (load (fst f)) (load off)),
                 store (num_sub (load (snd f)) (load off)))) src.

(** The three pieces of a canonical RIFF/WAVE header, as byte lists. *)
Definition riff_header (riff_size : Z) : list byte :=
  ["R"; "I"; "F"; "F"]%byte ++ le_bytes 4 riff_size ++ ["W"; "A"; "V"; "E"]%byte.

Definition fmt_chunk (fmt_size format_code channel_count rate bytes_per_second
    frame_size bits : Z) (extension : list byte) : list byte :=
  ["f"; "m"; "t"; " "]%byte ++ le_bytes 4 fmt_size
  ++ le_bytes 2 format_code ++ le_bytes 2 channel_count ++ le_bytes 4 rate
  ++ le_bytes 4 bytes_per_second ++ le_bytes 2 frame_size ++ le_bytes 2 bits
  ++ extension.

Definition data_header (data_size : Z) : list byte :=
  ["d"; "a"; "t"; "a"]%byte ++ le_bytes 4 data_size.

(** The header bytes of an encoder session: what [writeRiffHeader],
    [writeFMT] and [writeDataHeader] send to a sink that takes
    everything. *)
Definition encoded_header (ai : WAVAudioInfo) : list byte :=
  taken (snd (WAVEncoder.writeDataHeader ai
                (WAVEncoder.writeFMT ai
                   (WAVEncoder.writeRiffHeader ai unbounded_sink)))).

(** The number of bytes of a sequence of buffers. *)
Definition total (bufs : list (list byte)) : Z := Z.of_nat (length (concat bufs)).

(** A session in bounded mode with budget [d] of which [k] bytes are
    used: the sink takes everything, the remaining budget is [d - k], and
    the session is open while some budget is left. *)
Definition bounded_session (d k : Z) (e : WAVEncoder.t) : Prop :=
  (exists s, WAVEncoder.stream_ptr e = Some s /\ forall n, accepts s n = n)
  /\ is_streamed (WAVEncoder.audioInfo e) = false
  /\ WAVEncoder.size_limit e = d - k
  /\ WAVEncoder.is_open e = (k <? d).

(** A session with a budget of three bytes on a sink that takes
    everything. *)
Definition three_byte_info : WAVAudioInfo :=
  mkWAVAudioInfo WAV_FORMAT_PCM 44100 16 2 0 0 false true 3 39.

Definition three_byte_session : WAVEncoder.t :=
  WAVEncoder.begin three_byte_info
    (WAVEncoder.make_with unbounded_sink three_byte_info 0 false).

(** A sink that takes at most four bytes of every [write]: the tags and
    fields of the header pass whole, a longer payload does not. *)
Definition four_byte_sink : Print := mkPrint [] O (fun n => Z.min n 4).

(** A session with a budget of six bytes on that sink. *)
Definition six_byte_info : WAVAudioInfo :=
  mkWAVAudioInfo WAV_FORMAT_PCM 44100 16 2 0 0 false true 6 42.

Definition six_byte_session : WAVEncoder.t :=
  WAVEncoder.begin six_byte_info
    (WAVEncoder.make_with four_byte_sink six_byte_info 0 false).

(** One write of eight bytes, more than the budget of six: the sink is
    offered six bytes and takes four, the call returns 4, and the
    session stays open with a budget of two. *)
Definition budget_not_reached (p : platform) : Prop :=
  let bufs := [["a"; "b"; "c"; "d"; "e"; "f"; "g"; "h"]]%byte in
  let r := WAVEncoder.writes p bufs six_byte_session in
  0 < data_length six_byte_info < 2147418112
  /\ data_length six_byte_info < total bufs
  /\ fst r = [Returned 4]
  /\ WAVEncoder.sink_bytes (snd r)
     = encoded_header six_byte_info ++ ["a"; "b"; "c"; "d"]%byte
  /\ WAVEncoder.is_open (snd r) = true
  /\ WAVEncoder.size_limit (snd r) = 2.

(** A descriptor whose [file_size] is smaller than the header it
    describes. *)
Definition short_file_info : WAVAudioInfo :=
  mkWAVAudioInfo WAV_FORMAT_PCM 44100 16 2 0 0 false true 1000 10.

(** The header an encoder writes for [short_file_info] is scanned to the
    end and leaves the descriptor of the scanner empty. *)
Definition short_file_lost (p : platform) : Prop :=
  let e1 := snd (WAVEncoder.write p []
                   (WAVEncoder.begin_with unbounded_sink short_file_info
                      (WAVEncoder.make short_file_info 0 false))) in
  let r := WAVHeader.begin p 10 (WAVEncoder.sink_bytes e1) WAVHeader.fresh in
  fst r = true
  /\ sample_rate (WAVHeader.headerInfo (snd r)) = 0
  /\ format (WAVHeader.headerInfo (snd r)) = 0
  /\ sample_rate short_file_info = 44100.

(** What a sink answers to a run of [write] calls, one per buffer, each
    offering the whole buffer: the counts, and the sink afterwards. *)
Fixpoint forward_all (bufs : list (list byte)) (o : Print) : list Z * Print :=
  match bufs with
  | [] => ([], o)
  | b :: bufs' =>
      let (n, o') := Print_write b (Z.of_nat (length b)) o in
      let (ns, o'') := forward_all bufs' o' in
      (n :: ns, o'')
  end.

(** A header that declares IEEE float samples (format code 3) and ends
    before any [data] chunk; a complete PCM header followed by four bytes
    of sound. *)
Definition float_header_only : list byte :=
  riff_header 100 ++ fmt_chunk 16 3 2 44100 352800 8 32 [].

Definition pcm_header_abcd : list byte :=
  riff_header 40 ++ fmt_chunk 16 1 2 44100 176400 4 16 [] ++ data_header 4
  ++ ["a"; "b"; "c"; "d"]%byte.

Definition float_header_abcd : list byte :=
  riff_header 40 ++ fmt_chunk 16 3 2 44100 352800 8 32 [] ++ data_header 4
  ++ ["a"; "b"; "c"; "d"]%byte.

(** A decoder with a sink and an accepting listener is given
    [float_header_only] and then [pcm_header_abcd]: the first scan reads
    format code 3, the first call forwards nothing, the second forwards
    the four sound bytes. *)
Definition forwards_after_non_pcm (p : platform) : Prop :=
  let d0 := WAVDecoder.begin
              (WAVDecoder.make_with unbounded_sink accepting_listener false) in
  exists h1 d2,
    WAVHeader.begin p 10 float_header_only (WAVDecoder.header d0) = (true, h1)
    /\ format (WAVHeader.headerInfo h1) = 3
    /\ WAVDecoder.writes p 10 [float_header_only; pcm_header_abcd] d0
       = Some ([0; 4], d2)
    /\ taken (WAVDecoder.out d2) = ["a"; "b"; "c"; "d"]%byte.

(** A decoder with a sink and no listener is given [pcm_header_abcd] and
    then four more bytes: the first call forwards nothing, the second
    forwards its four bytes. *)
Definition forwards_without_listener (p : platform) : Prop :=
  let d0 := WAVDecoder.begin (WAVDecoder.make unbounded_sink false) in
  exists d2,
    WAVDecoder.writes p 10 [pcm_header_abcd; ["e"; "f"; "g"; "h"]%byte] d0
    = Some ([0; 4], d2)
    /\ taken (WAVDecoder.out d2) = ["e"; "f"; "g"; "h"]%byte.

(** The scanner with its cursor between [before] and [after]: the buffer
    is [before ++ after] and [data_pos] is the length of [before]. *)
Definition at_split (i : WAVAudioInfo) (before after : list byte) (sp : Z)
    (tr : list WAVHeader.access) : WAVHeader.t :=
  WAVHeader.mk i (before ++ after) (Z.of_nat (length (before ++ after)))
    (Z.of_nat (length before)) sp tr.

(** The trail after the bytes [bs] were read from offset [start] on. *)
Fixpoint fetched (start : Z) (bs : list byte) (tr : list WAVHeader.access) :
    list WAVHeader.access :=
  match bs with
  | [] => tr
  | _ :: bs' => fetched (start + 1) bs' (WAVHeader.Fetch start :: tr)
  end.

(** The trail after [n] reads past the end of the buffer at [pos]. *)
Fixpoint missed (pos : Z) (n : nat) (tr : list WAVHeader.access) :
    list WAVHeader.access :=
  match n with
  | O => tr
  | S n' => missed pos n' (WAVHeader.Sentinel pos :: tr)
  end.

(** The tag [read_tag] assembles from four bytes. *)
Definition tag_of (a b c d : Z) : Z :=
  let tag := 0 in
  let tag := Z.lor (to_uint32 (Z.shiftl tag 8)) (to_uint32 a) in
  let tag := Z.lor (to_uint32 (Z.shiftl tag 8)) (to_uint32 b) in
  let tag := Z.lor (to_uint32 (Z.shiftl tag 8)) (to_uint32 c) in
  let tag := Z.lor (to_uint32 (Z.shiftl tag 8)) (to_uint32 d) in
  tag.

(** The descriptor after a [fmt ] chunk with the given fields was read. *)
Definition fmt_info (i : WAVAudioInfo) (fc ch sr br ba bps : Z) : WAVAudioInfo :=
  set_is_valid true
    (set_bits_per_sample (to_uint16 bps)
       (set_block_align (to_uint16 ba)
          (set_byte_rate (to_int (to_uint32 br))
             (set_sample_rate (to_int (to_uint32 sr))
                (set_channels (to_uint16 ch)
                   (set_format (to_uint16 fc) i)))))).

(** A buffer that starts with a RIFF/WAVE header, a [fmt ] chunk and the
    header of a [data] chunk, followed by [rest]. *)
Definition wave_buffer (riff_size fmt_size fc ch sr br ba bps : Z)
    (extension : list byte) (data_size : Z) (rest : list byte) : list byte :=
  riff_header riff_size
  ++ fmt_chunk fmt_size fc ch sr br ba bps extension
  ++ data_header data_size ++ rest.

(** A complete PCM file of four sound bytes followed by a [LIST] chunk of
    four bytes, all of it in the buffer. *)
Definition pcm_with_trailer : list byte :=
  wave_buffer 52 16 1 2 44100 176400 4 16 [] 4
    (["a"; "b"; "c"; "d"]%byte
     ++ ["L"; "I"; "S"; "T"]%byte ++ le_bytes 4 4 ++ ["w"; "x"; "y"; "z"]%byte).

(** The scan of [pcm_with_trailer] finds a valid header with a data chunk
    of four bytes, and [soundData] then gives a slice of sixteen bytes:
    the rest of the buffer, not the four bytes of the chunk. *)
Definition trailer_in_slice (p : platform) : Prop :=
  exists h' slice,
    WAVHeader.begin p 10 pcm_with_trailer WAVHeader.fresh = (true, h')
    /\ is_valid (WAVHeader.headerInfo h') = true
    /\ data_length (WAVHeader.headerInfo h') = 4
    /\ fst (WAVHeader.soundData p h') = Some (slice, 16)
    /\ Z.min 4 (Z.of_nat (length pcm_with_trailer) - 44) = 4.

(** The two properties of a scan that the trail can show: the cursor
    never moves back, and every byte read lies inside the buffer. *)
Definition moves_forward (e : WAVHeader.access) : Prop :=
  match e with
  | WAVHeader.Moved from to => from <= to
  | _ => True
  end.

Definition fetch_in_bounds (len : Z) (e : WAVHeader.access) : Prop :=
  match e with
  | WAVHeader.Fetch i => 0 <= i < len
  | _ => True
  end.

Definition cursor_monotone (tr : list WAVHeader.access) : Prop :=
  Forall moves_forward tr.

Definition fetches_in_bounds (len : Z) (tr : list WAVHeader.access) : Prop :=
  Forall (fetch_in_bounds len) tr.

(** What the scanner keeps true of its object while it runs over a
    buffer of [n] bytes. *)
Definition scanning (n : Z) (h : WAVHeader.t) : Prop :=
  WAVHeader.len h = n /\ 0 <= WAVHeader.data_pos h
  /\ fetches_in_bounds n (WAVHeader.trail h).

(** A step of the scanner that keeps [scanning]. *)
Definition keeps {A} (n : Z) (m : WAVHeader.M A) : Prop :=
  forall h, scanning n h -> scanning n (snd (m h)).

(** A chunk that is not a RIFF chunk and declares the length zero,
    followed by two more bytes. *)
Definition junk_buffer : list byte :=
  ["J"; "U"; "N"; "K"]%byte ++ le_bytes 4 0 ++ ["000"; "000"]%byte.


(** A buffer of 37 bytes: a chunk that is not a RIFF chunk, of length 9,
    then a RIFF/WAVE header that declares no size, then the header of a
    chunk of 24 bytes of which the buffer holds none. *)
Definition looping_buffer : list byte :=
  ["J"; "U"; "N"; "K"]%byte ++ le_bytes 4 9
  ++ ["0"; "1"; "2"; "3"; "4"; "5"; "6"; "7"; "8"]%byte
  ++ riff_header 0 ++ ["J"; "U"; "N"; "K"]%byte ++ le_bytes 4 24.

(** The scanner over [looping_buffer] with its cursor at [pos]. *)
Definition looping_at (pos : Z) (i : WAVAudioInfo) (tr : list WAVHeader.access) :
    WAVHeader.t :=
  WAVHeader.mk i looping_buffer 37 pos 0 tr.


(** A sample that compares equal to 0, and a channel without data. *)
Definition is_zero {T} `{Sample T} (x : T) : bool := num_eqb (load x) (Int 0).

Definition channel_empty {T} `{Sample T} (c : T * T -> T) (src : list (T * T)) : bool :=
  forallb (fun f => is_zero (c f)) src.

(** What [ConverterFillLeftAndRight::convert] does with a buffer once
    the two flags are known. *)
Definition filled {T} (cv : ConverterFillLeftAndRight.t) (src : list (T * T)) :
    list (T * T) :=
  if ConverterFillLeftAndRight.left_empty cv
     && negb (ConverterFillLeftAndRight.right_empty cv) then
    map (fun f => (snd f, snd f)) src
  else if negb (ConverterFillLeftAndRight.left_empty cv)
          && ConverterFillLeftAndRight.right_empty cv then
    map (fun f => (fst f, fst f)) src
  else src.

(** What [ConverterFillLeftAndRight::setup] leaves in the object after
    it looked at a buffer. *)
Definition decided {T} `{Sample T} (cv : ConverterFillLeftAndRight.t)
    (src : list (T * T)) : ConverterFillLeftAndRight.t :=
  if ConverterFillLeftAndRight.is_setup cv then cv else
  let l := channel_empty fst src && ConverterFillLeftAndRight.left_empty cv in
  let r := channel_empty snd src && ConverterFillLeftAndRight.right_empty cv in
  ConverterFillLeftAndRight.mk (negb r || negb l) l r.

(** A 16-bit sample, and a buffer of them. *)
Definition int16_range (x : Z) : Prop := -32768 <= x <= 32767.

Definition int16_frames (src : list (Z * Z)) : Prop :=
  Forall (fun f => int16_range (fst f) /\ int16_range (snd f)) src.

(** The offset-binary code of a 16-bit sample: the sample with its sign
    bit inverted. *)
Definition offset_binary (x : Z) : Z := if x <? 0 then x + 32768 else x - 32768.

(** A test on every integer of the block [lo, lo + 2^k). *)
Fixpoint all_in_block (k : nat) (P : Z -> bool) (lo : Z) : bool :=
  match k with
  | O => P lo
  | S k' => all_in_block k' P lo && all_in_block k' P (lo + 2 ^ Z.of_nat k')
  end.

(** The two expressions of [ConverterScaler::convert] at factor 1 and
    offset 0 give the 16-bit sample back. *)
Definition unit_gain_exact (x : Z) : bool :=
  (@store Z int16_sample
     (num_mul (num_add (@load Z int16_sample x) (@load Z int16_sample 0))
              (Flt (f32_of_Z 1))) =? x)
  && (@store Z int16_sample
        (num_add (@load Z int16_sample x)
                 (num_mul (@load Z int16_sample 0) (Flt (f32_of_Z 1)))) =? x).

(** A 16-bit sample widened to 32 bits by a shift of 16 bits and
    narrowed again by [convertFrom32To16] ends one step nearer to
    zero. *)
Definition one_step_to_zero (k : Z) : Z :=
  if 0 <? k then k - 1 else if k <? 0 then k + 1 else 0.

Definition narrows_to_step (k : Z) : bool :=
  convertFrom32To16 (k * 65536) =? one_step_to_zero k.

(** A session in streaming mode on a sink that takes everything. *)
Definition streaming_session (e : WAVEncoder.t) : Prop :=
  (exists s, WAVEncoder.stream_ptr e = Some s /\ forall n, accepts s n = n)
  /\ is_streamed (WAVEncoder.audioInfo e) = true
  /\ WAVEncoder.is_open e = true.

(** The sum of the counts a run of [write] calls returned. *)
Fixpoint returned_total (rs : list (outcome Z)) : Z :=
  match rs with
  | [] => 0
  | Returned n :: rs' => n + returned_total rs'
  | DivisionByZero :: rs' => returned_total rs'
  end.

(** A session in bounded mode with budget [d], of which [k] bytes are
    used, on a sink of any kind. *)
Definition budgeted_session (d k : Z) (e : WAVEncoder.t) : Prop :=
  (exists s, WAVEncoder.stream_ptr e = Some s)
  /\ is_streamed (WAVEncoder.audioInfo e) = false
  /\ WAVEncoder.size_limit e = d - k
  /\ WAVEncoder.is_open e = (k <? d).

(** A sink that takes at most three bytes of every [write]. *)
Definition slow_sink : Print := mkPrint [] O (fun n => Z.min n 3).

(** The format a decoder hands to its listener after the scan [h]. *)
Definition announced (h : WAVHeader.t) : AudioBaseInfo :=
  mkAudioBaseInfo (sample_rate (WAVHeader.headerInfo h))
    (channels (WAVHeader.headerInfo h))
    (bits_per_sample (WAVHeader.headerInfo h)).

(** A listener that refuses every format. *)
Definition refusing_listener : AudioBaseInfoDependent :=
  mkListener (fun _ => false) [].

(** ** Assertions on the steps of the scanner *)

(** A step [m] taken from a state in [P] ends in a state in [Q], which
    may depend on the value the step returns. *)
Definition triple {A} (P : WAVHeader.t -> Prop) (m : WAVHeader.M A)
    (Q : A -> WAVHeader.t -> Prop) : Prop :=
  forall h, P h -> Q (fst (m h)) (snd (m h)).

(** The scanner works on the buffer [buf] and its [sound_pos] is an
    offset into it; besides, [c] holds or the cursor is not beyond the
    end of the buffer. *)
Definition sound_inside (buf : list byte) (c : Prop) (h : WAVHeader.t) : Prop :=
  WAVHeader.buffer h = buf /\ WAVHeader.len h = Z.of_nat (length buf)
  /\ 0 <= WAVHeader.data_pos h
  /\ 0 <= WAVHeader.sound_pos h <= Z.of_nat (length buf)
  /\ (c \/ WAVHeader.data_pos h <= Z.of_nat (length buf)).

(** On a target with a 64-bit [long]: the scanner is on a buffer of [n]
    bytes, its cursor is at [c] or further on and at most [k] seeks of
    less than 2^32 bytes beyond the end of the buffer, and every entry
    of the trail satisfies [ok]. *)
Definition advancing (ok : WAVHeader.access -> Prop) (n k c : Z)
    (h : WAVHeader.t) : Prop :=
  WAVHeader.len h = n /\ 0 <= k <= 2 /\ 0 <= c
  /\ c <= WAVHeader.data_pos h <= n + k * 4294967296
  /\ Forall ok (WAVHeader.trail h).

(** The length a pass through a loop body hands on is a [uint32_t]. *)
Definition flow_range (r : WAVHeader.flow) : Prop :=
  match r with
  | WAVHeader.Next l | WAVHeader.Break l => 0 <= l < 4294967296
  | _ => True
  end.

(** The scanner on an empty buffer with its cursor at [d]. *)
Definition on_empty (i : WAVAudioInfo) (d sp : Z) (tr : list WAVHeader.access) :
    WAVHeader.t :=
  WAVHeader.mk i [] 0 d sp tr.

(** ** Chunks other than [fmt ] and [data] *)

(** A chunk: four tag bytes, the length of the payload as a 32-bit
    little-endian number, the payload. *)
Record chunk := mkChunk {
  tag_bytes : byte * byte * byte * byte;
  payload : list byte
}.

Definition chunk_bytes (c : chunk) : list byte :=
  let '(t0, t1, t2, t3) := tag_bytes c in
  [t0; t1; t2; t3] ++ le_bytes 4 (Z.of_nat (length (payload c))) ++ payload c.

Definition chunks_bytes (cs : list chunk) : list byte :=
  concat (map chunk_bytes cs).

(** The tag is neither that of a [fmt ] chunk nor that of a [data]
    chunk. *)
Definition other_tag (c : chunk) : Prop :=
  tag_bytes c <> ("f", "m", "t", " ")%byte
  /\ tag_bytes c <> ("d", "a", "t", "a")%byte.

(** A buffer that starts with a RIFF/WAVE header, chunks [cs1], the
    bytes [fmt] of a format chunk, chunks [cs2] and the header of a
    [data] chunk, followed by [rest]. *)
Definition chunked_buffer (riff_size : Z) (cs1 : list chunk) (fmt : list byte)
    (cs2 : list chunk) (data_size : Z) (rest : list byte) : list byte :=
  riff_header riff_size ++ chunks_bytes cs1 ++ fmt ++ chunks_bytes cs2
  ++ data_header data_size ++ rest.

(** The format chunk of a [WAVE_FORMAT_EXTENSIBLE] header: the code
    0xFFFE, the usual fields, eight bytes that are passed over, the
    four-byte code of the sub-format, and the rest of the chunk. *)
Definition extensible_fmt (fmt_size ch sr br ba bps : Z) (passed : list byte)
    (sub_format : Z) (tail : list byte) : list byte :=
  fmt_chunk fmt_size 65534 ch sr br ba bps
    (passed ++ le_bytes 4 sub_format ++ tail).

(** The descriptor after such a chunk was read. *)
Definition extensible_info (i : WAVAudioInfo) (ch sr br ba bps sub_format : Z) :
    WAVAudioInfo :=
  set_is_valid true
    (set_format (to_int (to_uint32 sub_format))
       (set_bits_per_sample (to_uint16 bps)
          (set_block_align (to_uint16 ba)
             (set_byte_rate (to_int (to_uint32 br))
                (set_sample_rate (to_int (to_uint32 sr))
                   (set_channels (to_uint16 ch)
                      (set_format 65534 i))))))).

(** A [LIST] chunk of four bytes, and a complete PCM file in which it
    stands between the format chunk and the [data] chunk. *)
Definition list_chunk : chunk :=
  mkChunk ("L", "I", "S", "T")%byte ["w"; "x"; "y"; "z"]%byte.

Definition pcm_with_list : list byte :=
  chunked_buffer 52 [] (fmt_chunk 16 1 2 44100 176400 4 16 []) [list_chunk] 4
    ["a"; "b"; "c"; "d"]%byte.

(** A complete file with an extensible header whose sub-format is PCM. *)
Definition extensible_abcd : list byte :=
  riff_header 64
  ++ extensible_fmt 40 2 44100 176400 4 16
       ["022"; "000"; "020"; "000"; "003"; "000"; "000"; "000"]%byte 1
       ["000"; "000"; "000"; "000"; "020"; "000"; "200"; "000"; "000"; "252";
        "000"; "070"]%byte
  ++ data_header 4 ++ ["a"; "b"; "c"; "d"]%byte.

(** A RIFF/WAVE buffer whose format chunk declares [k] bytes. *)
Definition short_fmt_buffer (riff_size k : Z) (rest : list byte) : list byte :=
  riff_header riff_size ++ ["f"; "m"; "t"; " "]%byte ++ le_bytes 4 k ++ rest.

(** * Properties *)

(** ** Loops over the frames of a buffer *)

Section FrameLoop.
Context {T : Type}.
Variable body : nat -> list (T * T) -> option (list (T * T)).
Variable g : T * T -> T * T.
Hypothesis body_at :
  forall j src f, src !! j = Some f -> body j src = Some (<[j := g f]> src).

Lemma for_upto_frames (todo : list (T * T)) :
  forall done : list (T * T),
    for_upto (length todo) (length done) body (done ++ todo)
    = Some (done ++ map g todo).
Proof.
  induction todo as [|f todo IH]; intros done; simpl.
  - reflexivity.
  - rewrite (body_at (length done) (done ++ f :: todo) f)
      by (apply list_lookup_middle; reflexivity).
    simpl.
    replace (<[length done := g f]> (done ++ f :: todo))
      with ((done ++ [g f]) ++ todo).
    + replace (Datatypes.S (length done)) with (length (done ++ [g f]))
        by (rewrite length_app; simpl; lia).
      rewrite IH, <- app_assoc. reflexivity.
    + rewrite <- app_assoc. simpl.
      rewrite insert_app_r_alt by lia.
      replace (length done - length done)%nat with O by lia.
      reflexivity.
Qed.

Lemma for_upto_whole (src : list (T * T)) :
  for_upto (length src) 0 body src = Some (map g src).
Proof. exact (for_upto_frames src []). Qed.

Lemma for_upto_prefix (src : list (T * T)) (size : nat) :
  (size <= length src)%nat ->
  for_upto size 0 body src = Some (map g (take size src) ++ drop size src).
Proof.
  intros Hsize.
  assert (Hgen : forall todo done rest,
             for_upto (length todo) (length done) body (done ++ todo ++ rest)
             = Some (done ++ map g todo ++ rest)).
  { induction todo as [|f todo IH]; intros done rest; simpl; [reflexivity|].
    rewrite (body_at (length done) (done ++ f :: todo ++ rest) f)
      by (apply list_lookup_middle; reflexivity).
    simpl.
    replace (<[length done := g f]> (done ++ f :: todo ++ rest))
      with ((done ++ [g f]) ++ todo ++ rest).
    - replace (Datatypes.S (length done)) with (length (done ++ [g f]))
        by (rewrite length_app; simpl; lia).
      rewrite IH, <- app_assoc. reflexivity.
    - rewrite <- app_assoc. simpl.
      rewrite insert_app_r_alt by lia.
      replace (length done - length done)%nat with O by lia.
      reflexivity. }
  specialize (Hgen (take size src) [] (drop size src)).
  rewrite length_take, Nat.min_l in Hgen by lia.
  simpl in Hgen. rewrite take_drop in Hgen. exact Hgen.
Qed.

End FrameLoop.

Lemma switch_frame {T} (j : nat) (src : list (T * T)) (f : T * T) :
  src !! j = Some f ->
  ConverterSwitchLeftAndRight.convert_frame j src = Some (<[j := (fst f, fst f)]> src).
Proof.
  intros Hj. pose proof (lookup_lt_Some _ _ _ Hj) as Hlt.
  unfold ConverterSwitchLeftAndRight.convert_frame, get, set.
  rewrite Hj. simpl.
  rewrite list_lookup_insert_eq by exact Hlt. simpl.
  rewrite list_insert_insert_eq. reflexivity.
Qed.

(** C8 (the code departs from the specification).  After
    [ConverterSwitchLeftAndRight::convert] over a whole buffer, both
    samples of every frame are the original left sample: the original
    right sample is overwritten before it is read, so the channels are
    not exchanged. *)
Theorem switch_convert_copies_left {T} (src : list (T * T)) :
  ConverterSwitchLeftAndRight.convert src (length src)
  = Some (map (fun f => (fst f, fst f)) src).
Proof.
  unfold ConverterSwitchLeftAndRight.convert.
  apply for_upto_whole. intros j s f. apply switch_frame.
Qed.

Example switch_one_frame :
  ConverterSwitchLeftAndRight.convert [(1, 2)] 1 = Some [(1, 1)].
Proof. reflexivity. Qed.

(** ** Frames of a buffer, read and written in place *)

Ltac frame_simpl Hlt :=
  repeat first
    [ rewrite list_lookup_insert_eq by (rewrite ?length_insert; exact Hlt)
    | rewrite list_insert_insert_eq
    | progress cbn [mbind option_bind fst snd] ].

Ltac frame_cases Hlt :=
  frame_simpl Hlt;
  repeat match goal with
         | |- context [if ?c then _ else _] => destruct c eqn:?; frame_simpl Hlt
         end;
  try reflexivity; try congruence.

Lemma scaler_frame {T} `{Sample T} (cv : ConverterScaler.t T) (j : nat)
    (src : list (T * T)) (f : T * T) :
  src !! j = Some f ->
  ConverterScaler.convert_frame cv j src
  = Some (<[j := (ConverterScaler.scaled cv (fst f), scaler_right cv f)]> src).
Proof.
  intros Hj. pose proof (lookup_lt_Some _ _ _ Hj) as Hlt.
  destruct f as [l r].
  unfold scaler_right.
  unfold ConverterScaler.convert_frame, ConverterScaler.scaled, get, set.
  rewrite Hj.
  frame_cases Hlt.
Qed.

Lemma scaler_convert {T} `{Sample T} (cv : ConverterScaler.t T)
    (src : list (T * T)) :
  ConverterScaler.convert cv src (length src)
  = Some (map (fun f => (ConverterScaler.scaled cv (fst f), scaler_right cv f)) src).
Proof.
  unfold ConverterScaler.convert.
  apply for_upto_whole. intros j s f. apply scaler_frame.
Qed.

(** C6 (the code departs from the specification).  With [factor = 0], offset 0 and
    [maxValue = 100] on 16-bit samples, [ConverterScaler::convert] turns
    the frame (5, 7) into (0, 7): the left sample is muted, the right
    one is not, although the specified formula gives 0 for it too. *)
Theorem scaler_mute_leaves_right_channel :
  let cv := @ConverterScaler.make Z (S754_zero false) 0 100 in
  @ConverterScaler.convert Z int16_sample cv [(5, 7)] 1 = Some [(0, 7)]
  /\ @ConverterScaler.scaled Z int16_sample cv 5 = 0
  /\ @ConverterScaler.scaled Z int16_sample cv 7 = 0.
Proof. cbv zeta. repeat split; vm_compute; reflexivity. Qed.

(** With [factor = 2] the right channel is neither scaled nor clipped at
    the lower bound. *)
Example scaler_right_channel_unclipped :
  let cv := @ConverterScaler.make Z (f32_of_Z 2) 0 100 in
  @ConverterScaler.convert Z int16_sample cv [(60, 70); (-60, -200)] 2
  = Some [(100, 70); (-100, -200)].
Proof. cbv zeta. vm_compute. reflexivity. Qed.

Lemma callback_loop {A B} (f : A -> B) (src : Z -> A * A) (n : nat) :
  forall (target : Z -> B * B) (log : list CallbackConverter.access),
    snd (CallbackConverter.convert_loop f src n (target, log))
    = log ++ flat_map (fun i => [CallbackConverter.Load i; CallbackConverter.Store i;
                                 CallbackConverter.Load i; CallbackConverter.Store i])
                      (countdown n)
    /\ forall i,
        fst (CallbackConverter.convert_loop f src n (target, log)) i
        = if (1 <=? i) && (i <=? Z.of_nat n)
          then (f (fst (src i)), f (snd (src i)))
          else target i.
Proof.
  induction n as [|n IH]; intros target log.
  - split.
    + simpl. rewrite app_nil_r. reflexivity.
    + intros i. cbn [CallbackConverter.convert_loop fst].
      change (Z.of_nat 0) with 0.
      destruct (Z.leb_spec 1 i), (Z.leb_spec i 0); try reflexivity; lia.
  - cbn [CallbackConverter.convert_loop CallbackConverter.convert_frame].
    match goal with
    | |- context [CallbackConverter.convert_loop f src n (?t, ?l)] =>
        destruct (IH t l) as [IHlog IHtarget]
    end.
    split.
    + rewrite IHlog. cbn [countdown flat_map].
      rewrite <- !app_assoc. reflexivity.
    + intros i. rewrite IHtarget.
      unfold CallbackConverter.write_at.
      rewrite Z.eqb_refl.
      destruct (Z.leb_spec 1 i), (Z.leb_spec i (Z.of_nat n)),
               (Z.leb_spec i (Z.of_nat (S n))), (Z.eqb_spec i (Z.of_nat (S n)));
        cbn [andb fst snd]; try reflexivity; try lia.
      subst i. reflexivity.
Qed.

Lemma countdown_In (n : nat) (i : Z) : In i (countdown n) <-> 1 <= i <= Z.of_nat n.
Proof.
  induction n as [|n IH]; cbn [countdown In].
  - lia.
  - rewrite IH. lia.
Qed.

(** C10 (as amended).  For a frame count between 1 and [INT_MAX],
    [CallbackConverter::convert] reads [src[i]] and writes [target[i]]
    for [i = size, size - 1, ..., 1] and for no other index: frame 0 of
    the target is never written, and index [size], one past the last
    frame of a buffer of [size] frames, is both read and written. *)
Theorem callback_convert_indices {A B} (f : A -> B) (src : Z -> A * A)
    (target : Z -> B * B) (size : Z) :
  0 < size <= 2147483647 ->
  let result := CallbackConverter.convert f src target size in
  snd result
  = flat_map (fun i => [CallbackConverter.Load i; CallbackConverter.Store i;
                        CallbackConverter.Load i; CallbackConverter.Store i])
             (countdown (Z.to_nat size))
  /\ (forall i, 1 <= i <= size -> fst result i = (f (fst (src i)), f (snd (src i))))
  /\ (forall i, i < 1 \/ size < i -> fst result i = target i)
  /\ In (CallbackConverter.Load size) (snd result)
  /\ In (CallbackConverter.Store size) (snd result)
  /\ ~ In (CallbackConverter.Store 0) (snd result).
Proof.
  intros Hsize result. subst result. unfold CallbackConverter.convert.
  assert (Hint : to_int size = size).
  { unfold to_int, wrap_signed. change (2 ^ (32 - 1)) with 2147483648.
    change (2 ^ 32) with 4294967296. rewrite Z.mod_small; lia. }
  rewrite Hint.
  destruct (callback_loop f src (Z.to_nat size) target []) as [Hlog Htarget].
  rewrite Hlog. cbn [app].
  split; [reflexivity|].
  split; [|split; [|split; [|split]]].
  - intros i Hi. rewrite Htarget.
    destruct (Z.leb_spec 1 i), (Z.leb_spec i (Z.of_nat (Z.to_nat size)));
      cbn [andb]; try reflexivity; lia.
  - intros i Hi. rewrite Htarget.
    destruct (Z.leb_spec 1 i), (Z.leb_spec i (Z.of_nat (Z.to_nat size)));
      cbn [andb]; try reflexivity; lia.
  - apply in_flat_map. exists size. split; [apply countdown_In; lia|].
    simpl. auto.
  - apply in_flat_map. exists size. split; [apply countdown_In; lia|].
    simpl. auto.
  - intros Hin. apply in_flat_map in Hin. destruct Hin as [i [Hi Hin]].
    apply countdown_In in Hi. simpl in Hin.
    repeat (destruct Hin as [Hin|Hin]; [inversion Hin; lia|]). exact Hin.
Qed.
Lemma callback_convert_indices_witness :
  let result := CallbackConverter.convert (fun x => x + 100)
                  (fun i => (i, i)) (fun _ => (0, 0)) 3 in
  fst result 0 = (0, 0) /\ fst result 3 = (103, 103)
  /\ In (CallbackConverter.Store 3) (snd result).
Proof.
  pose proof (callback_convert_indices (fun x => x + 100) (fun i => (i, i))
                (fun _ => (0, 0)) 3 ltac:(lia)) as H.
  cbv zeta in H. destruct H as [_ [Hin [Hout [_ [Hstore _]]]]].
  split; [exact (Hout 0 ltac:(lia))|].
  split; [exact (Hin 3 ltac:(lia))|exact Hstore].
Defined.

(** C10, against the claim as stated.  A frame count of 2^31 is greater
    than 0, but [int i = size] makes it -2^31: the loop does not run,
    nothing is read or written, and index [size] of the target keeps
    what it held. *)
Lemma callback_convert_skips_large_count :
  let size := 2147483648 in
  let result := CallbackConverter.convert (fun x : Z => x + 100)
                  (fun i => (i, i)) (fun _ => (0, 0)) size in
  0 < size
  /\ snd result = []
  /\ ~ In (CallbackConverter.Load size) (snd result)
  /\ ~ In (CallbackConverter.Store size) (snd result)
  /\ fst result size = (0, 0).
Proof.
  cbv zeta.
  assert (Hlog : snd (CallbackConverter.convert (fun x : Z => x + 100)
                        (fun i => (i, i)) (fun _ => (0, 0)) 2147483648) = [])
    by (vm_compute; reflexivity).
  rewrite Hlog.
  split; [lia|]. split; [reflexivity|].
  split; [intros []|]. split; [intros []|].
  vm_compute. reflexivity.
Qed.

(** ** [ConverterAutoCenter] *)

Lemma accumulate_at {T} `{Sample T} (j : nat) (src : list (T * T)) (f : T * T)
    (off : T) (l r : spec_float) (b : bool) :
  src !! j = Some f ->
  ConverterAutoCenter.accumulate j (ConverterAutoCenter.mk off l r b, src)
  = Some (ConverterAutoCenter.mk off
            (num_float (num_add (Flt l) (load (fst f))))
            (num_float (num_add (Flt r) (load (snd f)))) b,
          src).
Proof.
  intros Hj. unfold ConverterAutoCenter.accumulate, get.
  rewrite Hj. reflexivity.
Qed.

Lemma autocenter_accumulate {T} `{Sample T} (todo : list (T * T)) :
  forall (done : list (T * T)) (off : T) (l r : spec_float) (b : bool),
    for_upto (length todo) (length done) ConverterAutoCenter.accumulate
      (ConverterAutoCenter.mk off l r b, done ++ todo)
    = Some (ConverterAutoCenter.mk off (fst (autocenter_sums l r todo))
              (snd (autocenter_sums l r todo)) b,
            done ++ todo).
Proof.
  induction todo as [|f todo IH]; intros done off l r b.
  - reflexivity.
  - cbn [length for_upto].
    rewrite (accumulate_at (length done) (done ++ f :: todo) f)
      by (apply list_lookup_middle; reflexivity).
    cbn [mbind option_bind].
    replace (done ++ f :: todo) with ((done ++ [f]) ++ todo)
      by (rewrite <- app_assoc; reflexivity).
    replace (S (length done)) with (length (done ++ [f]))
      by (rewrite length_app; simpl; lia).
    rewrite IH. reflexivity.
Qed.

Lemma autocenter_setup {T} `{Sample T} (cv : ConverterAutoCenter.t T)
    (src : list (T * T)) :
  ConverterAutoCenter.setup cv src (length src) = Some (calibrate cv src).
Proof.
  unfold ConverterAutoCenter.setup, calibrate.
  destruct cv as [off l r b]. cbn [ConverterAutoCenter.is_setup].
  destruct b; cbn [negb]; [reflexivity|].
  rewrite (autocenter_accumulate src [] off l r false).
  cbn [mbind option_bind fst snd ConverterAutoCenter.offset
       ConverterAutoCenter.left ConverterAutoCenter.right
       ConverterAutoCenter.is_setup].
  repeat match goal with
         | |- context [if ?c then _ else _] => destruct c
         end; reflexivity.
Qed.

Lemma center_frame_at {T} `{Sample T} (cv : ConverterAutoCenter.t T) (j : nat)
    (src : list (T * T)) (f : T * T) :
  src !! j = Some f ->
  ConverterAutoCenter.center_frame cv j src
  = Some (<[j := (store (num_sub (load (fst f)) (load (ConverterAutoCenter.offset cv))),
                  store (num_sub (load (snd f)) (load (ConverterAutoCenter.offset cv))))]>
            src).
Proof.
  intros Hj. pose proof (lookup_lt_Some _ _ _ Hj) as Hlt.
  destruct f as [l r].
  unfold ConverterAutoCenter.center_frame, get, set.
  rewrite Hj.
  frame_cases Hlt.
Qed.

Lemma autocenter_convert {T} `{Sample T} (cv : ConverterAutoCenter.t T)
    (src : list (T * T)) :
  ConverterAutoCenter.convert cv src (length src)
  = Some (calibrate cv src,
          if ConverterAutoCenter.is_setup (calibrate cv src)
          then centered (ConverterAutoCenter.offset (calibrate cv src)) src
          else src).
Proof.
  unfold ConverterAutoCenter.convert.
  rewrite autocenter_setup. cbn [mbind option_bind].
  destruct (ConverterAutoCenter.is_setup (calibrate cv src)); [|reflexivity].
  rewrite (for_upto_whole _ _ (center_frame_at (calibrate cv src))).
  reflexivity.
Qed.

Lemma calibrate_fixed {T} `{Sample T} (cv : ConverterAutoCenter.t T)
    (src : list (T * T)) :
  ConverterAutoCenter.is_setup cv = true -> calibrate cv src = cv.
Proof. intros Hs. unfold calibrate. rewrite Hs. reflexivity. Qed.

(** C7 (as amended).  A call of [ConverterAutoCenter::convert] leaves the
    calibration [calibrate] describes: while no call has found a
    positive mean the accumulated means are computed again, the first
    positive one becomes the offset, and it is subtracted from every
    sample of both channels on that call.  Once the converter is
    calibrated, a further call changes nothing in it and subtracts the
    same offset. *)
Theorem autocenter_one_shot {T} `{Sample T} (cv : ConverterAutoCenter.t T)
    (src1 src2 : list (T * T)) :
  let cv1 := calibrate cv src1 in
  ConverterAutoCenter.convert cv src1 (length src1)
  = Some (cv1, if ConverterAutoCenter.is_setup cv1
               then centered (ConverterAutoCenter.offset cv1) src1 else src1)
  /\ (ConverterAutoCenter.is_setup cv1 = true ->
      ConverterAutoCenter.convert cv1 src2 (length src2)
      = Some (cv1, centered (ConverterAutoCenter.offset cv1) src2)).
Proof.
  intros cv1. split.
  - apply autocenter_convert.
  - intros Hs. rewrite autocenter_convert.
    rewrite (calibrate_fixed cv1 src2 Hs), Hs. reflexivity.
Qed.

Lemma autocenter_one_shot_witness :
  let cv := @ConverterAutoCenter.make Z 0 (S754_zero false) (S754_zero false) in
  let cv1 := @calibrate Z int16_sample cv [(4, 4); (6, 8)] in
  @ConverterAutoCenter.is_setup Z cv1 = true
  /\ @ConverterAutoCenter.convert Z int16_sample cv1 [(10, 20)] 1
     = Some (cv1, [(5, 15)]).
Proof.
  split; [reflexivity|].
  exact (proj2 (@autocenter_one_shot Z int16_sample
                  (@ConverterAutoCenter.make Z 0 (S754_zero false) (S754_zero false))
                  [(4, 4); (6, 8)] [(10, 20)]) eq_refl).
Defined.

Lemma autocenter_calibrates_late :
  let cv0 := @ConverterAutoCenter.make Z 0 (S754_zero false) (S754_zero false) in
  exists cv1 cv2 : ConverterAutoCenter.t Z,
    @ConverterAutoCenter.convert Z int16_sample cv0 [(0, 0); (0, 0)] 2
    = Some (cv1, [(0, 0); (0, 0)])
    /\ @ConverterAutoCenter.convert Z int16_sample cv1 [(4, 4); (6, 8)] 2
       = Some (cv2, [(-1, -1); (1, 3)])
    /\ ConverterAutoCenter.is_setup cv1 = false
    /\ ConverterAutoCenter.is_setup cv2 = true
    /\ ConverterAutoCenter.offset cv2 = 5.
Proof.
  cbv zeta.
  eexists. eexists.
  split; [vm_compute; reflexivity|].
  split; [vm_compute; reflexivity|].
  repeat split.
Qed.

(** ** Integer conversions that change nothing *)

Lemma to_size_t_small (p : platform) (z : Z) :
  0 <= z < 4294967296 -> to_size_t p z = z.
Proof.
  intros Hz. unfold to_size_t, wrap_unsigned.
  destruct p; cbn [long_bits];
    [change (2 ^ 32) with 4294967296 | change (2 ^ 64) with 18446744073709551616];
    apply Z.mod_small; lia.
Qed.

Lemma to_long_small (p : platform) (z : Z) :
  0 <= z < 2147483648 -> to_long p z = z.
Proof.
  intros Hz. unfold to_long, wrap_signed.
  destruct p; cbn [long_bits].
  - change (2 ^ (32 - 1)) with 2147483648. change (2 ^ 32) with 4294967296.
    rewrite Z.mod_small; lia.
  - change (2 ^ (64 - 1)) with 9223372036854775808.
    change (2 ^ 64) with 18446744073709551616.
    rewrite Z.mod_small; lia.
Qed.

Lemma to_int_small (z : Z) : - 2147483648 <= z < 2147483648 -> to_int z = z.
Proof.
  intros Hz. unfold to_int, wrap_signed.
  change (2 ^ (32 - 1)) with 2147483648. change (2 ^ 32) with 4294967296.
  rewrite Z.mod_small; lia.
Qed.

Lemma to_int32_small (z : Z) : - 2147483648 <= z < 2147483648 -> to_int32 z = z.
Proof. exact (to_int_small z). Qed.

Lemma to_int64_small (z : Z) : - 2147483648 <= z < 2147483648 -> to_int64 z = z.
Proof.
  intros Hz. unfold to_int64, wrap_signed.
  change (2 ^ (64 - 1)) with 9223372036854775808.
  change (2 ^ 64) with 18446744073709551616.
  rewrite Z.mod_small; lia.
Qed.

Lemma to_uint32_small (z : Z) : 0 <= z < 4294967296 -> to_uint32 z = z.
Proof.
  intros Hz. unfold to_uint32, wrap_unsigned.
  change (2 ^ 32) with 4294967296. apply Z.mod_small; lia.
Qed.

(** ** The encoder in bounded mode *)

Lemma Print_write_all (s : Print) (data : list byte) (n : Z) :
  (forall m, accepts s m = m) -> 0 <= n ->
  Print_write data n s
  = (n, mkPrint (taken s ++ firstn (Z.to_nat n) data) (flushes s) (accepts s)).
Proof.
  intros Hall Hn. unfold Print_write. rewrite Hall.
  replace (Z.max 0 (Z.min n n)) with n by lia. reflexivity.
Qed.

Lemma send_all (s : Print) (data : list byte) :
  (forall m, accepts s m = m) ->
  WAVEncoder.send data s = mkPrint (taken s ++ data) (flushes s) (accepts s).
Proof.
  intros Hall. unfold WAVEncoder.send.
  rewrite Print_write_all by (auto; lia). cbn [snd].
  rewrite Nat2Z.id, firstn_all. reflexivity.
Qed.

Lemma header_writers_all (ai : WAVAudioInfo) (s : Print) :
  (forall m, accepts s m = m) ->
  let r := WAVEncoder.writeDataHeader ai
             (WAVEncoder.writeFMT ai (WAVEncoder.writeRiffHeader ai s)) in
  fst r = set_file_size (to_uint32 (file_size ai - 44)) ai
  /\ taken (snd r) = taken s ++ encoded_header ai
  /\ flushes (snd r) = flushes s
  /\ accepts (snd r) = accepts s.
Proof.
  intros Hall.
  unfold encoded_header, WAVEncoder.writeDataHeader, WAVEncoder.writeFMT,
    WAVEncoder.writeRiffHeader, WAVEncoder.write32, WAVEncoder.write16.
  repeat (rewrite send_all by (cbn [accepts]; first [exact Hall | reflexivity]);
          cbn [taken flushes accepts]).
  cbn [fst snd taken flushes accepts].
  repeat split. rewrite <- !app_assoc. reflexivity.
Qed.
Lemma encoder_write_closed (p : platform) (b : list byte) (e : WAVEncoder.t) :
  WAVEncoder.is_open e = false -> WAVEncoder.write p b e = (Returned 0, e).
Proof. intros Hc. unfold WAVEncoder.write. rewrite Hc. reflexivity. Qed.

Lemma encoder_writes_closed (p : platform) (bufs : list (list byte))
    (e : WAVEncoder.t) :
  WAVEncoder.is_open e = false ->
  WAVEncoder.writes p bufs e = (map (fun _ => Returned 0) bufs, e).
Proof.
  intros Hc. induction bufs as [|b bufs IH]; cbn [WAVEncoder.writes map].
  - reflexivity.
  - rewrite (encoder_write_closed p b e Hc), IH. reflexivity.
Qed.

Lemma encoder_write_open (p : platform) (d k : Z) (b : list byte)
    (e : WAVEncoder.t) :
  bounded_session d k e -> 0 <= k < d -> d < 2147418112 ->
  let m := Z.min (Z.of_nat (length b)) (d - k) in
  let r := WAVEncoder.write p b e in
  fst r = Returned m
  /\ bounded_session d (k + m) (snd r)
  /\ WAVEncoder.header_written (snd r) = true
  /\ WAVEncoder.sink_bytes (snd r)
     = WAVEncoder.sink_bytes e
       ++ (if WAVEncoder.header_written e then []
           else encoded_header (WAVEncoder.audioInfo e))
       ++ firstn (Z.to_nat m) b.
Proof.
  intros [[s [Hs Hall]] [Hmode [Hlimit Hopen]]] Hk Hd m r.
  subst r. unfold WAVEncoder.write, WAVEncoder.sink_bytes.
  rewrite Hopen, Hs, Hlimit.
  replace (k <? d) with true by (symmetry; apply Z.ltb_lt; lia).
  cbn [negb].
  destruct (header_writers_all (WAVEncoder.audioInfo e) s Hall)
    as [Hai [Htaken [Hflushes Haccepts]]].
  destruct (WAVEncoder.writeDataHeader (WAVEncoder.audioInfo e)
              (WAVEncoder.writeFMT (WAVEncoder.audioInfo e)
                 (WAVEncoder.writeRiffHeader (WAVEncoder.audioInfo e) s)))
    as [ai' s'] eqn:Ehdr.
  cbn [fst snd] in Hai, Htaken, Hflushes, Haccepts.
  assert (Hlt : (0 <? d - k) = true) by (apply Z.ltb_lt; lia).
  destruct (WAVEncoder.header_written e) eqn:Ehw; cbn [negb].
  - rewrite Hmode, Hlt.
    rewrite (to_size_t_small p (d - k)) by lia. fold m.
    rewrite Print_write_all by (auto; lia).
    rewrite (to_int32_small m), (to_int64_small (d - k - m)),
      (to_size_t_small p m) by lia.
    unfold bounded_session.
    destruct (Z.leb_spec (d - k - m) 0) as [Hz|Hz];
      cbn [fst snd WAVEncoder.stream_ptr WAVEncoder.audioInfo
           WAVEncoder.size_limit WAVEncoder.is_open WAVEncoder.header_written
           Print_flush taken accepts app].
    all: repeat split;
      first [ reflexivity | lia | exact Hmode
            | eexists; split; [reflexivity | exact Hall]
            | symmetry; apply Z.ltb_ge; lia
            | symmetry; apply Z.ltb_lt; lia ].
  - assert (Hmode' : is_streamed ai' = false) by (rewrite Hai; exact Hmode).
    assert (Hall' : forall n, accepts s' n = n)
      by (intros n; rewrite Haccepts; apply Hall).
    rewrite Hmode', Hlt.
    rewrite (to_size_t_small p (d - k)) by lia. fold m.
    rewrite Print_write_all by (auto; lia).
    rewrite (to_int32_small m), (to_int64_small (d - k - m)),
      (to_size_t_small p m) by lia.
    unfold bounded_session.
    destruct (Z.leb_spec (d - k - m) 0) as [Hz|Hz];
      cbn [fst snd WAVEncoder.stream_ptr WAVEncoder.audioInfo
           WAVEncoder.size_limit WAVEncoder.is_open WAVEncoder.header_written
           Print_flush taken accepts].
    all: rewrite ?Htaken, <- ?app_assoc.
    all: repeat split;
      first [ reflexivity | lia | exact Hmode'
            | eexists; split; [reflexivity | exact Hall']
            | symmetry; apply Z.ltb_ge; lia
            | symmetry; apply Z.ltb_lt; lia ].
Qed.
Lemma encoder_writes_bounded (p : platform) (d : Z) (bufs : list (list byte)) :
  d < 2147418112 ->
  forall (k : Z) (e : WAVEncoder.t),
    bounded_session d k e -> 0 <= k <= d ->
    WAVEncoder.header_written e = true ->
    let r := WAVEncoder.writes p bufs e in
    bounded_session d (Z.min d (k + total bufs)) (snd r)
    /\ WAVEncoder.sink_bytes (snd r)
       = WAVEncoder.sink_bytes e ++ firstn (Z.to_nat (d - k)) (concat bufs).
Proof.
  intros Hd. unfold total.
  induction bufs as [|b bufs IH]; intros k e Hb Hk Hw; cbn [WAVEncoder.writes].
  - cbn [concat length snd firstn]. rewrite firstn_nil, app_nil_r.
    replace (Z.min d (k + Z.of_nat 0)) with k by lia. split; [exact Hb|reflexivity].
  - destruct (Z.eq_dec k d) as [Hfull|Hroom].
    + assert (Hclosed : WAVEncoder.is_open e = false).
      { destruct Hb as [_ [_ [_ Ho]]]. rewrite Ho. apply Z.ltb_ge. lia. }
      rewrite (encoder_write_closed p b e Hclosed). cbv beta iota.
      rewrite (encoder_writes_closed p bufs e Hclosed). cbn [snd].
      replace (Z.to_nat (d - k)) with O by lia. cbn [firstn].
      rewrite app_nil_r.
      replace (Z.min d (k + Z.of_nat (length (concat (b :: bufs))))) with k by lia.
      split; [exact Hb|reflexivity].
    + destruct (encoder_write_open p d k b e Hb ltac:(lia) Hd)
        as [Hres [Hb' [Hw' Hsink]]].
      destruct (WAVEncoder.write p b e) as [res e'] eqn:Ewrite.
      cbn [fst snd] in Hres, Hb', Hw', Hsink. subst res.
      set (m := Z.min (Z.of_nat (length b)) (d - k)) in *.
      specialize (IH (k + m) e' Hb' ltac:(lia) Hw').
      destruct (WAVEncoder.writes p bufs e') as [rs e''] eqn:Erest.
      cbn [snd] in IH |- *. destruct IH as [IHb IHsink].
      split.
      * replace (Z.min d (k + Z.of_nat (length (concat (b :: bufs)))))
          with (Z.min d (k + m + Z.of_nat (length (concat bufs)))); [exact IHb|].
        cbn [concat]. rewrite length_app. lia.
      * rewrite IHsink, Hsink, Hw. cbn [app concat].
        rewrite <- !app_assoc. f_equal.
        rewrite firstn_app. f_equal.
        -- destruct (Z.le_ge_cases (Z.of_nat (length b)) (d - k)) as [Hfit|Hcut].
           ++ rewrite !firstn_all2 by lia. reflexivity.
           ++ f_equal. lia.
        -- f_equal. lia.
  Qed.

Lemma begin_bounded (ai : WAVAudioInfo) (e0 : WAVEncoder.t) (s : Print) (d : Z) :
  WAVEncoder.stream_ptr e0 = Some s -> (forall n, accepts s n = n) ->
  is_streamed ai = false -> data_length ai = d -> 0 < d < 2147418112 ->
  let e := WAVEncoder.begin ai e0 in
  bounded_session d 0 e
  /\ WAVEncoder.header_written e = false
  /\ WAVEncoder.sink_bytes e = taken s
  /\ encoded_header (WAVEncoder.audioInfo e) = encoded_header ai.
Proof.
  intros Hs Hall Hmode Hlen Hd.
  unfold WAVEncoder.begin, WAVEncoder.sink_bytes, bounded_session.
  cbn [is_streamed data_length set_byte_rate set_block_align].
  rewrite Hmode, Hlen.
  replace (d =? 0) with false by (symmetry; apply Z.eqb_neq; lia).
  replace (2147418112 <=? d) with false by (symmetry; apply Z.leb_gt; lia).
  cbn [orb WAVEncoder.stream_ptr WAVEncoder.audioInfo WAVEncoder.size_limit
       WAVEncoder.is_open WAVEncoder.header_written is_streamed data_length].
  rewrite ?Hs, ?Hmode, ?Hlen.
  repeat split; try reflexivity.
  - exists s. split; [reflexivity|exact Hall].
  - exact Hmode.
  - lia.
  - symmetry. apply Z.ltb_lt. lia.
Qed.

(** C3 (as amended).  A session begun in bounded mode with
    [0 < d < 0x7fff0000] on a sink that takes everything, given writes
    of more than [d] bytes in total: the sink holds the header followed
    by exactly the first [d] payload bytes; after every prefix of the
    writes the session is open exactly while budget is left, and at the
    end it is closed with budget 0; every write of any later run
    returns 0 and leaves the encoder and its sink as they are. *)
Theorem encoder_bounded_run (p : platform) (ai : WAVAudioInfo) (e0 : WAVEncoder.t)
    (s : Print) (d : Z) (bufs : list (list byte)) :
  WAVEncoder.stream_ptr e0 = Some s -> (forall n, accepts s n = n) ->
  is_streamed ai = false -> data_length ai = d -> 0 < d < 2147418112 ->
  d < total bufs ->
  let e := snd (WAVEncoder.writes p bufs (WAVEncoder.begin ai e0)) in
  WAVEncoder.sink_bytes e
  = taken s ++ encoded_header ai ++ firstn (Z.to_nat d) (concat bufs)
  /\ WAVEncoder.is_open e = false
  /\ WAVEncoder.size_limit e = 0
  /\ (forall more,
      WAVEncoder.writes p more e = (map (fun _ => Returned 0) more, e))
  /\ (forall done rest, bufs = done ++ rest ->
      let e1 := snd (WAVEncoder.writes p done (WAVEncoder.begin ai e0)) in
      WAVEncoder.is_open e1 = (0 <? WAVEncoder.size_limit e1)
      /\ WAVEncoder.size_limit e1 = d - Z.min d (total done)).
Proof.
  intros Hs Hall Hmode Hlen Hd Htotal.
  destruct (begin_bounded ai e0 s d Hs Hall Hmode Hlen Hd)
    as [Hb0 [Hw0 [Hsink0 Hhdr0]]].
  set (e_begin := WAVEncoder.begin ai e0) in *.
  assert (Hrun : forall bs,
             let e1 := snd (WAVEncoder.writes p bs e_begin) in
             bounded_session d (Z.min d (total bs)) e1
             /\ (bs <> [] ->
                 WAVEncoder.sink_bytes e1
                 = taken s ++ encoded_header ai ++ firstn (Z.to_nat d) (concat bs))).
  { intros [|b bs]; cbn [WAVEncoder.writes snd].
    - unfold total. cbn [concat length]. replace (Z.min d (Z.of_nat 0)) with 0 by lia.
      split; [exact Hb0|congruence].
    - destruct (encoder_write_open p d 0 b e_begin Hb0 ltac:(lia) ltac:(lia))
        as [Hres [Hb' [Hw' Hsink]]].
      destruct (WAVEncoder.write p b e_begin) as [res e'] eqn:Ewrite.
      cbn [fst snd] in Hres, Hb', Hw', Hsink. subst res.
      set (m := Z.min (Z.of_nat (length b)) (d - 0)) in *.
      destruct (encoder_writes_bounded p d bs ltac:(lia) (0 + m) e' Hb'
                  ltac:(lia) Hw') as [Hbs Hsinks].
      destruct (WAVEncoder.writes p bs e') as [rs e''] eqn:Erest.
      cbn [snd] in Hbs, Hsinks |- *.
      split.
      + replace (Z.min d (total (b :: bs))) with (Z.min d (0 + m + total bs));
          [exact Hbs|].
        unfold total. cbn [concat]. rewrite length_app. lia.
      + intros _. rewrite Hsinks, Hsink, Hw0, Hsink0, Hhdr0.
        cbn [concat]. rewrite <- !app_assoc. do 2 f_equal.
        rewrite firstn_app. f_equal.
        * destruct (Z.le_ge_cases (Z.of_nat (length b)) d) as [Hfit|Hcut].
          -- rewrite !firstn_all2 by lia. reflexivity.
          -- f_equal. lia.
        * f_equal. lia. }
  intros e.
  destruct (Hrun bufs) as [[_ [_ [Hlimit Hopen]]] Hsink].
  fold e in Hlimit, Hopen, Hsink.
  assert (Hne : bufs <> []).
  { intros ->. unfold total in Htotal. cbn in Htotal. lia. }
  assert (Hclosed : WAVEncoder.is_open e = false).
  { rewrite Hopen. apply Z.ltb_ge. lia. }
  split; [exact (Hsink Hne)|].
  split; [exact Hclosed|].
  split; [rewrite Hlimit; lia|].
  split; [intros more; apply encoder_writes_closed; exact Hclosed|].
  intros done rest _ e1. subst e1.
  destruct (Hrun done) as [[_ [_ [Hlimit1 Hopen1]]] _].
  rewrite Hopen1, Hlimit1. split; [|reflexivity].
  destruct (Z.ltb_spec (Z.min d (total done)) d),
           (Z.ltb_spec 0 (d - Z.min d (total done))); try reflexivity; lia.
Qed.

Lemma encoder_bounded_run_witness :
  let e := snd (WAVEncoder.writes ILP32 [["a"; "b"]; ["c"; "d"]]%byte
                  three_byte_session) in
  WAVEncoder.sink_bytes e
  = encoded_header three_byte_info ++ ["a"; "b"; "c"]%byte
  /\ WAVEncoder.is_open e = false.
Proof.
  pose proof (encoder_bounded_run ILP32 three_byte_info
                (WAVEncoder.make_with unbounded_sink three_byte_info 0 false)
                unbounded_sink 3 [["a"; "b"]; ["c"; "d"]]%byte
                eq_refl (fun n => eq_refl) eq_refl eq_refl
                ltac:(lia) ltac:(reflexivity)) as H.
  cbv zeta in H. destruct H as [Hsink [Hclosed _]].
  split; [exact Hsink|exact Hclosed].
Defined.

(** C3, against the claim as stated.  On a sink that takes four bytes
    of a call, one write of eight bytes to a session with a budget of
    six: the writes total more than the budget, yet four payload bytes
    reach the sink, not six, and the session is still open.  [write]
    charges the budget with the count the sink returns. *)
Lemma encoder_sink_takes_less_than_budget :
  budget_not_reached ILP32 /\ budget_not_reached LP64.
Proof.
  split; unfold budget_not_reached; cbv zeta;
    (split; [vm_compute; split; reflexivity|]);
    repeat (split; [vm_compute; reflexivity|]);
    vm_compute; reflexivity.
Qed.


(** ** The decoder *)

(** Once the first buffer was taken and rejected, nothing is forwarded. *)
Lemma decoder_rejected (p : platform) (fuel : nat) (bufs : list (list byte)) :
  forall d : WAVDecoder.t,
    WAVDecoder.active d = true -> WAVDecoder.isFirst d = false ->
    WAVDecoder.isValid d = false ->
    WAVDecoder.writes p fuel bufs d = Some (repeat 0 (length bufs), d).
Proof.
  induction bufs as [|b bufs IH]; intros d Ha Hf Hv; cbn [WAVDecoder.writes].
  - reflexivity.
  - unfold WAVDecoder.write. rewrite Ha, Hf, Hv.
    rewrite (IH d Ha Hf Hv). reflexivity.
Qed.

(** Once the first buffer was taken and accepted, every buffer goes to
    the sink as it is. *)
Lemma decoder_forwarding (p : platform) (fuel : nat) (bufs : list (list byte)) :
  forall d : WAVDecoder.t,
    WAVDecoder.active d = true -> WAVDecoder.isFirst d = false ->
    WAVDecoder.isValid d = true ->
    exists d', WAVDecoder.writes p fuel bufs d
               = Some (fst (forward_all bufs (WAVDecoder.out d)), d')
               /\ WAVDecoder.out d' = snd (forward_all bufs (WAVDecoder.out d)).
Proof.
  induction bufs as [|b bufs IH]; intros d Ha Hf Hv;
    cbn [WAVDecoder.writes forward_all].
  - exists d. split; reflexivity.
  - unfold WAVDecoder.write. rewrite Ha, Hf, Hv.
    destruct (Print_write b (Z.of_nat (length b)) (WAVDecoder.out d)) as [n o] eqn:Ew.
    match goal with
    | |- context [WAVDecoder.writes p fuel bufs ?d1] =>
        destruct (IH d1 eq_refl eq_refl eq_refl) as [d' [Hrun Hout]]
    end.
    rewrite Hrun. cbn [WAVDecoder.out] in Hout |- *.
    destruct (forward_all bufs o) as [ns o'] eqn:Efw.
    exists d'. split; [reflexivity|exact Hout].
Qed.


(** C5 (as amended).  Without a listener a first write whose scan ends
    returns 0 and leaves the sink untouched; when that scan found a
    [data] chunk and the PCM format code, every later buffer is handed
    to the sink as it is and the sink's count is returned. *)
Theorem decoder_without_listener (p : platform) (fuel : nat) (o : Print)
    (a : bool) (buf : list byte) (h' : WAVHeader.t) :
  let d0 := WAVDecoder.begin (WAVDecoder.make o a) in
  WAVHeader.begin p fuel buf (WAVDecoder.header d0) = (true, h') ->
  exists d1,
    WAVDecoder.write p fuel buf d0 = Some (0, d1)
    /\ WAVDecoder.out d1 = o
    /\ (0 < WAVHeader.sound_pos h' ->
        format (WAVHeader.headerInfo h') = WAV_FORMAT_PCM ->
        forall fuel' bufs, exists d2,
          WAVDecoder.writes p fuel' bufs d1 = Some (fst (forward_all bufs o), d2)
          /\ WAVDecoder.out d2 = snd (forward_all bufs o)).
Proof.
  intros d0 Hscan. subst d0.
  unfold WAVDecoder.write, WAVDecoder.begin, WAVDecoder.make in *.
  cbn [WAVDecoder.active WAVDecoder.isFirst WAVDecoder.header WAVDecoder.out
       WAVDecoder.audioBaseInfoSupport WAVDecoder.isValid] in *.
  rewrite Hscan. cbn [negb].
  unfold WAVHeader.soundData.
  destruct (Z.ltb_spec 0 (WAVHeader.sound_pos h')) as [Hpos|Hpos].
  - cbn [WAVHeader.headerInfo].
    destruct (Z.eqb_spec (format (WAVHeader.headerInfo h')) WAV_FORMAT_PCM)
      as [Hfmt|Hfmt]; cbn [negb].
    + eexists. split; [reflexivity|]. split; [reflexivity|].
      intros _ _ fuel' bufs.
      match goal with
      | |- context [WAVDecoder.writes p fuel' bufs ?d1] =>
          destruct (decoder_forwarding p fuel' bufs d1 eq_refl eq_refl eq_refl)
            as [d2 [Hrun Hout]]
      end.
      exists d2. split; [exact Hrun|exact Hout].
    + eexists. split; [reflexivity|]. split; [reflexivity|].
      intros _ Heq. contradiction.
  - eexists. split; [reflexivity|]. split; [reflexivity|].
    intros Hlt. lia.
Qed.


Lemma decoder_without_listener_forwards :
  forwards_without_listener ILP32 /\ forwards_without_listener LP64.
Proof.
  split; unfold forwards_without_listener; eexists;
    (split; [vm_compute; reflexivity|]); reflexivity.
Qed.


Lemma decoder_without_listener_witness :
  exists h' d1 d2,
    WAVHeader.begin ILP32 10 pcm_header_abcd WAVHeader.fresh = (true, h')
    /\ WAVDecoder.write ILP32 10 pcm_header_abcd
         (WAVDecoder.begin (WAVDecoder.make unbounded_sink false))
       = Some (0, d1)
    /\ WAVDecoder.out d1 = unbounded_sink
    /\ WAVDecoder.writes ILP32 10 [["x"; "y"]%byte] d1 = Some ([2], d2)
    /\ taken (WAVDecoder.out d2) = ["x"; "y"]%byte.
Proof.
  eexists.
  assert (Hscan : WAVHeader.begin ILP32 10 pcm_header_abcd WAVHeader.fresh
                  = (true, snd (WAVHeader.begin ILP32 10 pcm_header_abcd
                                  WAVHeader.fresh)))
    by (vm_compute; reflexivity).
  destruct (decoder_without_listener ILP32 10 unbounded_sink false
              pcm_header_abcd _ Hscan) as [d1 [Hw [Ho Hlater]]].
  destruct (Hlater ltac:(vm_compute; reflexivity) ltac:(vm_compute; reflexivity)
              10%nat [["x"; "y"]%byte]) as [d2 [Hws Ho2]].
  exists d1, d2. split; [exact Hscan|]. split; [exact Hw|]. split; [exact Ho|].
  split; [exact Hws|]. rewrite Ho2. reflexivity.
Defined.

(** ** Bytes and little-endian fields *)

Lemma byte_val_range (b : byte) : 0 <= byte_val b < 256.
Proof.
  unfold byte_val. pose proof (Byte.to_N_bounded b) as Hb.
  split; [apply N2Z.is_nonneg|].
  change 256 with (Z.of_N 256). apply N2Z.inj_lt. lia.
Qed.

Lemma byte_val_of_Z (z : Z) : byte_val (byte_of_Z z) = z mod 256.
Proof.
  unfold byte_val, byte_of_Z.
  pose proof (Z.mod_pos_bound z 256 ltac:(lia)) as Hm.
  destruct (Byte.of_N (Z.to_N (z mod 256))) as [b|] eqn:E.
  - apply Byte.to_of_N in E. rewrite E. apply Z2N.id. lia.
  - apply Byte.of_N_None_iff in E. lia.
Qed.

Lemma lor_disjoint (a c k : Z) :
  0 <= k -> 0 <= a < 2 ^ k -> Z.lor a (c * 2 ^ k) = a + c * 2 ^ k.
Proof.
  intros Hk Ha.
  assert (Hland : Z.land a (c * 2 ^ k) = 0).
  { apply Z.bits_inj'. intros n Hn.
    rewrite Z.land_spec, Z.bits_0.
    destruct (Z.lt_ge_cases n k) as [Hlt|Hge].
    - rewrite <- Z.shiftl_mul_pow2 by exact Hk.
      rewrite (Z.shiftl_spec_low c k n Hlt). apply andb_false_r.
    - destruct (Z.eq_dec a 0) as [->|Hnz].
      + rewrite Z.bits_0. reflexivity.
      + rewrite (Z.bits_above_log2 a n); [reflexivity|lia|].
        apply Z.lt_le_trans with k; [|exact Hge].
        apply Z.log2_lt_pow2; lia. }
  rewrite <- Z.lxor_lor by exact Hland.
  symmetry. apply Z.add_nocarry_lxor. exact Hland.
Qed.

(** The value of the field that [read_int32] assembles from four bytes,
    and the one [read_int16] assembles from two. *)
Lemma int32_assembled (v : Z) :
  let c0 := byte_val (byte_of_Z v) in
  let c1 := byte_val (byte_of_Z (v / 256)) in
  let c2 := byte_val (byte_of_Z (v / 256 / 256)) in
  let c3 := byte_val (byte_of_Z (v / 256 / 256 / 256)) in
  Z.lor (Z.lor (Z.lor (Z.lor 0 (to_uint32 (to_int (Z.shiftl c0 0))))
                      (to_uint32 (to_int (Z.shiftl c1 8))))
               (to_uint32 (to_int (Z.shiftl c2 16))))
        (to_uint32 (to_int (Z.shiftl c3 24)))
  = to_uint32 v.
Proof.
  cbv zeta. rewrite !byte_val_of_Z.
  pose proof (Z.mod_pos_bound v 256 ltac:(lia)) as H0.
  pose proof (Z.mod_pos_bound (v / 256) 256 ltac:(lia)) as H1.
  pose proof (Z.mod_pos_bound (v / 256 / 256) 256 ltac:(lia)) as H2.
  pose proof (Z.mod_pos_bound (v / 256 / 256 / 256) 256 ltac:(lia)) as H3.
  set (b0 := v mod 256) in *. set (b1 := (v / 256) mod 256) in *.
  set (b2 := (v / 256 / 256) mod 256) in *.
  set (b3 := (v / 256 / 256 / 256) mod 256) in *.
  assert (Hwrap : forall x, to_uint32 (to_int x) = x mod 4294967296).
  { intros x. unfold to_uint32, to_int, wrap_unsigned, wrap_signed.
    change (2 ^ (32 - 1)) with 2147483648. change (2 ^ 32) with 4294967296.
    rewrite Zminus_mod_idemp_l. f_equal. lia. }
  rewrite !Hwrap, !Z.shiftl_mul_pow2 by lia.
  change (2 ^ 0) with 1. change (2 ^ 8) with 256. change (2 ^ 16) with 65536.
  change (2 ^ 24) with 16777216.
  rewrite !Z.mod_small by lia.
  rewrite Z.lor_0_l, Z.mul_1_r.
  change 256 with (2 ^ 8) at 1. rewrite (lor_disjoint b0 b1 8) by (change (2 ^ 8) with 256; lia).
  change 65536 with (2 ^ 16). rewrite (lor_disjoint _ b2 16) by (change (2 ^ 8) with 256; change (2 ^ 16) with 65536; lia).
  change 16777216 with (2 ^ 24).
  rewrite (lor_disjoint _ b3 24)
    by (change (2 ^ 8) with 256; change (2 ^ 16) with 65536;
        change (2 ^ 24) with 16777216; lia).
  change (2 ^ 8) with 256. change (2 ^ 16) with 65536.
  change (2 ^ 24) with 16777216.
  unfold to_uint32, wrap_unsigned. change (2 ^ 32) with (256 * (256 * (256 * 256))).
  rewrite (Z.rem_mul_r v 256 (256 * (256 * 256))) by lia.
  rewrite (Z.rem_mul_r (v / 256) 256 (256 * 256)) by lia.
  rewrite (Z.rem_mul_r (v / 256 / 256) 256 256) by lia.
  subst b0 b1 b2 b3. lia.
Qed.

Lemma int16_assembled (v : Z) :
  let c0 := byte_val (byte_of_Z v) in
  let c1 := byte_val (byte_of_Z (v / 256)) in
  to_uint16 (Z.lor (to_uint16 (Z.lor 0 (to_int (Z.shiftl c0 0))))
                   (to_int (Z.shiftl c1 8)))
  = to_uint16 v.
Proof.
  cbv zeta. rewrite !byte_val_of_Z.
  pose proof (Z.mod_pos_bound v 256 ltac:(lia)) as H0.
  pose proof (Z.mod_pos_bound (v / 256) 256 ltac:(lia)) as H1.
  set (b0 := v mod 256) in *. set (b1 := (v / 256) mod 256) in *.
  rewrite !Z.shiftl_mul_pow2 by lia.
  change (2 ^ 0) with 1. change (2 ^ 8) with 256.
  rewrite !to_int_small by lia.
  rewrite Z.lor_0_l, Z.mul_1_r.
  unfold to_uint16, wrap_unsigned. change (2 ^ 16) with 65536.
  rewrite (Z.mod_small b0) by lia.
  change 256 with (2 ^ 8) at 1. rewrite (lor_disjoint b0 b1 8) by (change (2 ^ 8) with 256; lia).
  change (2 ^ 8) with 256.
  rewrite (Z.mod_small (b0 + b1 * 256)) by lia.
  change 65536 with (256 * 256).
  rewrite (Z.rem_mul_r v 256 256) by lia.
  subst b0 b1. lia.
Qed.
(** ** Steps of the scanner *)

Lemma bind_step {A B} (m : WAVHeader.M A) (k : A -> WAVHeader.M B)
    (h h' : WAVHeader.t) (a : A) :
  m h = (a, h') -> (m ≫= k) h = k a h'.
Proof.
  intros Hm. unfold mbind, WAVHeader.M_bind. rewrite Hm. reflexivity.
Qed.

Lemma ret_step {A} (a : A) (h : WAVHeader.t) : (mret a : WAVHeader.M A) h = (a, h).
Proof. reflexivity. Qed.

Lemma at_split_snoc (i : WAVAudioInfo) (before : list byte) (b : byte)
    (after : list byte) (sp : Z) (tr : list WAVHeader.access) :
  WAVHeader.mk i (before ++ b :: after)
    (Z.of_nat (length (before ++ b :: after)))
    (Z.of_nat (length before) + 1) sp tr
  = at_split i (before ++ [b]) after sp tr.
Proof.
  unfold at_split. rewrite <- app_assoc. cbn [app].
  f_equal. rewrite length_app. cbn [length]. lia.
Qed.

Lemma getChar_at (i : WAVAudioInfo) (before : list byte)
    (b : byte) (after : list byte) (sp : Z) (tr : list WAVHeader.access) :
  WAVHeader.getChar (at_split i before (b :: after) sp tr)
  = (byte_val b,
     at_split i (before ++ [b]) after sp
       (WAVHeader.Fetch (Z.of_nat (length before)) :: tr)).
Proof.
  rewrite <- at_split_snoc.
  unfold WAVHeader.getChar, at_split.
  cbn [WAVHeader.data_pos WAVHeader.len WAVHeader.buffer WAVHeader.headerInfo
       WAVHeader.sound_pos WAVHeader.trail].
  replace (Z.of_nat (length before) <? Z.of_nat (length (before ++ b :: after)))
    with true
    by (symmetry; apply Z.ltb_lt; rewrite length_app; cbn [length]; lia).
  rewrite Nat2Z.id, nth_middle. reflexivity.
Qed.

Lemma getChar_past (h : WAVHeader.t) :
  WAVHeader.len h <= WAVHeader.data_pos h ->
  WAVHeader.getChar h
  = (-1, WAVHeader.mk (WAVHeader.headerInfo h) (WAVHeader.buffer h)
           (WAVHeader.len h) (WAVHeader.data_pos h) (WAVHeader.sound_pos h)
           (WAVHeader.Sentinel (WAVHeader.data_pos h) :: WAVHeader.trail h)).
Proof.
  intros Hp. unfold WAVHeader.getChar.
  replace (WAVHeader.data_pos h <? WAVHeader.len h) with false
    by (symmetry; apply Z.ltb_ge; exact Hp).
  reflexivity.
Qed.

Lemma bind_assoc_at {A B C} (m : WAVHeader.M A) (f : A -> WAVHeader.M B)
    (g : B -> WAVHeader.M C) (h : WAVHeader.t) :
  ((m ≫= f) ≫= g) h = (m ≫= (fun x => f x ≫= g)) h.
Proof.
  unfold mbind, WAVHeader.M_bind. destruct (m h) as [a h']. reflexivity.
Qed.

Ltac scan_step lemma :=
  repeat rewrite bind_assoc_at;
  erewrite bind_step by (apply lemma); cbv beta.

Ltac scan_ret :=
  repeat rewrite bind_assoc_at;
  first [ erewrite bind_step by (apply ret_step) | rewrite ret_step ];
  cbv beta iota.

Lemma fetched_app (bs1 bs2 : list byte) :
  forall start tr,
    fetched start (bs1 ++ bs2) tr
    = fetched (start + Z.of_nat (length bs1)) bs2 (fetched start bs1 tr).
Proof.
  induction bs1 as [|b bs1 IH]; intros start tr; cbn [app fetched length].
  - rewrite Z.add_0_r. reflexivity.
  - rewrite IH. f_equal. lia.
Qed.

Lemma read_tag_at (i : WAVAudioInfo) (before : list byte)
    (a b c d : byte) (after : list byte) (sp : Z) (tr : list WAVHeader.access) :
  WAVHeader.read_tag (at_split i before (a :: b :: c :: d :: after) sp tr)
  = (tag_of (byte_val a) (byte_val b) (byte_val c) (byte_val d),
     at_split i (before ++ [a; b; c; d]) after sp
       (fetched (Z.of_nat (length before)) [a; b; c; d] tr)).
Proof.
  unfold WAVHeader.read_tag.
  do 4 scan_step getChar_at.
  rewrite ret_step. unfold tag_of.
  rewrite <- !app_assoc. cbn [app fetched].
  rewrite !length_app. cbn [length].
  repeat f_equal; lia.
Qed.

Lemma read_tag_past (h : WAVHeader.t) :
  WAVHeader.len h <= WAVHeader.data_pos h ->
  WAVHeader.read_tag h
  = (4294967295,
     WAVHeader.mk (WAVHeader.headerInfo h) (WAVHeader.buffer h)
       (WAVHeader.len h) (WAVHeader.data_pos h) (WAVHeader.sound_pos h)
       (missed (WAVHeader.data_pos h) 4 (WAVHeader.trail h))).
Proof.
  intros Hp. unfold WAVHeader.read_tag.
  do 4 (erewrite bind_step by (apply getChar_past; exact Hp); cbv beta;
        cbn [WAVHeader.data_pos WAVHeader.len WAVHeader.buffer
             WAVHeader.headerInfo WAVHeader.sound_pos WAVHeader.trail]).
  reflexivity.
Qed.

Lemma read_int32_at (i : WAVAudioInfo) (before : list byte)
    (v : Z) (after : list byte) (sp : Z) (tr : list WAVHeader.access) :
  WAVHeader.read_int32 (at_split i before (le_bytes 4 v ++ after) sp tr)
  = (to_uint32 v,
     at_split i (before ++ le_bytes 4 v) after sp
       (fetched (Z.of_nat (length before)) (le_bytes 4 v) tr)).
Proof.
  unfold WAVHeader.read_int32. cbn [le_bytes app].
  do 4 scan_step getChar_at.
  rewrite ret_step, int32_assembled.
  rewrite <- !app_assoc. cbn [app fetched].
  rewrite !length_app. cbn [length].
  repeat f_equal; lia.
Qed.

Lemma read_int16_at (i : WAVAudioInfo) (before : list byte)
    (v : Z) (after : list byte) (sp : Z) (tr : list WAVHeader.access) :
  WAVHeader.read_int16 (at_split i before (le_bytes 2 v ++ after) sp tr)
  = (to_uint16 v,
     at_split i (before ++ le_bytes 2 v) after sp
       (fetched (Z.of_nat (length before)) (le_bytes 2 v) tr)).
Proof.
  unfold WAVHeader.read_int16. cbn [le_bytes app].
  do 2 scan_step getChar_at.
  rewrite ret_step, int16_assembled.
  rewrite <- !app_assoc. cbn [app fetched].
  rewrite !length_app. cbn [length].
  repeat f_equal; lia.
Qed.

Lemma skip_loop_at (i : WAVAudioInfo) (bs : list byte) :
  forall (before after : list byte) (sp : Z) (tr : list WAVHeader.access),
    WAVHeader.skip_loop (length bs) (at_split i before (bs ++ after) sp tr)
    = (tt, at_split i (before ++ bs) after sp
             (fetched (Z.of_nat (length before)) bs tr)).
Proof.
  induction bs as [|b bs IH]; intros before after sp tr;
    cbn [length WAVHeader.skip_loop app fetched].
  - rewrite app_nil_r. reflexivity.
  - scan_step getChar_at.
    rewrite IH. rewrite <- app_assoc. cbn [app].
    rewrite length_app. cbn [length].
    repeat f_equal; lia.
Qed.

Lemma skip_at (i : WAVAudioInfo) (bs before after : list byte) (sp : Z)
    (tr : list WAVHeader.access) (n : Z) :
  n = Z.of_nat (length bs) ->
  WAVHeader.skip n (at_split i before (bs ++ after) sp tr)
  = (tt, at_split i (before ++ bs) after sp
           (fetched (Z.of_nat (length before)) bs tr)).
Proof.
  intros ->. unfold WAVHeader.skip. rewrite Nat2Z.id. apply skip_loop_at.
Qed.

Lemma with_info_at (f : WAVAudioInfo -> WAVAudioInfo) (i : WAVAudioInfo)
    (before after : list byte) (sp : Z) (tr : list WAVHeader.access) :
  WAVHeader.with_info f (at_split i before after sp tr)
  = (tt, at_split (f i) before after sp tr).
Proof. reflexivity. Qed.

Lemma info_at (i : WAVAudioInfo) (before after : list byte) (sp : Z)
    (tr : list WAVHeader.access) :
  WAVHeader.info (at_split i before after sp tr)
  = (i, at_split i before after sp tr).
Proof. reflexivity. Qed.

Lemma tell_at (i : WAVAudioInfo) (before after : list byte) (sp : Z)
    (tr : list WAVHeader.access) :
  WAVHeader.tell (at_split i before after sp tr)
  = (Z.of_nat (length before), at_split i before after sp tr).
Proof. reflexivity. Qed.

Lemma set_sound_pos_at (v : Z) (i : WAVAudioInfo) (before after : list byte)
    (sp : Z) (tr : list WAVHeader.access) :
  WAVHeader.set_sound_pos v (at_split i before after sp tr)
  = (tt, at_split i before after v tr).
Proof. reflexivity. Qed.

(** [eof] away from the end of a buffer that fits the address space. *)
Lemma eof_at (p : platform) (i : WAVAudioInfo) (before after : list byte)
    (sp : Z) (tr : list WAVHeader.access) :
  Z.of_nat (length (before ++ after)) < 4294967296 ->
  (2 <= length after)%nat ->
  WAVHeader.eof p (at_split i before after sp tr)
  = (false, at_split i before after sp tr).
Proof.
  intros Hfit Hafter. unfold WAVHeader.eof, at_split.
  cbn [WAVHeader.data_pos WAVHeader.len].
  rewrite length_app in Hfit |- *.
  rewrite to_size_t_small by lia.
  replace (Z.of_nat (length before + length after) - 1 <=? Z.of_nat (length before))
    with false by (symmetry; apply Z.leb_gt; lia).
  reflexivity.
Qed.

Lemma eof_past (p : platform) (h : WAVHeader.t) :
  0 <= WAVHeader.len h < 4294967296 -> WAVHeader.len h - 1 <= WAVHeader.data_pos h ->
  1 <= WAVHeader.len h ->
  WAVHeader.eof p h = (true, h).
Proof.
  intros Hfit Hp Hne. unfold WAVHeader.eof.
  rewrite to_size_t_small by lia.
  replace (WAVHeader.len h - 1 <=? WAVHeader.data_pos h) with true
    by (symmetry; apply Z.leb_le; lia).
  reflexivity.
Qed.
Lemma length_le_bytes (n : nat) : forall v, length (le_bytes n v) = n.
Proof. induction n as [|n IH]; intros v; cbn [le_bytes length]; [|rewrite IH]; reflexivity. Qed.

Lemma tag_RIFF :
  tag_of (byte_val "R") (byte_val "I") (byte_val "F") (byte_val "F")
  = TAG "R" "I" "F" "F".
Proof. reflexivity. Qed.

Lemma tag_WAVE :
  tag_of (byte_val "W") (byte_val "A") (byte_val "V") (byte_val "E")
  = TAG "W" "A" "V" "E".
Proof. reflexivity. Qed.

Lemma tag_fmt :
  tag_of (byte_val "f") (byte_val "m") (byte_val "t") (byte_val " ")
  = TAG "f" "m" "t" " ".
Proof. reflexivity. Qed.

Lemma tag_data :
  tag_of (byte_val "d") (byte_val "a") (byte_val "t") (byte_val "a")
  = TAG "d" "a" "t" "a".
Proof. reflexivity. Qed.

Ltac len_norm :=
  repeat first
    [ rewrite length_app in *
    | rewrite length_le_bytes in *
    | progress cbn [length] in * ].

(** [lia] after the hypotheses that only add case distinctions are set
    aside. *)
Ltac plain_lia :=
  first
    [ lia
    | repeat match goal with
             | H : _ \/ _ |- _ => clear H
             | H : _ <> _ |- _ => clear H
             | H : _ = true |- _ => clear H
             | H : _ = false |- _ => clear H
             end;
      lia ].

Ltac len_solve := len_norm; plain_lia.

Ltac side_cond :=
  solve [ assumption
        | reflexivity
        | left; reflexivity
        | plain_lia
        | unfold fmt_chunk, data_header, riff_header, wave_buffer in *; len_solve ].

Ltac scan_eof :=
  repeat rewrite bind_assoc_at;
  erewrite bind_step by (apply eof_at; len_solve); cbv beta iota.

Lemma chunk_body_fmt (p : platform) (remaining : Z) (i : WAVAudioInfo)
    (before after : list byte) (sp : Z) (tr : list WAVHeader.access)
    (fmt_size fc ch sr br ba bps : Z) (extension : list byte) :
  Z.of_nat (length
              (before ++ fmt_chunk fmt_size fc ch sr br ba bps extension ++ after))
  < 2147483648 ->
  0 <= remaining < 4294967296 -> 8 + fmt_size <= remaining ->
  fmt_size = 16 + Z.of_nat (length extension) ->
  0 <= fc < 65536 -> fc <> 65534 ->
  exists tr',
    WAVHeader.chunk_body p remaining
      (at_split i before
         (fmt_chunk fmt_size fc ch sr br ba bps extension ++ after) sp tr)
    = (WAVHeader.Next (remaining - 8 - fmt_size),
       at_split (fmt_info i fc ch sr br ba bps)
         (before ++ fmt_chunk fmt_size fc ch sr br ba bps extension) after sp tr').
Proof.
  intros Hfit Hlen Hroom Hsize Hfc Hext.
  unfold fmt_chunk in *. rewrite <- !app_assoc in *. cbn [app] in *.
  unfold WAVHeader.chunk_body.
  scan_step read_tag_at. scan_eof.
  scan_step read_int32_at.
  rewrite tag_fmt, Z.eqb_refl.
  rewrite (to_uint32_small fmt_size) by len_solve.
  rewrite (to_uint32_small (remaining - 8)) by lia.
  replace (remaining - 8 <? fmt_size) with false by (symmetry; apply Z.ltb_ge; lia).
  replace (fmt_size <? 16) with false by (symmetry; apply Z.ltb_ge; lia).
  scan_step read_int16_at. scan_step with_info_at.
  scan_step read_int16_at. scan_step with_info_at.
  scan_step read_int32_at. scan_step with_info_at.
  scan_step read_int32_at. scan_step with_info_at.
  scan_step read_int16_at. scan_step with_info_at.
  scan_step read_int16_at. scan_step with_info_at.
  scan_step info_at.
  cbn [format set_format set_channels set_sample_rate set_byte_rate
       set_block_align set_bits_per_sample].
  assert (Hfc16 : to_uint16 fc = fc).
  { unfold to_uint16, wrap_unsigned. change (2 ^ 16) with 65536.
    apply Z.mod_small. lia. }
  replace (to_uint16 fc =? 65534) with false
    by (symmetry; apply Z.eqb_neq; rewrite Hfc16; exact Hext).
  rewrite (to_uint32_small (fmt_size - 16)) by len_solve.
  rewrite (to_int_small (fmt_size - 16)) by len_solve.
  erewrite bind_step by (apply skip_at; lia). cbv beta.
  scan_step with_info_at.
  rewrite ret_step.
  rewrite (to_uint32_small (remaining - 8 - fmt_size)) by lia.
  eexists. f_equal.
  unfold fmt_info.
  rewrite <- !app_assoc. cbn [app].
  reflexivity.
Qed.
Lemma seek_cur_at (p : platform) (off : Z) (i : WAVAudioInfo)
    (before after : list byte) (sp : Z) (tr : list WAVHeader.access) :
  0 <= off -> Z.of_nat (length before) + off < 4294967296 ->
  WAVHeader.seek p off WAVHeader.SEEK_CUR (at_split i before after sp tr)
  = (tt,
     WAVHeader.mk i (before ++ after) (Z.of_nat (length (before ++ after)))
       (Z.of_nat (length before) + off) sp
       (WAVHeader.Moved (Z.of_nat (length before))
          (Z.of_nat (length before) + off) :: tr)).
Proof.
  intros Hoff Hfit. unfold WAVHeader.seek, at_split.
  cbn [WAVHeader.headerInfo WAVHeader.buffer WAVHeader.len WAVHeader.data_pos
       WAVHeader.sound_pos WAVHeader.trail].
  rewrite (to_size_t_small p off) by lia.
  rewrite (to_size_t_small p (Z.of_nat (length before) + off)) by lia.
  reflexivity.
Qed.

Lemma chunk_body_data_streamed (p : platform) (remaining : Z) (i : WAVAudioInfo)
    (before rest : list byte) (sp : Z) (tr : list WAVHeader.access)
    (data_size : Z) :
  Z.of_nat (length (before ++ data_header data_size ++ rest)) < 2147483648 ->
  0 <= remaining < 4294967296 -> 8 + data_size <= remaining ->
  0 <= data_size < 4294967296 ->
  is_streamed i = true \/ data_size = 0 ->
  exists tr',
    WAVHeader.chunk_body p remaining
      (at_split i before (data_header data_size ++ rest) sp tr)
    = (WAVHeader.Return,
       at_split (set_is_streamed true (set_data_length data_size i))
         (before ++ data_header data_size) rest
         (Z.of_nat (length (before ++ data_header data_size))) tr').
Proof.
  intros Hfit Hlen Hroom Hsize Hmode.
  unfold data_header in *. rewrite <- !app_assoc in *. cbn [app] in *.
  unfold WAVHeader.chunk_body.
  scan_step read_tag_at. scan_eof.
  scan_step read_int32_at.
  rewrite tag_data.
  replace (TAG "d" "a" "t" "a" =? TAG "f" "m" "t" " ") with false by reflexivity.
  rewrite Z.eqb_refl.
  rewrite (to_uint32_small data_size) by lia.
  rewrite (to_uint32_small (remaining - 8)) by lia.
  replace (remaining - 8 <? data_size) with false
    by (symmetry; apply Z.ltb_ge; lia).
  scan_step tell_at. scan_step set_sound_pos_at. scan_step with_info_at.
  scan_step info_at.
  cbn [data_length is_streamed set_data_length].
  replace ((data_size =? 0) || is_streamed i) with true.
  - scan_step with_info_at. rewrite ret_step.
    eexists. f_equal.
    rewrite <- !app_assoc. cbn [app]. reflexivity.
  - symmetry. apply orb_true_iff. destruct Hmode as [Hs|Hz].
    + right. exact Hs.
    + left. apply Z.eqb_eq. exact Hz.
Qed.

Lemma chunk_body_data_finite (p : platform) (remaining : Z) (i : WAVAudioInfo)
    (before rest : list byte) (sp : Z) (tr : list WAVHeader.access)
    (data_size : Z) :
  Z.of_nat (length (before ++ data_header data_size ++ rest)) < 2147483648 ->
  0 <= remaining < 4294967296 -> 8 + data_size <= remaining ->
  0 < data_size < 2147483648 ->
  is_streamed i = false ->
  exists tr',
    WAVHeader.chunk_body p remaining
      (at_split i before (data_header data_size ++ rest) sp tr)
    = (WAVHeader.Next (remaining - 8 - data_size),
       WAVHeader.mk (set_data_length data_size i)
         (before ++ data_header data_size ++ rest)
         (Z.of_nat (length (before ++ data_header data_size ++ rest)))
         (Z.of_nat (length (before ++ data_header data_size)) + data_size)
         (Z.of_nat (length (before ++ data_header data_size))) tr').
Proof.
  intros Hfit Hlen Hroom Hsize Hmode.
  unfold data_header in *. rewrite <- !app_assoc in *. cbn [app] in *.
  unfold WAVHeader.chunk_body.
  scan_step read_tag_at. scan_eof.
  scan_step read_int32_at.
  rewrite tag_data.
  replace (TAG "d" "a" "t" "a" =? TAG "f" "m" "t" " ") with false by reflexivity.
  rewrite Z.eqb_refl.
  rewrite (to_uint32_small data_size) by lia.
  rewrite (to_uint32_small (remaining - 8)) by lia.
  replace (remaining - 8 <? data_size) with false
    by (symmetry; apply Z.ltb_ge; lia).
  scan_step tell_at. scan_step set_sound_pos_at. scan_step with_info_at.
  scan_step info_at.
  cbn [data_length is_streamed set_data_length].
  rewrite Hmode.
  replace (data_size =? 0) with false by (symmetry; apply Z.eqb_neq; lia).
  cbn [orb].
  rewrite (to_long_small p data_size) by lia.
  erewrite bind_step by (apply seek_cur_at; len_solve). cbv beta.
  rewrite ret_step.
  rewrite (to_uint32_small (remaining - 8 - data_size)) by lia.
  eexists. f_equal.
  rewrite <- !app_assoc. cbn [app]. reflexivity.
Qed.

Lemma seek_cur_raw (p : platform) (off : Z) (h : WAVHeader.t) :
  0 <= off -> 0 <= WAVHeader.data_pos h ->
  WAVHeader.data_pos h + off < 4294967296 ->
  WAVHeader.seek p off WAVHeader.SEEK_CUR h
  = (tt,
     WAVHeader.mk (WAVHeader.headerInfo h) (WAVHeader.buffer h) (WAVHeader.len h)
       (WAVHeader.data_pos h + off) (WAVHeader.sound_pos h)
       (WAVHeader.Moved (WAVHeader.data_pos h) (WAVHeader.data_pos h + off)
          :: WAVHeader.trail h)).
Proof.
  intros Hoff Hpos Hfit. unfold WAVHeader.seek.
  rewrite (to_size_t_small p off) by lia.
  rewrite (to_size_t_small p (WAVHeader.data_pos h + off)) by lia.
  reflexivity.
Qed.

Lemma chunk_loop_S (p : platform) (fuel : nat) (remaining : Z) :
  WAVHeader.chunk_loop p (S fuel) remaining
  = if 8 <=? remaining then
      r ← WAVHeader.chunk_body p remaining;
      match r with
      | WAVHeader.Next remaining' => WAVHeader.chunk_loop p fuel remaining'
      | other => mret other
      end
    else mret (WAVHeader.Break remaining).
Proof. reflexivity. Qed.

Lemma chunk_loop_done (p : platform) (fuel : nat) (remaining : Z)
    (h : WAVHeader.t) :
  remaining < 8 ->
  WAVHeader.chunk_loop p fuel remaining h = (WAVHeader.Break remaining, h).
Proof.
  intros Hr. destruct fuel; cbn [WAVHeader.chunk_loop];
    replace (8 <=? remaining) with false by (symmetry; apply Z.leb_gt; lia);
    reflexivity.
Qed.

Lemma riff_loop_S (p : platform) (fuel inner : nat) :
  WAVHeader.riff_loop p (S fuel) inner
  = (e ← WAVHeader.eof p;
     if e : bool then mret true else
     r ← WAVHeader.riff_body p inner;
     match r with
     | WAVHeader.Next _ => WAVHeader.riff_loop p fuel inner
     | WAVHeader.Break _ | WAVHeader.Return => mret true
     | WAVHeader.Starved => mret false
     end).
Proof. reflexivity. Qed.

Lemma chunk_body_past (p : platform) (remaining : Z) (h : WAVHeader.t) :
  1 <= WAVHeader.len h < 4294967296 -> WAVHeader.len h <= WAVHeader.data_pos h ->
  WAVHeader.chunk_body p remaining h
  = (WAVHeader.Break remaining,
     WAVHeader.mk (WAVHeader.headerInfo h) (WAVHeader.buffer h)
       (WAVHeader.len h) (WAVHeader.data_pos h) (WAVHeader.sound_pos h)
       (missed (WAVHeader.data_pos h) 4 (WAVHeader.trail h))).
Proof.
  intros Hfit Hp. unfold WAVHeader.chunk_body.
  erewrite bind_step by (apply read_tag_past; exact Hp). cbv beta.
  erewrite bind_step
    by (apply eof_past;
        cbn [WAVHeader.len WAVHeader.data_pos]; lia).
  cbv beta iota. reflexivity.
Qed.

Lemma riff_loop_past (p : platform) (fuel inner : nat) (h : WAVHeader.t) :
  1 <= WAVHeader.len h < 4294967296 ->
  WAVHeader.len h - 1 <= WAVHeader.data_pos h ->
  WAVHeader.riff_loop p fuel inner h = (true, h).
Proof.
  intros Hfit Hp.
  destruct fuel; cbn [WAVHeader.riff_loop];
    (erewrite bind_step by (apply eof_past; lia)); reflexivity.
Qed.
(** ** A scan of a canonical buffer *)

Section Canonical.
Variable p : platform.
Variables riff_size fmt_size fc ch sr br ba bps data_size : Z.
Variables extension rest : list byte.

Local Abbreviation buf :=
  (wave_buffer riff_size fmt_size fc ch sr br ba bps extension data_size rest).
Local Abbreviation head :=
  (riff_header riff_size ++ fmt_chunk fmt_size fc ch sr br ba bps extension
   ++ data_header data_size).

Hypothesis buf_fits : Z.of_nat (length buf) < 2147483648.
Hypothesis riff_range : 0 <= riff_size < 4294967296.
Hypothesis fmt_fits : fmt_size = 16 + Z.of_nat (length extension).
Hypothesis fc_range : 0 <= fc < 65536.
Hypothesis fc_plain : fc <> 65534.

Lemma buf_split : buf = head ++ rest.
Proof. unfold wave_buffer. rewrite <- !app_assoc. reflexivity. Qed.

Lemma head_length : Z.of_nat (length head) = 28 + fmt_size.
Proof using fmt_fits.
  clear - fmt_fits.
  unfold riff_header, fmt_chunk, data_header. len_solve.
Qed.

(** The scan when the RIFF chunk declares no usable size: it stops at
    the [data] chunk. *)
Lemma scan_streamed (fuel inner : nat) (sp : Z) (tr : list WAVHeader.access) :
  0 <= data_size <= 4294967275 - fmt_size ->
  riff_size = 0 \/ 2147418112 <= riff_size ->
  exists tr',
    WAVHeader.riff_loop p (S fuel) (S (S inner))
      (at_split zeroed_info [] buf sp tr)
    = (true,
       at_split
         (set_is_streamed true
            (set_data_length data_size
               (fmt_info (set_is_streamed true zeroed_info) fc ch sr br ba bps)))
         head rest (Z.of_nat (length head)) tr').
Proof.
  intros Hdata_range Hstream.
  assert (Hs : (riff_size =? 0) || (2147418112 <=? riff_size) = true).
  { apply orb_true_iff. destruct Hstream as [Hz|Hbig].
    - left. apply Z.eqb_eq. exact Hz.
    - right. apply Z.leb_le. exact Hbig. }
  clear Hstream.
  pose proof buf_fits as Hfit. unfold wave_buffer, riff_header in Hfit |- *.
  rewrite <- !app_assoc in Hfit |- *. cbn [app] in Hfit |- *.
  rewrite riff_loop_S.
  scan_eof.
  unfold WAVHeader.riff_body.
  scan_step read_tag_at. scan_eof.
  scan_step read_int32_at.
  rewrite (to_uint32_small riff_size) by lia.
  scan_ret.
  rewrite Hs.
  scan_step with_info_at.
  rewrite tag_RIFF, Z.eqb_refl.
  change (to_uint32 (-1)) with 4294967295.
  change (negb true || (4294967295 <? 4)) with false. cbv iota.
  scan_step read_tag_at.
  rewrite tag_WAVE, Z.eqb_refl. cbn [negb].
  change (to_uint32 (4294967295 - 4)) with 4294967291.
  rewrite chunk_loop_S.
  change (8 <=? 4294967291) with true. cbv iota.
  repeat rewrite bind_assoc_at.
  match goal with
  | |- context [(WAVHeader.chunk_body p ?n ≫= _)
                  (at_split ?i ?b (fmt_chunk _ _ _ _ _ _ _ _ ++ ?a) ?s ?t)] =>
      destruct (chunk_body_fmt p n i b a s t fmt_size fc ch sr br ba bps extension)
        as [tr1 Hfmt]; [side_cond .. |]
  end.
  repeat rewrite bind_assoc_at.
  rewrite (bind_step _ _ _ _ _ Hfmt). cbv beta iota.
  rewrite chunk_loop_S.
  replace (8 <=? 4294967291 - 8 - fmt_size) with true
    by (symmetry; apply Z.leb_le; side_cond).
  repeat rewrite bind_assoc_at.
  match goal with
  | |- context [(WAVHeader.chunk_body p ?n ≫= _)
                  (at_split ?i ?b (data_header _ ++ ?a) ?s ?t)] =>
      destruct (chunk_body_data_streamed p n i b a s t data_size)
        as [tr2 Hdata]; [side_cond .. |]
  end.
  repeat rewrite bind_assoc_at.
  rewrite (bind_step _ _ _ _ _ Hdata). cbv beta iota.
  scan_ret. scan_ret.
  exists tr2. reflexivity.
Qed.

(** The scan when the RIFF chunk declares a size that covers the two
    chunks and the buffer ends within the sound data: the cursor
    leaves the buffer. *)
Lemma scan_finite (fuel inner : nat) (sp : Z) (tr : list WAVHeader.access) :
  0 < data_size < 2147418112 ->
  20 + fmt_size + data_size <= riff_size < 2147418112 ->
  Z.of_nat (length rest) <= data_size ->
  exists pos tr',
    WAVHeader.riff_loop p (S fuel) (S (S (S inner)))
      (at_split zeroed_info [] buf sp tr)
    = (true,
       WAVHeader.mk
         (set_data_length data_size (fmt_info zeroed_info fc ch sr br ba bps))
         buf (Z.of_nat (length buf)) pos (Z.of_nat (length head)) tr').
Proof.
  intros data_range Hriff Hrest.
  pose proof buf_fits as Hfit. pose proof buf_split as Hsplit.
  pose proof head_length as Hhead.
  assert (Hbuflen : Z.of_nat (length buf)
                    = Z.of_nat (length head) + Z.of_nat (length rest)).
  { rewrite Hsplit, length_app. lia. }
  unfold wave_buffer at 1 2, riff_header at 1 2. unfold wave_buffer, riff_header in Hfit.
  rewrite <- !app_assoc in Hfit |- *. cbn [app] in Hfit |- *.
  rewrite riff_loop_S.
  scan_eof.
  unfold WAVHeader.riff_body.
  scan_step read_tag_at. scan_eof.
  scan_step read_int32_at.
  rewrite (to_uint32_small riff_size) by lia.
  scan_ret.
  replace ((riff_size =? 0) || (2147418112 <=? riff_size)) with false.
  2:{ symmetry. apply orb_false_iff. split.
      - apply Z.eqb_neq. lia.
      - apply Z.leb_gt. lia. }
  scan_ret.
  rewrite tag_RIFF, Z.eqb_refl.
  replace (negb true || (riff_size <? 4)) with false
    by (symmetry; apply Z.ltb_ge; lia).
  cbv iota.
  scan_step read_tag_at.
  rewrite tag_WAVE, Z.eqb_refl. cbn [negb].
  rewrite (to_uint32_small (riff_size - 4)) by lia.
  rewrite chunk_loop_S.
  replace (8 <=? riff_size - 4) with true by (symmetry; apply Z.leb_le; lia).
  repeat rewrite bind_assoc_at.
  match goal with
  | |- context [(WAVHeader.chunk_body p ?n ≫= _)
                  (at_split ?i ?b (fmt_chunk _ _ _ _ _ _ _ _ ++ ?a) ?s ?t)] =>
      destruct (chunk_body_fmt p n i b a s t fmt_size fc ch sr br ba bps extension)
        as [tr1 Hfmt]; [side_cond .. |]
  end.
  repeat rewrite bind_assoc_at.
  rewrite (bind_step _ _ _ _ _ Hfmt). cbv beta iota.
  rewrite chunk_loop_S.
  replace (8 <=? riff_size - 4 - 8 - fmt_size) with true
    by (symmetry; apply Z.leb_le; lia).
  repeat rewrite bind_assoc_at.
  match goal with
  | |- context [(WAVHeader.chunk_body p ?n ≫= _)
                  (at_split ?i ?b (data_header _ ++ ?a) ?s ?t)] =>
      destruct (chunk_body_data_finite p n i b a s t data_size)
        as [tr2 Hdata]; [side_cond .. |]
  end.
  repeat rewrite bind_assoc_at.
  rewrite (bind_step _ _ _ _ _ Hdata). cbv beta iota.
  set (left_over := riff_size - 4 - 8 - fmt_size - 8 - data_size).
  match goal with
  | |- context [WAVHeader.mk ?i ?b ?l ?q ?s tr2] =>
      set (h2 := WAVHeader.mk i b l q s tr2)
  end.
  assert (Hshape : h2 = WAVHeader.mk
                     (set_data_length data_size
                        (fmt_info zeroed_info fc ch sr br ba bps))
                     buf (Z.of_nat (length buf))
                     (Z.of_nat (length head) + data_size)
                     (Z.of_nat (length head)) tr2) by reflexivity.
  clearbody h2. subst h2.
  match goal with
  | |- context [WAVHeader.mk ?i ?b ?l ?q ?s tr2] =>
      set (h2 := WAVHeader.mk i b l q s tr2)
  end.
  assert (Hpast : WAVHeader.len h2 <= WAVHeader.data_pos h2)
    by (unfold h2; cbn [WAVHeader.len WAVHeader.data_pos]; lia).
  assert (Hne : 1 <= WAVHeader.len h2 < 4294967296)
    by (unfold h2; cbn [WAVHeader.len]; lia).
  assert (Hpos : WAVHeader.data_pos h2 = 28 + fmt_size + data_size)
    by (unfold h2; cbn [WAVHeader.data_pos]; lia).
  destruct (Z.leb_spec 8 left_over) as [Hmore|Hdone].
  - rewrite chunk_loop_S.
    replace (8 <=? left_over) with true by (symmetry; apply Z.leb_le; lia).
    repeat rewrite bind_assoc_at.
    rewrite (bind_step _ _ _ _ _ (chunk_body_past p left_over h2 Hne Hpast)).
    cbv beta iota.
    scan_ret.
    replace (0 <? left_over) with true by (symmetry; apply Z.ltb_lt; lia).
    rewrite (to_long_small p left_over) by (unfold left_over; lia).
    repeat rewrite bind_assoc_at.
    erewrite bind_step
      by (apply seek_cur_raw;
          cbn [WAVHeader.data_pos]; unfold left_over; lia).
    cbv beta. scan_ret.
    rewrite riff_loop_past
      by (cbn [WAVHeader.len WAVHeader.data_pos]; unfold left_over; lia).
    eexists. eexists. reflexivity.
  - repeat rewrite bind_assoc_at.
    erewrite bind_step by (apply chunk_loop_done; exact Hdone). cbv beta iota.
    destruct (Z.ltb_spec 0 left_over) as [Hsome|Hnone].
    + replace (0 <? left_over) with true by (symmetry; apply Z.ltb_lt; lia).
      rewrite (to_long_small p left_over) by (unfold left_over; lia).
      repeat rewrite bind_assoc_at.
      erewrite bind_step
        by (apply seek_cur_raw;
            cbn [WAVHeader.data_pos]; unfold left_over; lia).
      cbv beta. scan_ret.
      rewrite riff_loop_past
        by (cbn [WAVHeader.len WAVHeader.data_pos]; unfold left_over; lia).
      eexists. eexists. reflexivity.
    + replace (0 <? left_over) with false by (symmetry; apply Z.ltb_ge; lia).
      scan_ret. scan_ret.
      rewrite riff_loop_past by lia.
      eexists. eexists. reflexivity.
Qed.

(** The scan when the RIFF chunk declares a usable size and the [data]
    chunk declares none: it stops at the [data] chunk. *)
Lemma scan_zero_data (fuel inner : nat) (sp : Z) (tr : list WAVHeader.access) :
  data_size = 0 ->
  20 + fmt_size <= riff_size < 2147418112 ->
  exists tr',
    WAVHeader.riff_loop p (S fuel) (S (S inner))
      (at_split zeroed_info [] buf sp tr)
    = (true,
       at_split
         (set_is_streamed true
            (set_data_length data_size
               (fmt_info zeroed_info fc ch sr br ba bps)))
         head rest (Z.of_nat (length head)) tr').
Proof.
  intros Hzero Hriff.
  pose proof buf_fits as Hfit. unfold wave_buffer, riff_header in Hfit |- *.
  rewrite <- !app_assoc in Hfit |- *. cbn [app] in Hfit |- *.
  rewrite riff_loop_S.
  scan_eof.
  unfold WAVHeader.riff_body.
  scan_step read_tag_at. scan_eof.
  scan_step read_int32_at.
  rewrite (to_uint32_small riff_size) by lia.
  scan_ret.
  replace ((riff_size =? 0) || (2147418112 <=? riff_size)) with false.
  2:{ symmetry. apply orb_false_iff. split.
      - apply Z.eqb_neq. lia.
      - apply Z.leb_gt. lia. }
  scan_ret.
  rewrite tag_RIFF, Z.eqb_refl.
  replace (negb true || (riff_size <? 4)) with false
    by (symmetry; apply Z.ltb_ge; lia).
  cbv iota.
  scan_step read_tag_at.
  rewrite tag_WAVE, Z.eqb_refl. cbn [negb].
  rewrite (to_uint32_small (riff_size - 4)) by lia.
  rewrite chunk_loop_S.
  replace (8 <=? riff_size - 4) with true by (symmetry; apply Z.leb_le; lia).
  repeat rewrite bind_assoc_at.
  match goal with
  | |- context [(WAVHeader.chunk_body p ?n ≫= _)
                  (at_split ?i ?b (fmt_chunk _ _ _ _ _ _ _ _ ++ ?a) ?s ?t)] =>
      destruct (chunk_body_fmt p n i b a s t fmt_size fc ch sr br ba bps extension)
        as [tr1 Hfmt]; [side_cond .. |]
  end.
  repeat rewrite bind_assoc_at.
  rewrite (bind_step _ _ _ _ _ Hfmt). cbv beta iota.
  rewrite chunk_loop_S.
  replace (8 <=? riff_size - 4 - 8 - fmt_size) with true
    by (symmetry; apply Z.leb_le; lia).
  repeat rewrite bind_assoc_at.
  match goal with
  | |- context [(WAVHeader.chunk_body p ?n ≫= _)
                  (at_split ?i ?b (data_header _ ++ ?a) ?s ?t)] =>
      destruct (chunk_body_data_streamed p n i b a s t data_size)
        as [tr2 Hdata]; [first [side_cond | right; exact Hzero] .. |]
  end.
  repeat rewrite bind_assoc_at.
  rewrite (bind_step _ _ _ _ _ Hdata). cbv beta iota.
  scan_ret. scan_ret.
  exists tr2. reflexivity.
Qed.
End Canonical.

(** ** What the scan of a canonical buffer reports *)

(** C1 (as amended).  For a buffer made of a RIFF/WAVE header, a [fmt ]
    chunk of at least 16 bytes whose format code is not the extensible
    one, the header of a [data] chunk of finite nonzero size and the
    bytes [rest], where the RIFF size is a streaming sentinel or covers
    both chunks with [rest] no longer than the data chunk:
    [WAVHeader::begin] ends with [is_valid = true] and exactly the
    encoded sample rate (as an [int]), channel count, bits per sample
    and format code, and [soundData] yields the rest of the buffer after
    the data chunk header, whose length is the buffer length minus the
    payload offset; this is the declared data size clamped to the buffer
    when [rest] is no longer than the data chunk. *)
Theorem header_scan_canonical (p : platform) (fuel : nat)
    (riff_size fmt_size fc ch sr br ba bps data_size : Z)
    (extension rest : list byte) (h0 : WAVHeader.t) :
  let buf := wave_buffer riff_size fmt_size fc ch sr br ba bps extension
               data_size rest in
  (3 <= fuel)%nat ->
  Z.of_nat (length buf) < 2147483648 ->
  0 <= riff_size < 4294967296 ->
  fmt_size = 16 + Z.of_nat (length extension) ->
  0 <= fc < 65536 -> fc <> 65534 ->
  0 <= ch < 65536 -> 0 <= sr < 4294967296 -> 0 <= bps < 65536 ->
  0 < data_size < 2147418112 ->
  riff_size = 0 \/ 2147418112 <= riff_size
  \/ (20 + fmt_size + data_size <= riff_size
      /\ Z.of_nat (length rest) <= data_size) ->
  let r := WAVHeader.begin p fuel buf h0 in
  fst r = true
  /\ is_valid (WAVHeader.headerInfo (snd r)) = true
  /\ sample_rate (WAVHeader.headerInfo (snd r)) = to_int sr
  /\ channels (WAVHeader.headerInfo (snd r)) = ch
  /\ bits_per_sample (WAVHeader.headerInfo (snd r)) = bps
  /\ format (WAVHeader.headerInfo (snd r)) = fc
  /\ data_length (WAVHeader.headerInfo (snd r)) = data_size
  /\ fst (WAVHeader.soundData p (snd r)) = Some (rest, Z.of_nat (length rest))
  /\ Z.of_nat (length rest) = Z.of_nat (length buf) - (28 + fmt_size)
  /\ (Z.of_nat (length rest) <= data_size ->
      Z.of_nat (length rest)
      = Z.min data_size (Z.of_nat (length buf) - (28 + fmt_size))).
Proof.
  intros buf Hfuel Hfit Hriff Hfmt Hfc Hplain Hch Hsr Hbps Hdata Hcases r.
  destruct fuel as [|[|[|fuel]]]; try lia.
  pose proof (head_length riff_size fmt_size fc ch sr br ba bps data_size
                extension Hfmt) as Hhead.
  pose proof (buf_split riff_size fmt_size fc ch sr br ba bps data_size
                extension rest) as Hsplit.
  fold buf in Hsplit.
  assert (Hlen : Z.of_nat (length rest) = Z.of_nat (length buf) - (28 + fmt_size)).
  { rewrite Hsplit, length_app. plain_lia. }
  assert (H16 : forall v, 0 <= v < 65536 -> to_uint16 v = v).
  { intros v Hv. unfold to_uint16, wrap_unsigned. change (2 ^ 16) with 65536.
    apply Z.mod_small. exact Hv. }
  assert (Hresult :
            exists i pos tr',
              r = (true, WAVHeader.mk i buf (Z.of_nat (length buf)) pos
                           (28 + fmt_size) tr')
              /\ is_valid i = true /\ sample_rate i = to_int sr
              /\ channels i = ch /\ bits_per_sample i = bps /\ format i = fc
              /\ data_length i = data_size).
  { subst r. unfold WAVHeader.begin.
    change (WAVHeader.mk zeroed_info buf (Z.of_nat (length buf)) 0
              (WAVHeader.sound_pos h0) (WAVHeader.trail h0))
      with (at_split zeroed_info [] buf (WAVHeader.sound_pos h0)
              (WAVHeader.trail h0)).
    assert (Hdec : (riff_size = 0 \/ 2147418112 <= riff_size)
                   \/ (0 < riff_size < 2147418112
                       /\ 20 + fmt_size + data_size <= riff_size
                       /\ Z.of_nat (length rest) <= data_size)) by lia.
    clear Hcases. destruct Hdec as [Hstream|[Hfinite [Hcover Hshort]]].
    - destruct (scan_streamed p riff_size fmt_size fc ch sr br ba bps data_size
                  extension rest Hfit Hriff Hfmt Hfc Hplain (S (S fuel)) (S fuel)
                  (WAVHeader.sound_pos h0) (WAVHeader.trail h0)
                  ltac:(lia) Hstream) as [tr' Hscan].
      fold buf in Hscan. rewrite Hscan.
      eexists _, _, tr'. unfold at_split. rewrite <- Hsplit, Hhead.
      split; [reflexivity|].
      cbn [is_valid sample_rate channels bits_per_sample format data_length
           set_is_streamed set_data_length fmt_info set_is_valid
           set_bits_per_sample set_block_align set_byte_rate set_sample_rate
           set_channels set_format].
      rewrite (H16 ch Hch), (H16 bps Hbps), (H16 fc Hfc),
        (to_uint32_small sr Hsr).
      repeat split; reflexivity.
    - destruct (scan_finite p riff_size fmt_size fc ch sr br ba bps data_size
                  extension rest Hfit Hriff Hfmt Hfc Hplain (S (S fuel)) fuel
                  (WAVHeader.sound_pos h0) (WAVHeader.trail h0)
                  Hdata ltac:(lia) Hshort) as [pos [tr' Hscan]].
      fold buf in Hscan. rewrite Hscan.
      eexists _, pos, tr'. rewrite Hhead.
      split; [reflexivity|].
      cbn [is_valid sample_rate channels bits_per_sample format data_length
           set_is_streamed set_data_length fmt_info set_is_valid
           set_bits_per_sample set_block_align set_byte_rate set_sample_rate
           set_channels set_format].
      rewrite (H16 ch Hch), (H16 bps Hbps), (H16 fc Hfc),
        (to_uint32_small sr Hsr).
      repeat split; reflexivity. }
  destruct Hresult as [i [pos [tr' [Hr [Hvalid [Hrate [Hchan [Hbits [Hcode Hsize]]]]]]]]].
  rewrite Hr. cbn [fst snd WAVHeader.headerInfo].
  repeat (split; [assumption || reflexivity|]).
  split; [|split; [exact Hlen|intros Hshort; lia]].
  unfold WAVHeader.soundData.
  cbn [WAVHeader.sound_pos WAVHeader.buffer WAVHeader.len fst].
  replace (0 <? 28 + fmt_size) with true by (symmetry; apply Z.ltb_lt; lia).
  cbn [fst]. f_equal. f_equal.
  - rewrite Hsplit. rewrite <- Hhead, Nat2Z.id.
    rewrite drop_app_length. reflexivity.
  - replace (Z.of_nat (length buf) - (28 + fmt_size)) with (Z.of_nat (length rest)) by lia.
    rewrite (to_size_t_small p (Z.of_nat (length rest))) by lia.
    rewrite (to_long_small p (Z.of_nat (length rest))) by lia.
    rewrite Z.max_l by lia.
    apply to_size_t_small. lia.
Qed.

Lemma header_scan_canonical_witness :
  let r := WAVHeader.begin ILP32 3 pcm_header_abcd WAVHeader.fresh in
  fst r = true
  /\ sample_rate (WAVHeader.headerInfo (snd r)) = 44100
  /\ fst (WAVHeader.soundData ILP32 (snd r)) = Some (["a"; "b"; "c"; "d"]%byte, 4).
Proof.
  pose proof (header_scan_canonical ILP32 3 40 16 1 2 44100 176400 4 16 4 []
                ["a"; "b"; "c"; "d"]%byte WAVHeader.fresh
                ltac:(lia) ltac:(vm_compute; reflexivity) ltac:(lia)
                ltac:(reflexivity) ltac:(lia) ltac:(lia) ltac:(lia) ltac:(lia)
                ltac:(lia) ltac:(lia)
                ltac:(right; right; split; [lia | vm_compute; discriminate]))
    as H.
  cbv zeta in H.
  destruct H as [Hdone [_ [Hrate [_ [_ [_ [_ [Hslice _]]]]]]]].
  split; [exact Hdone|]. split; [exact Hrate|exact Hslice].
Defined.

Lemma header_slice_takes_trailer :
  trailer_in_slice ILP32 /\ trailer_in_slice LP64.
Proof.
  split; unfold trailer_in_slice; eexists; eexists;
    (split; [vm_compute; reflexivity|]);
    repeat (split; [vm_compute; reflexivity|]); vm_compute; reflexivity.
Qed.

(** ** The header of an encoder session, read back *)

Lemma byte_of_Z_mod (z w : Z) : 8 <= w -> byte_of_Z (z mod 2 ^ w) = byte_of_Z z.
Proof.
  intros Hw. unfold byte_of_Z.
  rewrite (Z.mod_mod_divide z (2 ^ w) 256); [reflexivity|].
  exists (2 ^ (w - 8)). change 256 with (2 ^ 8).
  rewrite <- Z.pow_add_r by lia. f_equal. lia.
Qed.

Lemma le_bytes_mod (n : nat) :
  forall w v, 8 * Z.of_nat n <= w -> le_bytes n (v mod 2 ^ w) = le_bytes n v.
Proof.
  induction n as [|n IH]; intros w v Hw; cbn [le_bytes]; [reflexivity|].
  rewrite byte_of_Z_mod by lia. f_equal.
  replace (2 ^ w) with (256 * 2 ^ (w - 8)).
  - rewrite Z.rem_mul_r by (try apply Z.pow_nonzero; lia || (apply Z.pow_pos_nonneg; lia)).
    rewrite (Z.mul_comm 256), Z.div_add by lia.
    rewrite (Z.div_small (v mod 256)) by (apply Z.mod_pos_bound; lia).
    rewrite Z.add_0_l. apply IH. lia.
  - change 256 with (2 ^ 8). rewrite <- Z.pow_add_r by lia. f_equal. lia.
Qed.

Lemma encoded_header_shape (ai : WAVAudioInfo) :
  encoded_header ai
  = wave_buffer (to_uint32 (file_size ai - 8)) 16 (format ai) (channels ai)
      (sample_rate ai)
      (to_uint32 (Z.quot (to_int (to_int (sample_rate ai * bits_per_sample ai)
                                  * channels ai)) 8))
      (to_uint32 (Z.quot (to_int (channels ai * bits_per_sample ai)) 8))
      (bits_per_sample ai) [] (to_uint32 (file_size ai - 44)) [].
Proof.
  unfold encoded_header, WAVEncoder.writeDataHeader, WAVEncoder.writeFMT,
    WAVEncoder.writeRiffHeader, WAVEncoder.write32, WAVEncoder.write16.
  repeat (rewrite send_all by reflexivity; cbn [taken flushes accepts]).
  cbn [snd taken file_size set_file_size unbounded_sink app].
  unfold wave_buffer, riff_header, fmt_chunk, data_header.
  unfold to_uint16, wrap_unsigned.
  rewrite !(le_bytes_mod 4 64) by lia.
  rewrite !(le_bytes_mod 2 16) by lia.
  rewrite <- !app_assoc. cbn [app]. reflexivity.
Qed.

Lemma first_write_sends_header (p : platform) (ai : WAVAudioInfo)
    (e0 : WAVEncoder.t) :
  WAVEncoder.sink_bytes
    (snd (WAVEncoder.write p [] (WAVEncoder.begin_with unbounded_sink ai e0)))
  = encoded_header ai.
Proof.
  unfold WAVEncoder.begin_with, WAVEncoder.begin, WAVEncoder.write,
    WAVEncoder.sink_bytes.
  cbn [is_streamed data_length set_byte_rate set_block_align set_is_streamed
       set_data_length WAVEncoder.stream_ptr WAVEncoder.audioInfo
       WAVEncoder.size_limit WAVEncoder.header_written WAVEncoder.is_open].
  assert (Hwrite : forall n s, taken (snd (Print_write [] n s)) = taken s).
  { intros n s. unfold Print_write. cbn [snd taken].
    rewrite firstn_nil, app_nil_r. reflexivity. }
  assert (Hhdr : forall ai',
             (file_size ai' = file_size ai /\ format ai' = format ai
              /\ channels ai' = channels ai /\ sample_rate ai' = sample_rate ai
              /\ bits_per_sample ai' = bits_per_sample ai) ->
             taken (snd (WAVEncoder.writeDataHeader ai'
                           (WAVEncoder.writeFMT ai'
                              (WAVEncoder.writeRiffHeader ai' unbounded_sink))))
             = encoded_header ai).
  { intros ai' [Hfs [Hfc [Hch [Hsr Hbps]]]].
    change (taken (snd (WAVEncoder.writeDataHeader ai'
                          (WAVEncoder.writeFMT ai'
                             (WAVEncoder.writeRiffHeader ai' unbounded_sink)))))
      with (encoded_header ai').
    rewrite !encoded_header_shape, Hfs, Hfc, Hch, Hsr, Hbps. reflexivity. }
  destruct (is_streamed ai || (data_length ai =? 0) || (2147418112 <=? data_length ai));
    cbn [negb WAVEncoder.stream_ptr WAVEncoder.audioInfo WAVEncoder.size_limit
         WAVEncoder.header_written WAVEncoder.is_open].
  all: match goal with
       | |- context [WAVEncoder.writeDataHeader ?a ?s] =>
           pose proof (Hhdr a ltac:(repeat split; reflexivity)) as Hgot;
           destruct (WAVEncoder.writeDataHeader a s) as [ai1 s1] eqn:Ehdr
       end;
       cbn [snd] in Hgot.
  - assert (Hmode : is_streamed ai1 = true).
    { unfold WAVEncoder.writeDataHeader in Ehdr. inversion Ehdr. reflexivity. }
    rewrite Hmode.
    pose proof (Hwrite (Z.of_nat (length (@nil byte))) s1) as Hw.
    destruct (Print_write [] (Z.of_nat (length (@nil byte))) s1) as [n s2].
    cbn [snd WAVEncoder.stream_ptr] in Hw |- *. rewrite Hw. exact Hgot.
  - destruct (is_streamed ai1).
    + pose proof (Hwrite (Z.of_nat (length (@nil byte))) s1) as Hw.
      destruct (Print_write [] (Z.of_nat (length (@nil byte))) s1) as [n s2].
      cbn [snd WAVEncoder.stream_ptr] in Hw |- *. rewrite Hw. exact Hgot.
    + destruct (0 <? data_length ai).
      * match goal with
        | |- context [Print_write [] ?n s1] =>
            pose proof (Hwrite n s1) as Hw;
            destruct (Print_write [] n s1) as [k s2]
        end.
        cbn [snd] in Hw.
        match goal with
        | |- context [if ?c then _ else _] => destruct c
        end; cbn [snd WAVEncoder.stream_ptr Print_flush taken];
          rewrite Hw; exact Hgot.
      * cbn [snd WAVEncoder.stream_ptr]. exact Hgot.
Qed.
Lemma to_int_of_uint32 (z : Z) :
  - 2147483648 <= z < 2147483648 -> to_int (to_uint32 z) = z.
Proof.
  intros Hz. unfold to_int, to_uint32, wrap_signed, wrap_unsigned.
  change (2 ^ (32 - 1)) with 2147483648. change (2 ^ 32) with 4294967296.
  rewrite Zplus_mod_idemp_l. rewrite Z.mod_small; lia.
Qed.

Lemma to_uint16_small (z : Z) : 0 <= z < 65536 -> to_uint16 z = z.
Proof.
  intros Hz. unfold to_uint16, wrap_unsigned. change (2 ^ 16) with 65536.
  apply Z.mod_small. exact Hz.
Qed.

(** The scan of a canonical 44-byte header whose sizes describe a file of
    [file_bytes] bytes, at least the header itself. *)
Lemma scan_plain_header (p : platform) (fuel : nat)
    (file_bytes ch sr br ba bps : Z) (h0 : WAVHeader.t) :
  (3 <= fuel)%nat ->
  44 <= file_bytes < 4294967296 ->
  let r := WAVHeader.begin p fuel
             (wave_buffer (file_bytes - 8) 16 1 ch sr br ba bps []
                (file_bytes - 44) []) h0 in
  fst r = true
  /\ exists i,
      WAVHeader.headerInfo (snd r)
      = set_data_length (file_bytes - 44) (fmt_info i 1 ch sr br ba bps)
      \/ WAVHeader.headerInfo (snd r)
         = set_is_streamed true
             (set_data_length (file_bytes - 44) (fmt_info i 1 ch sr br ba bps)).
Proof.
  intros Hfuel Hfs r. subst r.
  destruct fuel as [|[|[|fuel]]]; try lia.
  set (L := file_bytes - 8). set (D := file_bytes - 44).
  assert (Hfit : Z.of_nat (length (wave_buffer L 16 1 ch sr br ba bps [] D []))
                 < 2147483648).
  { unfold wave_buffer, riff_header, fmt_chunk, data_header. len_solve. }
  unfold WAVHeader.begin.
  match goal with
  | |- context [WAVHeader.mk zeroed_info ?b (Z.of_nat (length ?b)) 0 ?s ?t] =>
      change (WAVHeader.mk zeroed_info b (Z.of_nat (length b)) 0 s t)
        with (at_split zeroed_info [] b s t)
  end.
  destruct (Z.le_gt_cases 2147418112 L) as [Hstream|Hfinite].
  - destruct (scan_streamed p L 16 1 ch sr br ba bps D [] [] Hfit ltac:(lia)
                eq_refl ltac:(lia) ltac:(lia) (S (S fuel)) (S fuel)
                (WAVHeader.sound_pos h0) (WAVHeader.trail h0)
                ltac:(lia) (or_intror Hstream)) as [tr' Hscan].
    rewrite Hscan. split; [reflexivity|].
    eexists. right. reflexivity.
  - destruct (Z.eq_dec D 0) as [Hzero|Hsome].
    + destruct (scan_zero_data p L 16 1 ch sr br ba bps D [] [] Hfit ltac:(lia)
                  eq_refl ltac:(lia) ltac:(lia) (S (S fuel)) (S fuel)
                  (WAVHeader.sound_pos h0) (WAVHeader.trail h0)
                  Hzero ltac:(lia)) as [tr' Hscan].
      rewrite Hscan. split; [reflexivity|].
      eexists. right. reflexivity.
    + destruct (scan_finite p L 16 1 ch sr br ba bps D [] [] Hfit ltac:(lia)
                  eq_refl ltac:(lia) ltac:(lia) (S (S fuel)) fuel
                  (WAVHeader.sound_pos h0) (WAVHeader.trail h0)
                  ltac:(lia) ltac:(lia) ltac:(cbn [length]; lia))
        as [pos [tr' Hscan]].
      rewrite Hscan. split; [reflexivity|].
      eexists. left. reflexivity.
Qed.

(** C2 (as amended).  For a descriptor with the PCM format code, a
    channel count and bits per sample that fit the 16-bit header fields,
    and a [file_size] of at least the 44 header bytes: the header that
    [WAVEncoder::begin] and a first write emit, scanned by
    [WAVHeader::begin], gives back the sample rate, channel count, bits
    per sample and format code. *)
Theorem encode_decode_roundtrip (p : platform) (fuel : nat) (ai : WAVAudioInfo)
    (e0 : WAVEncoder.t) :
  (3 <= fuel)%nat ->
  format ai = WAV_FORMAT_PCM ->
  0 <= channels ai < 65536 ->
  0 <= bits_per_sample ai < 65536 ->
  - 2147483648 <= sample_rate ai < 2147483648 ->
  44 <= file_size ai < 4294967296 ->
  let e1 := snd (WAVEncoder.write p []
                   (WAVEncoder.begin_with unbounded_sink ai e0)) in
  let r := WAVHeader.begin p fuel (WAVEncoder.sink_bytes e1) WAVHeader.fresh in
  fst r = true
  /\ sample_rate (WAVHeader.headerInfo (snd r)) = sample_rate ai
  /\ channels (WAVHeader.headerInfo (snd r)) = channels ai
  /\ bits_per_sample (WAVHeader.headerInfo (snd r)) = bits_per_sample ai
  /\ format (WAVHeader.headerInfo (snd r)) = format ai.
Proof.
  intros Hfuel Hpcm Hch Hbps Hsr Hfs e1 r. subst r e1.
  rewrite first_write_sends_header, encoded_header_shape.
  rewrite (to_uint32_small (file_size ai - 8)) by lia.
  rewrite (to_uint32_small (file_size ai - 44)) by lia.
  rewrite Hpcm. unfold WAV_FORMAT_PCM.
  match goal with
  | |- context [wave_buffer _ 16 1 _ _ ?br ?ba _ [] _ []] =>
      destruct (scan_plain_header p fuel (file_size ai) (channels ai)
                  (sample_rate ai) br ba (bits_per_sample ai) WAVHeader.fresh
                  Hfuel Hfs) as [Hdone [i Hinfo]]
  end.
  split; [exact Hdone|].
  destruct Hinfo as [Hinfo|Hinfo]; rewrite Hinfo; unfold fmt_info;
    cbn [sample_rate channels bits_per_sample format set_is_valid
         set_bits_per_sample set_block_align set_byte_rate set_sample_rate
         set_channels set_format set_data_length set_is_streamed];
    rewrite (to_int_of_uint32 _ Hsr), (to_uint16_small _ Hch),
      (to_uint16_small _ Hbps);
    repeat split; reflexivity.
Qed.

Lemma encode_decode_roundtrip_witness :
  let ai := WAVEncoder.defaultConfig 44100 16 2 0 0 in
  let e1 := snd (WAVEncoder.write ILP32 []
                   (WAVEncoder.begin_with unbounded_sink ai
                      (WAVEncoder.make ai 0 false))) in
  let r := WAVHeader.begin ILP32 3 (WAVEncoder.sink_bytes e1) WAVHeader.fresh in
  fst r = true
  /\ sample_rate (WAVHeader.headerInfo (snd r)) = 44100
  /\ channels (WAVHeader.headerInfo (snd r)) = 2
  /\ bits_per_sample (WAVHeader.headerInfo (snd r)) = 16
  /\ format (WAVHeader.headerInfo (snd r)) = 1.
Proof.
  exact (encode_decode_roundtrip ILP32 3 (WAVEncoder.defaultConfig 44100 16 2 0 0)
           (WAVEncoder.make (WAVEncoder.defaultConfig 44100 16 2 0 0) 0 false)
           ltac:(lia) eq_refl ltac:(cbn; lia) ltac:(cbn; lia) ltac:(cbn; lia)
           ltac:(vm_compute; split; [discriminate|reflexivity])).
Defined.

Lemma short_file_not_read_back :
  short_file_lost ILP32 /\ short_file_lost LP64.
Proof.
  split; unfold short_file_lost; cbv zeta;
    repeat (split; [vm_compute; reflexivity|]); reflexivity.
Qed.

(** ** The cursor of a scan *)

Create HintDb scan.

Lemma keeps_ret {A} (n : Z) (a : A) : keeps n (mret a).
Proof. intros h Hh. exact Hh. Qed.

Lemma keeps_bind {A B} (n : Z) (m : WAVHeader.M A) (k : A -> WAVHeader.M B) :
  keeps n m -> (forall a, keeps n (k a)) -> keeps n (m ≫= k).
Proof.
  intros Hm Hk h Hh. unfold mbind, WAVHeader.M_bind.
  specialize (Hm h Hh). destruct (m h) as [a h']. exact (Hk a h' Hm).
Qed.

Lemma keeps_if {A} (n : Z) (c : bool) (m1 m2 : WAVHeader.M A) :
  keeps n m1 -> keeps n m2 -> keeps n (if c then m1 else m2).
Proof. intros H1 H2. destruct c; assumption. Qed.

Lemma keeps_getChar (n : Z) : keeps n WAVHeader.getChar.
Proof.
  intros h [Hlen [Hpos Htr]]. unfold WAVHeader.getChar.
  destruct (Z.ltb_spec (WAVHeader.data_pos h) (WAVHeader.len h)) as [Hin|Hout];
    cbn [snd]; unfold scanning;
    cbn [WAVHeader.len WAVHeader.data_pos WAVHeader.trail].
  - repeat split; try lia.
    apply Forall_cons. split; [cbn; lia|exact Htr].
  - repeat split; try lia.
    apply Forall_cons. split; [exact I|exact Htr].
Qed.

Lemma to_size_t_nonneg (p : platform) (z : Z) : 0 <= to_size_t p z.
Proof.
  unfold to_size_t, wrap_unsigned.
  apply Z.mod_pos_bound. destruct p; reflexivity.
Qed.

Lemma keeps_seek (p : platform) (n off : Z) (o : WAVHeader.origin) :
  keeps n (WAVHeader.seek p off o).
Proof.
  intros h [Hlen [Hpos Htr]]. unfold WAVHeader.seek.
  destruct o; cbn [snd]; unfold scanning;
    cbn [WAVHeader.len WAVHeader.data_pos WAVHeader.trail].
  - repeat split; [exact Hlen|apply to_size_t_nonneg|].
    apply Forall_cons. split; [exact I|exact Htr].
  - repeat split; [exact Hlen|apply to_size_t_nonneg|].
    apply Forall_cons. split; [exact I|exact Htr].
  - repeat split; assumption.
Qed.

Lemma keeps_eof (p : platform) (n : Z) : keeps n (WAVHeader.eof p).
Proof. intros h Hh. exact Hh. Qed.

Lemma keeps_tell (n : Z) : keeps n WAVHeader.tell.
Proof. intros h Hh. exact Hh. Qed.

Lemma keeps_info (n : Z) : keeps n WAVHeader.info.
Proof. intros h Hh. exact Hh. Qed.

Lemma keeps_with_info (n : Z) (f : WAVAudioInfo -> WAVAudioInfo) :
  keeps n (WAVHeader.with_info f).
Proof. intros h Hh. exact Hh. Qed.

Lemma keeps_set_sound_pos (n v : Z) : keeps n (WAVHeader.set_sound_pos v).
Proof. intros h Hh. exact Hh. Qed.

#[local] Hint Resolve keeps_ret keeps_getChar keeps_seek keeps_eof keeps_tell
  keeps_info keeps_with_info keeps_set_sound_pos : scan.

Ltac keeps_auto :=
  repeat first
    [ apply keeps_bind; [|intros ?]
    | apply keeps_if
    | solve [auto with scan]
    | match goal with
      | |- keeps _ (match ?x with _ => _ end) => destruct x
      end ].

Lemma keeps_read_tag (n : Z) : keeps n WAVHeader.read_tag.
Proof. unfold WAVHeader.read_tag. keeps_auto. Qed.

Lemma keeps_read_int32 (n : Z) : keeps n WAVHeader.read_int32.
Proof. unfold WAVHeader.read_int32. keeps_auto. Qed.

Lemma keeps_read_int16 (n : Z) : keeps n WAVHeader.read_int16.
Proof. unfold WAVHeader.read_int16. keeps_auto. Qed.

Lemma keeps_skip (n k : Z) : keeps n (WAVHeader.skip k).
Proof.
  unfold WAVHeader.skip. induction (Z.to_nat k) as [|c IH];
    cbn [WAVHeader.skip_loop]; keeps_auto.
Qed.

#[local] Hint Resolve keeps_read_tag keeps_read_int32 keeps_read_int16
  keeps_skip : scan.

Lemma keeps_chunk_body (p : platform) (n remaining : Z) :
  keeps n (WAVHeader.chunk_body p remaining).
Proof. unfold WAVHeader.chunk_body. keeps_auto. Qed.

#[local] Hint Resolve keeps_chunk_body : scan.

Lemma keeps_chunk_loop (p : platform) (n : Z) (fuel : nat) :
  forall remaining, keeps n (WAVHeader.chunk_loop p fuel remaining).
Proof.
  induction fuel as [|fuel IH]; intros remaining; cbn [WAVHeader.chunk_loop];
    keeps_auto.
Qed.

#[local] Hint Resolve keeps_chunk_loop : scan.

Lemma keeps_riff_body (p : platform) (n : Z) (inner : nat) :
  keeps n (WAVHeader.riff_body p inner).
Proof. unfold WAVHeader.riff_body. keeps_auto. Qed.

#[local] Hint Resolve keeps_riff_body : scan.

Lemma keeps_riff_loop (p : platform) (n : Z) (fuel inner : nat) :
  keeps n (WAVHeader.riff_loop p fuel inner).
Proof.
  induction fuel as [|fuel IH]; cbn [WAVHeader.riff_loop]; keeps_auto.
Qed.

(** Every byte a scan reads lies inside the buffer, however far the scan
    gets. *)
Lemma begin_fetches_in_bounds (p : platform) (fuel : nat) (buf : list byte)
    (h : WAVHeader.t) :
  fetches_in_bounds (Z.of_nat (length buf)) (WAVHeader.trail h) ->
  fetches_in_bounds (Z.of_nat (length buf))
    (WAVHeader.trail (snd (WAVHeader.begin p fuel buf h))).
Proof.
  intros Htr. unfold WAVHeader.begin.
  apply (keeps_riff_loop p (Z.of_nat (length buf)) fuel fuel).
  unfold scanning. cbn [WAVHeader.len WAVHeader.data_pos WAVHeader.trail].
  repeat split; [lia|exact Htr].
Qed.

(** A read outside the buffer gives the sentinel and leaves the cursor
    where it is. *)
Lemma getChar_sentinel (h : WAVHeader.t) :
  WAVHeader.len h <= WAVHeader.data_pos h ->
  fst (WAVHeader.getChar h) = -1
  /\ WAVHeader.data_pos (snd (WAVHeader.getChar h)) = WAVHeader.data_pos h.
Proof. intros Hp. rewrite (getChar_past h Hp). split; reflexivity. Qed.

(** The end of a buffer that is not empty is signalled from its last
    byte on. *)
Lemma eof_signal (p : platform) (h : WAVHeader.t) :
  1 <= WAVHeader.len h < 4294967296 ->
  fst (WAVHeader.eof p h) = (WAVHeader.len h - 1 <=? WAVHeader.data_pos h).
Proof.
  intros Hlen. unfold WAVHeader.eof. cbn [fst].
  rewrite to_size_t_small by lia. reflexivity.
Qed.

(** C9 (the code departs from the specification).  On a target with a 32-bit
    [long], the scan of [junk_buffer] ends, reads only inside the buffer,
    and moves its cursor from offset 8 back to offset 7: the length 0 of
    the first chunk is replaced by [~0], which [seek] receives as -1. *)
Theorem cursor_steps_back :
  let r := WAVHeader.begin ILP32 10 junk_buffer WAVHeader.fresh in
  fst r = true
  /\ rev (WAVHeader.trail (snd r))
     = [WAVHeader.Fetch 0; WAVHeader.Fetch 1; WAVHeader.Fetch 2;
        WAVHeader.Fetch 3; WAVHeader.Fetch 4; WAVHeader.Fetch 5;
        WAVHeader.Fetch 6; WAVHeader.Fetch 7; WAVHeader.Moved 8 7;
        WAVHeader.Fetch 7; WAVHeader.Fetch 8; WAVHeader.Fetch 9;
        WAVHeader.Sentinel 10]
  /\ ~ cursor_monotone (WAVHeader.trail (snd r)).
Proof.
  cbv zeta. split; [vm_compute; reflexivity|].
  split; [vm_compute; reflexivity|].
  intros Hmono. unfold cursor_monotone in Hmono.
  rewrite Forall_forall in Hmono.
  specialize (Hmono (WAVHeader.Moved 8 7)).
  cbn [moves_forward] in Hmono. apply Hmono; [|reflexivity].
  vm_compute. repeat first [left; reflexivity | right].
Qed.

(** On a target with a 64-bit [long] the same scan moves forward only. *)
Lemma cursor_forward_on_LP64 :
  let r := WAVHeader.begin LP64 10 junk_buffer WAVHeader.fresh in
  fst r = true
  /\ rev (WAVHeader.trail (snd r))
     = [WAVHeader.Fetch 0; WAVHeader.Fetch 1; WAVHeader.Fetch 2;
        WAVHeader.Fetch 3; WAVHeader.Fetch 4; WAVHeader.Fetch 5;
        WAVHeader.Fetch 6; WAVHeader.Fetch 7; WAVHeader.Moved 8 4294967303].
Proof. cbv zeta. split; vm_compute; reflexivity. Qed.

(** For the empty buffer [len - 1] wraps around: the end is not
    signalled at offset 0, and the scan reads eight sentinels. *)
Lemma eof_of_empty_buffer :
  forall p : platform,
    fst (WAVHeader.eof p (WAVHeader.mk zeroed_info [] 0 0 0 [])) = false.
Proof. intros p. destruct p; reflexivity. Qed.

(** ** A scan that never ends *)

Lemma looping_first_chunk (inner : nat) (i : WAVAudioInfo)
    (tr : list WAVHeader.access) :
  exists tr',
    WAVHeader.riff_body ILP32 inner (looping_at 0 i tr)
    = (WAVHeader.Next 0, looping_at 17 i tr').
Proof.
  exists (WAVHeader.trail
            (snd (WAVHeader.riff_body ILP32 inner (looping_at 0 i tr)))).
  vm_compute. reflexivity.
Qed.

Lemma looping_second_chunk (inner : nat) (i : WAVAudioInfo)
    (tr : list WAVHeader.access) :
  exists tr',
    WAVHeader.riff_body ILP32 (S (S inner)) (looping_at 17 i tr)
    = (WAVHeader.Next 0, looping_at 0 (set_is_streamed true i) tr').
Proof.
  exists (WAVHeader.trail
            (snd (WAVHeader.riff_body ILP32 (S (S inner)) (looping_at 17 i tr)))).
  vm_compute. reflexivity.
Qed.

Lemma looping_forever (inner : nat) (fuel : nat) :
  forall i tr,
    fst (WAVHeader.riff_loop ILP32 fuel (S (S inner)) (looping_at 0 i tr)) = false
    /\ fst (WAVHeader.riff_loop ILP32 fuel (S (S inner)) (looping_at 17 i tr))
       = false.
Proof.
  induction fuel as [|fuel IH]; intros i tr.
  - split; reflexivity.
  - rewrite !riff_loop_S. split.
    + destruct (looping_first_chunk (S (S inner)) i tr) as [tr' Hbody].
      assert (Heof : WAVHeader.eof ILP32 (looping_at 0 i tr)
                     = (false, looping_at 0 i tr)) by reflexivity.
      rewrite (bind_step _ _ _ _ _ Heof). cbv beta iota.
      rewrite (bind_step _ _ _ _ _ Hbody). cbv beta iota.
      apply IH.
    + destruct (looping_second_chunk inner i tr) as [tr' Hbody].
      assert (Heof : WAVHeader.eof ILP32 (looping_at 17 i tr)
                     = (false, looping_at 17 i tr)) by reflexivity.
      rewrite (bind_step _ _ _ _ _ Heof). cbv beta iota.
      rewrite (bind_step _ _ _ _ _ Hbody). cbv beta iota.
      apply IH.
Qed.

Lemma scan_never_ends (fuel : nat) :
  fst (WAVHeader.begin ILP32 fuel looping_buffer WAVHeader.fresh) = false.
Proof.
  destruct fuel as [|[|fuel]]; [reflexivity|reflexivity|].
  exact (proj1 (looping_forever fuel (S (S fuel)) zeroed_info [])).
Qed.

(** The first [write] of a decoder given [looping_buffer] does not
    return either. *)
Lemma decoder_write_never_returns (fuel : nat) (o : Print) (a : bool) :
  WAVDecoder.write ILP32 fuel looping_buffer
    (WAVDecoder.begin (WAVDecoder.make o a)) = None.
Proof.
  unfold WAVDecoder.write, WAVDecoder.begin, WAVDecoder.make.
  cbn [WAVDecoder.active WAVDecoder.isFirst WAVDecoder.header].
  pose proof (scan_never_ends fuel) as Hscan.
  destruct (WAVHeader.begin ILP32 fuel looping_buffer WAVHeader.fresh)
    as [finished h].
  cbn [fst] in Hscan. rewrite Hscan. reflexivity.
Qed.

(** With a 64-bit [long] the scan of the same buffer ends. *)
Lemma looping_buffer_on_LP64 :
  fst (WAVHeader.begin LP64 3 looping_buffer WAVHeader.fresh) = true.
Proof. vm_compute. reflexivity. Qed.


(** * Further properties of the code *)

(** ** The converters *)

Lemma for_int_upto_whole {T} (body : nat -> list (T * T) -> option (list (T * T)))
    (g : T * T -> T * T) (src : list (T * T)) :
  (forall j s f, s !! j = Some f -> body j s = Some (<[j := g f]> s)) ->
  Z.of_nat (length src) <= INT32_MAX ->
  for_int_upto (length src) body src = Some (map g src).
Proof.
  intros Hbody Hlen. unfold for_int_upto.
  destruct (Z.leb_spec (Z.of_nat (length src)) INT32_MAX) as [_|Hgt]; [|lia].
  apply for_upto_whole. exact Hbody.
Qed.

Lemma dac_frame {T} `{Sample T} (j : nat) (src : list (T * T)) (f : T * T) :
  src !! j = Some f ->
  ConverterToInternalDACFormat.convert_frame j src
  = Some (<[j := (store (num_add (load (fst f)) (Int 32768)),
                  store (num_add (load (snd f)) (Int 32768)))]> src).
Proof.
  intros Hj. pose proof (lookup_lt_Some _ _ _ Hj) as Hlt.
  destruct f as [l r].
  unfold ConverterToInternalDACFormat.convert_frame, get, set.
  rewrite Hj.
  frame_cases Hlt.
Qed.

Lemma dac_sample (x : Z) :
  int16_range x ->
  @store Z int16_sample (num_add (@load Z int16_sample x) (Int 32768))
  = offset_binary x.
Proof.
  unfold int16_range, offset_binary. intros Hx.
  cbn [store load int16_sample num_add store_int].
  rewrite to_int_small by lia.
  unfold to_int16, wrap_signed.
  change (2 ^ (16 - 1)) with 32768. change (2 ^ 16) with 65536.
  destruct (Z.ltb_spec x 0) as [Hneg|Hpos].
  - rewrite Z.mod_small by lia. lia.
  - replace (x + 32768 + 32768) with (x + 1 * 65536) by lia.
    rewrite Z.mod_add by lia. rewrite Z.mod_small by lia. lia.
Qed.

Lemma offset_binary_range (x : Z) : int16_range x -> int16_range (offset_binary x).
Proof.
  unfold int16_range, offset_binary. intros Hx.
  destruct (Z.ltb_spec x 0); lia.
Qed.

Lemma offset_binary_twice (x : Z) :
  int16_range x -> offset_binary (offset_binary x) = x.
Proof.
  unfold int16_range, offset_binary. intros Hx.
  destruct (Z.ltb_spec x 0) as [Hneg|Hpos].
  - destruct (Z.ltb_spec (x + 32768) 0); lia.
  - destruct (Z.ltb_spec (x - 32768) 0); lia.
Qed.

Lemma offset_binary_unsigned (x : Z) :
  int16_range x -> to_uint16 (offset_binary x) = x + 32768.
Proof.
  unfold int16_range, offset_binary, to_uint16, wrap_unsigned. intros Hx.
  change (2 ^ 16) with 65536.
  destruct (Z.ltb_spec x 0) as [Hneg|Hpos].
  - apply Z.mod_small. lia.
  - replace (x - 32768) with (x + 32768 + (-1) * 65536) by lia.
    rewrite Z.mod_add by lia. apply Z.mod_small. lia.
Qed.

Lemma dac_convert_int16 (src : list (Z * Z)) :
  int16_frames src ->
  Z.of_nat (length src) <= INT32_MAX ->
  @ConverterToInternalDACFormat.convert Z int16_sample src (length src)
  = Some (map (fun f => (offset_binary (fst f), offset_binary (snd f))) src).
Proof.
  intros Hsrc Hlen. unfold ConverterToInternalDACFormat.convert.
  rewrite (for_int_upto_whole _
             (fun f => (@store Z int16_sample
                          (num_add (@load Z int16_sample (fst f)) (Int 32768)),
                        @store Z int16_sample
                          (num_add (@load Z int16_sample (snd f)) (Int 32768)))))
    by (try exact Hlen; intros j s f; apply dac_frame).
  f_equal. apply map_ext_in. intros f Hf.
  unfold int16_frames in Hsrc. rewrite Forall_forall in Hsrc.
  destruct (Hsrc f) as [Hl Hr].
  { apply list_elem_of_In. exact Hf. }
  rewrite !dac_sample by assumption. reflexivity.
Qed.

(** X1.  On a buffer of 16-bit samples
    [ConverterToInternalDACFormat::convert] replaces every sample of
    both channels by its offset-binary code, the 16-bit value whose
    unsigned reading is the sample plus 32768; a second pass over the
    result gives the buffer back. *)
Theorem dac_convert_is_offset_binary (src : list (Z * Z)) :
  int16_frames src ->
  Z.of_nat (length src) <= INT32_MAX ->
  let out := map (fun f => (offset_binary (fst f), offset_binary (snd f))) src in
  @ConverterToInternalDACFormat.convert Z int16_sample src (length src) = Some out
  /\ Forall2 (fun f g => to_uint16 (fst g) = fst f + 32768
                         /\ to_uint16 (snd g) = snd f + 32768) src out
  /\ @ConverterToInternalDACFormat.convert Z int16_sample out (length out) = Some src.
Proof.
  intros Hsrc Hlen out. subst out.
  split; [apply dac_convert_int16; assumption|].
  split.
  - unfold int16_frames in Hsrc.
    induction Hsrc as [|f src [Hl Hr] Hsrc IH]; cbn [map]; constructor.
    + cbn [fst snd]. split; apply offset_binary_unsigned; assumption.
    + apply IH. cbn [length] in Hlen. lia.
  - rewrite dac_convert_int16.
    + f_equal. rewrite map_map. rewrite <- (map_id src) at 2.
      apply map_ext_in. intros [l r] Hf. cbn [fst snd].
      unfold int16_frames in Hsrc. rewrite Forall_forall in Hsrc.
      destruct (Hsrc (l, r)) as [Hl Hr].
      { apply list_elem_of_In. exact Hf. }
      cbn [fst snd] in Hl, Hr.
      rewrite !offset_binary_twice by assumption. reflexivity.
    + unfold int16_frames in *. rewrite Forall_forall in *.
      intros g Hg. apply list_elem_of_In, in_map_iff in Hg.
      destruct Hg as [f [<- Hf]]. cbn [fst snd].
      destruct (Hsrc f) as [Hl Hr]; [apply list_elem_of_In; exact Hf|].
      split; apply offset_binary_range; assumption.
    + rewrite length_map. exact Hlen.
Qed.

Lemma dac_convert_is_offset_binary_witness :
  @ConverterToInternalDACFormat.convert Z int16_sample [(-32768, 0); (-1, 32767)] 2
  = Some [(0, -32768); (32767, -1)].
Proof.
  apply (dac_convert_is_offset_binary [(-32768, 0); (-1, 32767)]).
  - unfold int16_frames, int16_range. repeat constructor; cbn; lia.
  - vm_compute. discriminate.
Defined.

(** *** [ConverterFillLeftAndRight] *)

Lemma scan_channel_left {T} `{Sample T} (todo : list (T * T)) :
  forall (done : list (T * T)) (flag : bool),
    Z.of_nat (length (done ++ todo)) <= INT32_MAX ->
    ConverterFillLeftAndRight.scan_channel (length todo) (length done) 0
      (done ++ todo) flag
    = Some (channel_empty fst todo && flag).
Proof.
  induction todo as [|f todo IH]; intros done flag Hlen.
  - reflexivity.
  - cbn [length ConverterFillLeftAndRight.scan_channel].
    unfold get. rewrite list_lookup_middle by reflexivity.
    cbn [mbind option_bind channel_empty forallb].
    unfold is_zero.
    destruct (num_eqb (load (fst f)) (Int 0)); cbn [negb andb]; [|reflexivity].
    rewrite length_app in Hlen. cbn [length] in Hlen.
    destruct (Z.eqb_spec (Z.of_nat (length done)) INT32_MAX) as [Heq|_]; [lia|].
    replace (done ++ f :: todo) with ((done ++ [f]) ++ todo)
      by (rewrite <- app_assoc; reflexivity).
    replace (S (length done)) with (length (done ++ [f]))
      by (rewrite length_app; cbn [length]; lia).
    apply IH. rewrite !length_app. cbn [length]. lia.
Qed.

Lemma scan_channel_right {T} `{Sample T} (todo : list (T * T)) :
  forall (done : list (T * T)) (flag : bool),
    Z.of_nat (length (done ++ todo)) <= INT32_MAX ->
    ConverterFillLeftAndRight.scan_channel (length todo) (length done) 1
      (done ++ todo) flag
    = Some (channel_empty snd todo && flag).
Proof.
  induction todo as [|f todo IH]; intros done flag Hlen.
  - reflexivity.
  - cbn [length ConverterFillLeftAndRight.scan_channel].
    unfold get. rewrite list_lookup_middle by reflexivity.
    cbn [mbind option_bind channel_empty forallb].
    unfold is_zero.
    destruct (num_eqb (load (snd f)) (Int 0)); cbn [negb andb]; [|reflexivity].
    rewrite length_app in Hlen. cbn [length] in Hlen.
    destruct (Z.eqb_spec (Z.of_nat (length done)) INT32_MAX) as [Heq|_]; [lia|].
    replace (done ++ f :: todo) with ((done ++ [f]) ++ todo)
      by (rewrite <- app_assoc; reflexivity).
    replace (S (length done)) with (length (done ++ [f]))
      by (rewrite length_app; cbn [length]; lia).
    apply IH. rewrite !length_app. cbn [length]. lia.
Qed.

Lemma fill_setup {T} `{Sample T} (cv : ConverterFillLeftAndRight.t)
    (src : list (T * T)) :
  Z.of_nat (length src) <= INT32_MAX ->
  ConverterFillLeftAndRight.setup cv src (length src) = Some (decided cv src).
Proof.
  intros Hlen. unfold ConverterFillLeftAndRight.setup, decided.
  destruct cv as [s l r]. cbn [ConverterFillLeftAndRight.is_setup
    ConverterFillLeftAndRight.left_empty ConverterFillLeftAndRight.right_empty].
  destruct s; cbn [negb]; [reflexivity|].
  rewrite (scan_channel_left src [] l) by exact Hlen.
  cbn [mbind option_bind].
  rewrite (scan_channel_right src [] r) by exact Hlen.
  cbn [mbind option_bind].
  destruct (channel_empty snd src && r), (channel_empty fst src && l); reflexivity.
Qed.

Lemma left_from_right_at {T} (j : nat) (src : list (T * T)) (f : T * T) :
  src !! j = Some f ->
  ConverterFillLeftAndRight.left_from_right j src = Some (<[j := (snd f, snd f)]> src).
Proof.
  intros Hj. unfold ConverterFillLeftAndRight.left_from_right, get, set.
  rewrite Hj. reflexivity.
Qed.

Lemma right_from_left_at {T} (j : nat) (src : list (T * T)) (f : T * T) :
  src !! j = Some f ->
  ConverterFillLeftAndRight.right_from_left j src = Some (<[j := (fst f, fst f)]> src).
Proof.
  intros Hj. unfold ConverterFillLeftAndRight.right_from_left, get, set.
  rewrite Hj. reflexivity.
Qed.

Lemma fill_with_flags {T} `{Sample T} (cv : ConverterFillLeftAndRight.t)
    (src : list (T * T)) :
  (if ConverterFillLeftAndRight.left_empty cv
      && negb (ConverterFillLeftAndRight.right_empty cv) then
     src' ← for_upto (length src) 0 ConverterFillLeftAndRight.left_from_right src;
     Some (cv, src')
   else if negb (ConverterFillLeftAndRight.left_empty cv)
           && ConverterFillLeftAndRight.right_empty cv then
     src' ← for_upto (length src) 0 ConverterFillLeftAndRight.right_from_left src;
     Some (cv, src')
   else Some (cv, src))
  = Some (cv, filled cv src).
Proof.
  unfold filled.
  destruct (ConverterFillLeftAndRight.left_empty cv
            && negb (ConverterFillLeftAndRight.right_empty cv)).
  - rewrite (for_upto_whole _ (fun f => (snd f, snd f)))
      by (intros j s f; apply left_from_right_at).
    reflexivity.
  - destruct (negb (ConverterFillLeftAndRight.left_empty cv)
              && ConverterFillLeftAndRight.right_empty cv).
    + rewrite (for_upto_whole _ (fun f => (fst f, fst f)))
        by (intros j s f; apply right_from_left_at).
      reflexivity.
    + reflexivity.
Qed.

Lemma fill_convert {T} `{Sample T} (cv : ConverterFillLeftAndRight.t)
    (src : list (T * T)) :
  Z.of_nat (length src) <= INT32_MAX ->
  ConverterFillLeftAndRight.convert cv src (length src)
  = Some (decided cv src, filled (decided cv src) src).
Proof.
  intros Hlen. unfold ConverterFillLeftAndRight.convert.
  rewrite fill_setup by exact Hlen. cbn [mbind option_bind].
  apply fill_with_flags.
Qed.

(** X2.  Given a buffer in which one channel holds only zeros and the
    other holds some data, a new [ConverterFillLeftAndRight] copies the
    channel with data over the empty one in every frame, and records
    which channel was empty. *)
Theorem fill_copies_channel_with_data {T} `{Sample T} (src : list (T * T)) :
  Z.of_nat (length src) <= INT32_MAX ->
  channel_empty fst src <> channel_empty snd src ->
  ConverterFillLeftAndRight.convert ConverterFillLeftAndRight.make src (length src)
  = Some (ConverterFillLeftAndRight.mk true (channel_empty fst src)
            (channel_empty snd src),
          if channel_empty fst src
          then map (fun f => (snd f, snd f)) src
          else map (fun f => (fst f, fst f)) src).
Proof.
  intros Hlen Hne. rewrite fill_convert by exact Hlen.
  unfold decided, filled, ConverterFillLeftAndRight.make.
  cbn [ConverterFillLeftAndRight.is_setup ConverterFillLeftAndRight.left_empty
       ConverterFillLeftAndRight.right_empty].
  destruct (channel_empty fst src), (channel_empty snd src);
    try congruence; reflexivity.
Qed.

Lemma fill_copies_channel_with_data_witness :
  @ConverterFillLeftAndRight.convert Z int16_sample ConverterFillLeftAndRight.make
    [(0, 3); (0, -4)] 2
  = Some (ConverterFillLeftAndRight.mk true true false, [(3, 3); (-4, -4)]).
Proof.
  apply (@fill_copies_channel_with_data Z int16_sample [(0, 3); (0, -4)]).
  - vm_compute. discriminate.
  - vm_compute. discriminate.
Defined.

(** X3.  Given a buffer in which both channels hold data, or in which
    both hold only zeros, a new [ConverterFillLeftAndRight] leaves the
    buffer as it is.  In the first case the decision is final; in the
    second none is taken, and the next buffer is looked at again. *)
Theorem fill_leaves_balanced_buffer {T} `{Sample T} (src : list (T * T)) :
  Z.of_nat (length src) <= INT32_MAX ->
  channel_empty fst src = channel_empty snd src ->
  ConverterFillLeftAndRight.convert ConverterFillLeftAndRight.make src (length src)
  = Some (if channel_empty fst src
          then ConverterFillLeftAndRight.make
          else ConverterFillLeftAndRight.mk true false false,
          src).
Proof.
  intros Hlen Heq. rewrite fill_convert by exact Hlen.
  unfold decided, filled, ConverterFillLeftAndRight.make.
  cbn [ConverterFillLeftAndRight.is_setup ConverterFillLeftAndRight.left_empty
       ConverterFillLeftAndRight.right_empty].
  rewrite <- Heq.
  destruct (channel_empty fst src); reflexivity.
Qed.

Lemma fill_leaves_balanced_buffer_witness :
  @ConverterFillLeftAndRight.convert Z int16_sample ConverterFillLeftAndRight.make
    [(0, 0); (0, 0)] 2
  = Some (ConverterFillLeftAndRight.make, [(0, 0); (0, 0)]).
Proof.
  apply (@fill_leaves_balanced_buffer Z int16_sample [(0, 0); (0, 0)]).
  - vm_compute. discriminate.
  - reflexivity.
Defined.

(** X4.  Once [ConverterFillLeftAndRight] has taken its decision it
    never looks at the data again: every later buffer is treated by the
    recorded flags alone, so a converter that found the left channel
    empty overwrites the left channel of a later buffer even when that
    channel now holds data. *)
Theorem fill_decision_is_final {T} `{Sample T} (cv : ConverterFillLeftAndRight.t)
    (src : list (T * T)) :
  ConverterFillLeftAndRight.is_setup cv = true ->
  ConverterFillLeftAndRight.convert cv src (length src) = Some (cv, filled cv src).
Proof.
  intros Hset. unfold ConverterFillLeftAndRight.convert,
    ConverterFillLeftAndRight.setup.
  rewrite Hset. cbn [negb mbind option_bind].
  apply fill_with_flags.
Qed.

Lemma fill_decision_is_final_witness :
  @ConverterFillLeftAndRight.convert Z int16_sample
    (ConverterFillLeftAndRight.mk true true false) [(5, 6); (7, 8)] 2
  = Some (ConverterFillLeftAndRight.mk true true false, [(6, 6); (8, 8)]).
Proof.
  apply (@fill_decision_is_final Z int16_sample
           (ConverterFillLeftAndRight.mk true true false) [(5, 6); (7, 8)]).
  reflexivity.
Defined.

(** *** [ConverterScaler], left channel *)

Lemma to_int16_range (z : Z) : int16_range (to_int16 z).
Proof.
  unfold int16_range, to_int16, wrap_signed.
  change (2 ^ (16 - 1)) with 32768. change (2 ^ 16) with 65536.
  pose proof (Z.mod_pos_bound (z + 32768) 65536 ltac:(lia)). lia.
Qed.

Lemma to_int16_small (z : Z) : int16_range z -> to_int16 z = z.
Proof.
  unfold int16_range, to_int16, wrap_signed. intros Hz.
  change (2 ^ (16 - 1)) with 32768. change (2 ^ 16) with 65536.
  rewrite Z.mod_small by lia. lia.
Qed.

Lemma store_int16_range (a : num) : int16_range (@store Z int16_sample a).
Proof. destruct a; cbn [store int16_sample store_int]; apply to_int16_range. Qed.

Lemma scaled_within_bounds (cv : ConverterScaler.t Z) (x : Z) :
  0 <= ConverterScaler.maxValue cv <= 32767 ->
  - ConverterScaler.maxValue cv
  <= @ConverterScaler.scaled Z int16_sample cv x
  <= ConverterScaler.maxValue cv.
Proof.
  intros Hm. unfold ConverterScaler.scaled.
  set (v := @store Z int16_sample _).
  assert (Hv : int16_range v) by apply store_int16_range.
  clearbody v. unfold int16_range in Hv.
  cbn [load int16_sample num_ltb num_neg store store_int].
  rewrite (to_int_small (- ConverterScaler.maxValue cv)) by lia.
  rewrite (to_int16_small (- ConverterScaler.maxValue cv))
    by (unfold int16_range; lia).
  destruct (Z.ltb_spec (ConverterScaler.maxValue cv) v); [lia|].
  destruct (Z.ltb_spec v (- ConverterScaler.maxValue cv)); lia.
Qed.

(** X5.  With 16-bit samples and a bound [maxValue] between 0 and 32767,
    [ConverterScaler::convert] leaves every left sample of the buffer
    between [-maxValue] and [+maxValue], whatever the factor, the offset
    and the samples were; the number of frames is unchanged. *)
Theorem scaler_left_channel_clipped (cv : ConverterScaler.t Z)
    (src out : list (Z * Z)) :
  0 <= ConverterScaler.maxValue cv <= 32767 ->
  @ConverterScaler.convert Z int16_sample cv src (length src) = Some out ->
  length out = length src
  /\ Forall (fun g => - ConverterScaler.maxValue cv <= fst g
                      <= ConverterScaler.maxValue cv) out.
Proof.
  intros Hm Hrun. rewrite scaler_convert in Hrun. injection Hrun as <-.
  split; [apply length_map|].
  rewrite Forall_forall. intros g Hg.
  apply list_elem_of_In, in_map_iff in Hg. destruct Hg as [f [<- _]].
  cbn [fst]. apply scaled_within_bounds. exact Hm.
Qed.

Lemma scaler_left_channel_clipped_witness :
  Forall (fun g => - 100 <= fst g <= 100) [(100, 70); (-100, -200)].
Proof.
  apply (scaler_left_channel_clipped
           (@ConverterScaler.make Z (f32_of_Z 2) 0 100)
           [(60, 70); (-60, -200)] [(100, 70); (-100, -200)]).
  - cbn. lia.
  - vm_compute. reflexivity.
Defined.

(** *** [CallbackConverter], frame counts outside the range of [int] *)

(** X6.  [CallbackConverter::convert] keeps its frame count in an [int]:
    for a count of 0, and for a count from 2^31 up to 2^32 - 1, which
    turns negative in the [int], the loop does not run, nothing is read
    and the target is left as it was. *)
Theorem callback_convert_count_out_of_int {A B} (f : A -> B) (src : Z -> A * A)
    (target : Z -> B * B) (size : Z) :
  size = 0 \/ 2147483648 <= size < 4294967296 ->
  CallbackConverter.convert f src target size = (target, []).
Proof.
  intros Hsize. unfold CallbackConverter.convert.
  replace (Z.to_nat (to_int size)) with O; [reflexivity|].
  destruct Hsize as [->|Hbig]; [reflexivity|].
  unfold to_int, wrap_signed.
  change (2 ^ (32 - 1)) with 2147483648. change (2 ^ 32) with 4294967296.
  replace (size + 2147483648) with (size - 2147483648 + 1 * 4294967296) by lia.
  rewrite Z.mod_add by lia. rewrite Z.mod_small by lia. lia.
Qed.

Lemma callback_convert_count_out_of_int_witness :
  CallbackConverter.convert (fun x : Z => x + 100) (fun i => (i, i))
    (fun _ => (0, 0)) 4294967295
  = (fun _ => (0, 0), []).
Proof.
  apply (callback_convert_count_out_of_int (fun x : Z => x + 100) (fun i => (i, i))
           (fun _ => (0, 0)) 4294967295).
  right. lia.
Defined.

(** *** Checks over all 16-bit samples *)

Lemma all_in_block_spec (k : nat) (P : Z -> bool) :
  forall lo, all_in_block k P lo = true ->
  forall x, lo <= x < lo + 2 ^ Z.of_nat k -> P x = true.
Proof.
  induction k as [|k IH]; intros lo Hall x Hx.
  - cbn [all_in_block] in Hall. change (2 ^ Z.of_nat 0) with 1 in Hx.
    replace x with lo by lia. exact Hall.
  - cbn [all_in_block] in Hall. apply andb_true_iff in Hall.
    destruct Hall as [Hlow Hhigh].
    rewrite Nat2Z.inj_succ, Z.pow_succ_r in Hx by lia.
    destruct (Z.lt_ge_cases x (lo + 2 ^ Z.of_nat k)) as [Hlt|Hge].
    + apply (IH lo Hlow). lia.
    + apply (IH _ Hhigh). lia.
Qed.

Lemma unit_gain_exact_all (x : Z) : int16_range x -> unit_gain_exact x = true.
Proof.
  intros Hx. apply (all_in_block_spec 16 unit_gain_exact (-32768)).
  - vm_compute. reflexivity.
  - unfold int16_range in Hx. change (2 ^ Z.of_nat 16) with 65536. lia.
Qed.

(** X7.  A [ConverterScaler] with factor 1 and offset 0 gives every
    frame of 16-bit samples that lies within the bound [maxValue] back
    unchanged: the passage of the samples through [float] loses
    nothing. *)
Theorem scaler_unit_gain_is_identity (m : Z) (src : list (Z * Z)) :
  0 <= m <= 32767 ->
  Forall (fun f => - m <= fst f <= m /\ - m <= snd f <= m) src ->
  @ConverterScaler.convert Z int16_sample
    (@ConverterScaler.make Z (f32_of_Z 1) 0 m) src (length src)
  = Some src.
Proof.
  intros Hm Hsrc. rewrite scaler_convert. f_equal.
  rewrite <- (map_id src) at 2. apply map_ext_in. intros [l r] Hf.
  rewrite Forall_forall in Hsrc.
  destruct (Hsrc (l, r)) as [Hl Hr]; [apply list_elem_of_In; exact Hf|].
  cbn [fst snd] in Hl, Hr |- *.
  pose proof (unit_gain_exact_all l ltac:(unfold int16_range; lia)) as Hgl.
  pose proof (unit_gain_exact_all r ltac:(unfold int16_range; lia)) as Hgr.
  unfold unit_gain_exact in Hgl, Hgr.
  apply andb_true_iff in Hgl. destruct Hgl as [Hgl _].
  apply andb_true_iff in Hgr. destruct Hgr as [_ Hgr].
  apply Z.eqb_eq in Hgl. apply Z.eqb_eq in Hgr.
  assert (Hleft : @ConverterScaler.scaled Z int16_sample
                    (@ConverterScaler.make Z (f32_of_Z 1) 0 m) l = l).
  { unfold ConverterScaler.scaled, ConverterScaler.make.
    cbn [ConverterScaler.offset ConverterScaler.factor ConverterScaler.maxValue].
    rewrite Hgl.
    cbn [load int16_sample num_ltb num_neg store store_int].
    rewrite (to_int_small (- m)) by lia.
    destruct (Z.ltb_spec m l); [lia|].
    destruct (Z.ltb_spec l (- m)); [lia|]. reflexivity. }
  f_equal; [exact Hleft|].
  unfold scaler_right. cbn [fst snd]. rewrite Hleft.
  unfold ConverterScaler.make.
  cbn [ConverterScaler.offset ConverterScaler.factor ConverterScaler.maxValue].
  rewrite Hgr.
  cbn [load int16_sample num_ltb num_neg store store_int].
  rewrite (to_int_small (- m)) by lia.
  destruct (Z.ltb_spec m r); [lia|].
  destruct (Z.ltb_spec l (- m)); [lia|]. reflexivity.
Qed.

Lemma scaler_unit_gain_is_identity_witness :
  @ConverterScaler.convert Z int16_sample
    (@ConverterScaler.make Z (f32_of_Z 1) 0 1000) [(-1000, 999); (3, -4)] 2
  = Some [(-1000, 999); (3, -4)].
Proof.
  apply (scaler_unit_gain_is_identity 1000 [(-1000, 999); (3, -4)]).
  - lia.
  - repeat constructor; cbn; lia.
Defined.

(** *** [convertFrom32To16] *)

(** X8.  [convertFrom32To16] does not undo the widening of a 16-bit
    sample by a shift of 16 bits: for every 16-bit [k] it sends
    [k * 65536] to the neighbour of [k] that is one step nearer to zero
    (and 0 to 0), so the result stays within -32767..32767. *)
Theorem convertFrom32To16_of_widened_sample (k : Z) :
  int16_range k ->
  convertFrom32To16 (k * 65536) = one_step_to_zero k
  /\ -32767 <= convertFrom32To16 (k * 65536) <= 32767.
Proof.
  intros Hk.
  assert (Hstep : narrows_to_step k = true).
  { apply (all_in_block_spec 16 narrows_to_step (-32768)).
    - vm_compute. reflexivity.
    - unfold int16_range in Hk. change (2 ^ Z.of_nat 16) with 65536. lia. }
  unfold narrows_to_step in Hstep. apply Z.eqb_eq in Hstep.
  rewrite Hstep. split; [reflexivity|].
  unfold one_step_to_zero, int16_range in *.
  destruct (Z.ltb_spec 0 k); [lia|]. destruct (Z.ltb_spec k 0); lia.
Qed.

Lemma convertFrom32To16_of_widened_sample_witness :
  convertFrom32To16 (32767 * 65536) = 32766.
Proof.
  apply (convertFrom32To16_of_widened_sample 32767).
  unfold int16_range. lia.
Defined.


(** ** The encoder *)

Lemma encoded_header_fields (ai ai' : WAVAudioInfo) :
  file_size ai' = file_size ai -> format ai' = format ai ->
  channels ai' = channels ai -> sample_rate ai' = sample_rate ai ->
  bits_per_sample ai' = bits_per_sample ai ->
  encoded_header ai' = encoded_header ai.
Proof.
  intros Hfs Hfc Hch Hsr Hbps.
  rewrite !encoded_header_shape, Hfs, Hfc, Hch, Hsr, Hbps. reflexivity.
Qed.

Lemma encoded_header_length (ai : WAVAudioInfo) :
  length (encoded_header ai) = 44%nat.
Proof.
  rewrite encoded_header_shape.
  unfold wave_buffer, riff_header, fmt_chunk, data_header.
  rewrite !length_app, !length_le_bytes. reflexivity.
Qed.

Lemma encoder_write_streaming (p : platform) (b : list byte) (e : WAVEncoder.t) :
  streaming_session e -> Z.of_nat (length b) < 2147483648 ->
  let r := WAVEncoder.write p b e in
  fst r = Returned (Z.of_nat (length b))
  /\ streaming_session (snd r)
  /\ WAVEncoder.header_written (snd r) = true
  /\ WAVEncoder.sink_bytes (snd r)
     = WAVEncoder.sink_bytes e
       ++ (if WAVEncoder.header_written e then []
           else encoded_header (WAVEncoder.audioInfo e))
       ++ b.
Proof.
  intros [[s [Hs Hall]] [Hmode Hopen]] Hb r.
  subst r. unfold WAVEncoder.write, WAVEncoder.sink_bytes.
  rewrite Hopen, Hs. cbn [negb].
  destruct (header_writers_all (WAVEncoder.audioInfo e) s Hall)
    as [Hai [Htaken [Hflushes Haccepts]]].
  destruct (WAVEncoder.writeDataHeader (WAVEncoder.audioInfo e)
              (WAVEncoder.writeFMT (WAVEncoder.audioInfo e)
                 (WAVEncoder.writeRiffHeader (WAVEncoder.audioInfo e) s)))
    as [ai' s'] eqn:Ehdr.
  cbn [fst snd] in Hai, Htaken, Hflushes, Haccepts.
  destruct (WAVEncoder.header_written e) eqn:Ehw; cbn [negb].
  - rewrite Hmode.
    rewrite Print_write_all by (auto; lia).
    rewrite (to_int32_small (Z.of_nat (length b))),
      (to_size_t_small p (Z.of_nat (length b))) by lia.
    rewrite Nat2Z.id, firstn_all.
    unfold streaming_session.
    cbn [fst snd WAVEncoder.stream_ptr WAVEncoder.audioInfo WAVEncoder.is_open
         WAVEncoder.header_written taken accepts app].
    repeat split; try reflexivity; try assumption.
    eexists; split; [reflexivity|exact Hall].
  - assert (Hmode' : is_streamed ai' = true) by (rewrite Hai; exact Hmode).
    assert (Hall' : forall n, accepts s' n = n)
      by (intros n; rewrite Haccepts; apply Hall).
    rewrite Hmode'.
    rewrite Print_write_all by (auto; lia).
    rewrite (to_int32_small (Z.of_nat (length b))),
      (to_size_t_small p (Z.of_nat (length b))) by lia.
    rewrite Nat2Z.id, firstn_all.
    unfold streaming_session.
    cbn [fst snd WAVEncoder.stream_ptr WAVEncoder.audioInfo WAVEncoder.is_open
         WAVEncoder.header_written taken accepts].
    rewrite Htaken, <- app_assoc.
    repeat split; try reflexivity; try assumption.
    eexists; split; [reflexivity|exact Hall'].
Qed.

Lemma encoder_writes_streaming (p : platform) (bufs : list (list byte)) :
  Forall (fun b => Z.of_nat (length b) < 2147483648) bufs ->
  forall e : WAVEncoder.t,
    streaming_session e -> WAVEncoder.header_written e = true ->
    let r := WAVEncoder.writes p bufs e in
    fst r = map (fun b => Returned (Z.of_nat (length b))) bufs
    /\ streaming_session (snd r)
    /\ WAVEncoder.sink_bytes (snd r) = WAVEncoder.sink_bytes e ++ concat bufs.
Proof.
  induction 1 as [|b bufs Hb Hbufs IH]; intros e He Hw;
    cbn [WAVEncoder.writes map concat fst snd].
  - rewrite app_nil_r. split; [reflexivity|]. split; [exact He|reflexivity].
  - destruct (encoder_write_streaming p b e He Hb) as [Hres [He' [Hw' Hsink]]].
    destruct (WAVEncoder.write p b e) as [res e'] eqn:Ewrite.
    cbn [fst snd] in Hres, He', Hw', Hsink. subst res.
    destruct (IH e' He' Hw') as [IHres [IHe IHsink]].
    destruct (WAVEncoder.writes p bufs e') as [rs e''] eqn:Erest.
    cbn [fst snd] in IHres, IHe, IHsink |- *.
    rewrite IHres, IHsink, Hsink, Hw. cbn [app].
    rewrite <- app_assoc. split; [reflexivity|]. split; [exact IHe|reflexivity].
Qed.

Lemma begin_streaming (ai : WAVAudioInfo) (e0 : WAVEncoder.t) (s : Print) :
  WAVEncoder.stream_ptr e0 = Some s -> (forall n, accepts s n = n) ->
  is_streamed ai = true \/ data_length ai = 0 \/ 2147418112 <= data_length ai ->
  let e := WAVEncoder.begin ai e0 in
  streaming_session e
  /\ WAVEncoder.header_written e = false
  /\ WAVEncoder.sink_bytes e = taken s
  /\ encoded_header (WAVEncoder.audioInfo e) = encoded_header ai.
Proof.
  intros Hs Hall Hmode.
  unfold WAVEncoder.begin, WAVEncoder.sink_bytes, streaming_session.
  cbn [is_streamed data_length set_byte_rate set_block_align].
  replace (is_streamed ai || (data_length ai =? 0)
           || (2147418112 <=? data_length ai)) with true.
  - cbn [WAVEncoder.stream_ptr WAVEncoder.audioInfo WAVEncoder.is_open
         WAVEncoder.header_written is_streamed set_is_streamed set_data_length].
    rewrite Hs.
    split; [split; [|split; reflexivity]|].
    + exists s. split; [reflexivity|exact Hall].
    + split; [reflexivity|]. split; [reflexivity|].
      apply encoded_header_fields; reflexivity.
  - symmetry. destruct Hmode as [->|[->|Hbig]]; [reflexivity|..].
    + apply orb_true_iff. left. apply orb_true_iff. right. reflexivity.
    + apply orb_true_iff. right. apply Z.leb_le. exact Hbig.
Qed.

Lemma encoder_streaming_writes (p : platform) (ai : WAVAudioInfo)
    (e0 : WAVEncoder.t) (s : Print) (bufs : list (list byte)) :
  WAVEncoder.stream_ptr e0 = Some s -> (forall n, accepts s n = n) ->
  is_streamed ai = true \/ data_length ai = 0 \/ 2147418112 <= data_length ai ->
  Forall (fun b => Z.of_nat (length b) < 2147483648) bufs ->
  bufs <> [] ->
  let r := WAVEncoder.writes p bufs (WAVEncoder.begin ai e0) in
  fst r = map (fun b => Returned (Z.of_nat (length b))) bufs
  /\ streaming_session (snd r)
  /\ WAVEncoder.sink_bytes (snd r) = taken s ++ encoded_header ai ++ concat bufs.
Proof.
  intros Hs Hall Hmode Hbufs Hne.
  destruct (begin_streaming ai e0 s Hs Hall Hmode) as [He0 [Hw0 [Hsink0 Hhdr0]]].
  set (e_begin := WAVEncoder.begin ai e0) in *.
  destruct bufs as [|b bufs]; [congruence|].
  inversion Hbufs as [|b' bufs' Hb Hrest]; subst.
  cbn [WAVEncoder.writes].
  destruct (encoder_write_streaming p b e_begin He0 Hb) as [Hres [He' [Hw' Hsink]]].
  destruct (WAVEncoder.write p b e_begin) as [res e'] eqn:Ewrite.
  cbn [fst snd] in Hres, He', Hw', Hsink. subst res.
  destruct (encoder_writes_streaming p bufs Hrest e' He' Hw')
    as [Hress [He'' Hsinks]].
  destruct (WAVEncoder.writes p bufs e') as [rs e''] eqn:Erest.
  cbn [fst snd map concat] in Hress, He'', Hsinks |- *.
  split; [rewrite Hress; reflexivity|].
  split; [exact He''|].
  rewrite Hsinks, Hsink, Hw0, Hsink0, Hhdr0. rewrite <- !app_assoc. reflexivity.
Qed.

(** X9.  In streaming mode ([is_streamed] set, or a [data_length] of 0,
    or one of 0x7fff0000 and more) on a sink that takes everything, a
    run of [write] calls sends the 44 bytes of the header once, before
    the first payload, and then every payload whole and in order; each
    call returns the size of its buffer and the session stays open. *)
Theorem encoder_streaming_run (p : platform) (ai : WAVAudioInfo) (e0 : WAVEncoder.t)
    (s : Print) (bufs : list (list byte)) :
  WAVEncoder.stream_ptr e0 = Some s -> (forall n, accepts s n = n) ->
  is_streamed ai = true \/ data_length ai = 0 \/ 2147418112 <= data_length ai ->
  Forall (fun b => Z.of_nat (length b) < 2147483648) bufs ->
  bufs <> [] ->
  let r := WAVEncoder.writes p bufs (WAVEncoder.begin ai e0) in
  fst r = map (fun b => Returned (Z.of_nat (length b))) bufs
  /\ WAVEncoder.sink_bytes (snd r) = taken s ++ encoded_header ai ++ concat bufs
  /\ length (encoded_header ai) = 44%nat
  /\ WAVEncoder.is_open (snd r) = true.
Proof.
  intros Hs Hall Hmode Hbufs Hne.
  destruct (encoder_streaming_writes p ai e0 s bufs Hs Hall Hmode Hbufs Hne)
    as [Hres [[_ [_ Hopen]] Hsink]].
  cbv zeta. split; [exact Hres|]. split; [exact Hsink|].
  split; [apply encoded_header_length|exact Hopen].
Qed.

Lemma encoder_streaming_run_witness :
  let ai := WAVEncoder.defaultConfig 44100 16 2 0 0 in
  let r := WAVEncoder.writes ILP32 [["a"; "b"]; ["c"]]%byte
             (WAVEncoder.begin ai (WAVEncoder.make_with unbounded_sink ai 0 false)) in
  fst r = [Returned 2; Returned 1]
  /\ WAVEncoder.sink_bytes (snd r) = encoded_header ai ++ ["a"; "b"; "c"]%byte.
Proof.
  cbv zeta.
  pose proof (encoder_streaming_run ILP32 (WAVEncoder.defaultConfig 44100 16 2 0 0)
                (WAVEncoder.make_with unbounded_sink
                   (WAVEncoder.defaultConfig 44100 16 2 0 0) 0 false)
                unbounded_sink [["a"; "b"]; ["c"]]%byte
                eq_refl (fun n => eq_refl)
                ltac:(right; right; vm_compute; discriminate)
                ltac:(repeat constructor)
                ltac:(discriminate)) as H.
  cbv zeta in H. destruct H as [Hres [Hsink _]].
  split; [exact Hres|exact Hsink].
Defined.

(** *** The budget of a bounded session, on any sink *)

Lemma Print_write_count (data : list byte) (n : Z) (s : Print) :
  0 <= n -> 0 <= fst (Print_write data n s) <= n.
Proof. intros Hn. unfold Print_write. cbn [fst]. lia. Qed.

Lemma header_keeps_mode (ai : WAVAudioInfo) (s : Print) :
  is_streamed (fst (WAVEncoder.writeDataHeader ai s)) = is_streamed ai.
Proof. reflexivity. Qed.

Lemma encoder_write_budgeted (p : platform) (d k : Z) (b : list byte)
    (e : WAVEncoder.t) :
  budgeted_session d k e -> 0 <= k < d -> d < 2147418112 ->
  exists m,
    fst (WAVEncoder.write p b e) = Returned m
    /\ 0 <= m <= Z.min (Z.of_nat (length b)) (d - k)
    /\ budgeted_session d (k + m) (snd (WAVEncoder.write p b e)).
Proof.
  intros [[s Hs] [Hmode [Hlimit Hopen]]] Hk Hd.
  unfold WAVEncoder.write.
  rewrite Hopen, Hs, Hlimit.
  replace (k <? d) with true by (symmetry; apply Z.ltb_lt; lia).
  cbn [negb].
  set (hw := if negb (WAVEncoder.header_written e) then _ else _).
  assert (Hhw : exists ai' s' w', hw = (ai', s', w') /\ is_streamed ai' = false).
  { subst hw. destruct (WAVEncoder.header_written e); cbn [negb].
    - eexists _, _, _. split; [reflexivity|exact Hmode].
    - destruct (WAVEncoder.writeDataHeader (WAVEncoder.audioInfo e) _)
        as [ai' s'] eqn:Ehdr.
      eexists _, _, _. split; [reflexivity|].
      pose proof (header_keeps_mode (WAVEncoder.audioInfo e)
                    (WAVEncoder.writeFMT (WAVEncoder.audioInfo e)
                       (WAVEncoder.writeRiffHeader (WAVEncoder.audioInfo e) s)))
        as Hkeep.
      rewrite Ehdr in Hkeep. cbn [fst] in Hkeep. rewrite Hkeep. exact Hmode. }
  destruct Hhw as [ai' [s' [w' [-> Hmode']]]].
  rewrite Hmode'.
  replace (0 <? d - k) with true by (symmetry; apply Z.ltb_lt; lia).
  rewrite (to_size_t_small p (d - k)) by lia.
  set (n := Z.min (Z.of_nat (length b)) (d - k)).
  pose proof (Print_write_count b n s' ltac:(lia)) as Hcount.
  destruct (Print_write b n s') as [m s''] eqn:Ewrite. cbn [fst] in Hcount.
  rewrite (to_int32_small m), (to_int64_small (d - k - m)),
    (to_size_t_small p m) by lia.
  exists m.
  unfold budgeted_session.
  destruct (Z.leb_spec (d - k - m) 0) as [Hz|Hz];
    cbn [fst snd WAVEncoder.stream_ptr WAVEncoder.audioInfo
         WAVEncoder.size_limit WAVEncoder.is_open].
  all: repeat split;
    first [ reflexivity | lia | exact Hmode'
          | eexists; reflexivity
          | symmetry; apply Z.ltb_ge; lia
          | symmetry; apply Z.ltb_lt; lia ].
Qed.

Lemma encoder_writes_budgeted (p : platform) (d : Z) (bufs : list (list byte)) :
  d < 2147418112 ->
  forall (k : Z) (e : WAVEncoder.t),
    budgeted_session d k e -> 0 <= k <= d ->
    let r := WAVEncoder.writes p bufs e in
    0 <= returned_total (fst r) <= d - k
    /\ budgeted_session d (k + returned_total (fst r)) (snd r).
Proof.
  intros Hd.
  induction bufs as [|b bufs IH]; intros k e Hb Hk; cbn [WAVEncoder.writes].
  - cbn [fst snd returned_total]. rewrite Z.add_0_r. split; [lia|exact Hb].
  - destruct (Z.eq_dec k d) as [Hfull|Hroom].
    + assert (Hclosed : WAVEncoder.is_open e = false).
      { destruct Hb as [_ [_ [_ Ho]]]. rewrite Ho. apply Z.ltb_ge. lia. }
      rewrite (encoder_write_closed p b e Hclosed). cbv beta iota.
      rewrite (encoder_writes_closed p bufs e Hclosed).
      assert (Hzero : returned_total (map (fun _ => Returned 0) bufs) = 0).
      { clear. induction bufs as [|b bufs IH]; cbn [map returned_total];
          [reflexivity|rewrite IH; reflexivity]. }
      cbn [fst snd returned_total]. rewrite Hzero, !Z.add_0_r.
      split; [lia|exact Hb].
    + destruct (encoder_write_budgeted p d k b e Hb ltac:(lia) Hd)
        as [m [Hres [Hm Hb']]].
      destruct (WAVEncoder.write p b e) as [res e'] eqn:Ewrite.
      cbn [fst snd] in Hres, Hb'. subst res.
      specialize (IH (k + m) e' Hb' ltac:(lia)).
      destruct (WAVEncoder.writes p bufs e') as [rs e''] eqn:Erest.
      cbn [fst snd returned_total] in IH |- *. destruct IH as [IHtotal IHb].
      split; [lia|].
      replace (k + (m + returned_total rs)) with (k + m + returned_total rs) by lia.
      exact IHb.
Qed.

(** X10.  In bounded mode with budget [d] ([0 < d < 0x7fff0000]) the
    counts that the [write] calls of a session return never add up to
    more than [d], whatever the sink does with the bytes it is offered
    and however the payload is cut into buffers; the session is open
    exactly while the counts add up to less than [d]. *)
Theorem encoder_budget_on_any_sink (p : platform) (ai : WAVAudioInfo)
    (e0 : WAVEncoder.t) (s : Print) (d : Z) (bufs : list (list byte)) :
  WAVEncoder.stream_ptr e0 = Some s ->
  is_streamed ai = false -> data_length ai = d -> 0 < d < 2147418112 ->
  let r := WAVEncoder.writes p bufs (WAVEncoder.begin ai e0) in
  0 <= returned_total (fst r) <= d
  /\ WAVEncoder.is_open (snd r) = (returned_total (fst r) <? d)
  /\ WAVEncoder.size_limit (snd r) = d - returned_total (fst r).
Proof.
  intros Hs Hmode Hlen Hd.
  assert (Hb0 : budgeted_session d 0 (WAVEncoder.begin ai e0)).
  { unfold WAVEncoder.begin, budgeted_session.
    cbn [is_streamed data_length set_byte_rate set_block_align].
    rewrite Hmode, Hlen.
    replace (d =? 0) with false by (symmetry; apply Z.eqb_neq; lia).
    replace (2147418112 <=? d) with false by (symmetry; apply Z.leb_gt; lia).
    cbn [orb WAVEncoder.stream_ptr WAVEncoder.audioInfo WAVEncoder.size_limit
         WAVEncoder.is_open is_streamed data_length].
    rewrite Hs, ?Hlen.
    split; [eexists; reflexivity|]. split; [exact Hmode|].
    split; [lia|]. symmetry. apply Z.ltb_lt. lia. }
  destruct (encoder_writes_budgeted p d bufs ltac:(lia) 0
              (WAVEncoder.begin ai e0) Hb0 ltac:(lia)) as [Htotal Hb].
  cbv zeta in Htotal, Hb |- *.
  destruct Hb as [_ [_ [Hlimit Hopen]]].
  rewrite Z.add_0_l in Hlimit, Hopen.
  split; [lia|]. split; [exact Hopen|exact Hlimit].
Qed.

Lemma encoder_budget_on_any_sink_witness :
  let r := WAVEncoder.writes ILP32 [["a"; "b"; "c"; "d"; "e"]; ["f"; "g"]]%byte
             (WAVEncoder.begin three_byte_info
                (WAVEncoder.make_with slow_sink three_byte_info 0 false)) in
  0 <= returned_total (fst r) <= 3
  /\ WAVEncoder.is_open (snd r) = (returned_total (fst r) <? 3).
Proof.
  cbv zeta.
  pose proof (encoder_budget_on_any_sink ILP32 three_byte_info
                (WAVEncoder.make_with slow_sink three_byte_info 0 false)
                slow_sink 3 [["a"; "b"; "c"; "d"; "e"]; ["f"; "g"]]%byte
                eq_refl eq_refl eq_refl ltac:(lia)) as H.
  cbv zeta in H. destruct H as [Htotal [Hopen _]].
  split; [exact Htotal|exact Hopen].
Defined.

(** *** The rates in the header *)

(** X11.  For a descriptor whose bits per sample are a multiple of 8
    and whose rate, bits and channels are not negative and multiply to
    less than 2^31, the header [writeFMT] sends is consistent: its
    frame-size field is channels times bytes per sample, and its
    byte-rate field is the sample rate times that frame size. *)
Theorem encoder_header_rates_agree (ai : WAVAudioInfo) :
  0 <= sample_rate ai -> 0 <= channels ai -> 0 <= bits_per_sample ai ->
  bits_per_sample ai mod 8 = 0 ->
  sample_rate ai * bits_per_sample ai * channels ai < 2147483648 ->
  channels ai * bits_per_sample ai < 2147483648 ->
  let frame := channels ai * (bits_per_sample ai / 8) in
  encoded_header ai
  = riff_header (to_uint32 (file_size ai - 8))
    ++ fmt_chunk 16 (format ai) (channels ai) (sample_rate ai)
         (sample_rate ai * frame) frame (bits_per_sample ai) []
    ++ data_header (to_uint32 (file_size ai - 44)).
Proof.
  intros Hsr Hch Hbits Hmul Hrate Hframe frame.
  rewrite encoded_header_shape. unfold wave_buffer. rewrite app_nil_r.
  assert (Hb : bits_per_sample ai = 8 * (bits_per_sample ai / 8)).
  { apply Z.div_exact in Hmul; [exact Hmul|lia]. }
  set (b := bits_per_sample ai / 8) in *.
  assert (Hb0 : 0 <= b) by lia.
  assert (Hf : Z.quot (to_int (channels ai * bits_per_sample ai)) 8 = frame).
  { rewrite to_int_small by nia. subst frame.
    rewrite Hb. replace (channels ai * (8 * b)) with (channels ai * b * 8) by lia.
    apply Z.quot_mul. lia. }
  assert (Hr : Z.quot (to_int (to_int (sample_rate ai * bits_per_sample ai)
                               * channels ai)) 8
               = sample_rate ai * frame).
  { assert (Hsb : 0 <= sample_rate ai * bits_per_sample ai) by nia.
    destruct (Z.eq_dec (channels ai) 0) as [Hz|Hnz].
    - subst frame. rewrite Hz. rewrite Z.mul_0_r, Z.mul_0_l, Z.mul_0_r.
      reflexivity.
    - assert (Hsb' : sample_rate ai * bits_per_sample ai < 2147483648) by nia.
      rewrite (to_int_small (sample_rate ai * bits_per_sample ai)) by lia.
      rewrite to_int_small by nia.
      subst frame. rewrite Hb.
      replace (sample_rate ai * (8 * b) * channels ai)
        with (sample_rate ai * (channels ai * b) * 8) by lia.
      apply Z.quot_mul. lia. }
  rewrite Hf, Hr.
  rewrite (to_uint32_small frame), (to_uint32_small (sample_rate ai * frame));
    [reflexivity| |].
  - subst frame. nia.
  - subst frame. nia.
Qed.

Lemma encoder_header_rates_agree_witness :
  let ai := WAVEncoder.defaultConfig 44100 16 2 0 0 in
  encoded_header ai
  = riff_header (to_uint32 (file_size ai - 8))
    ++ fmt_chunk 16 1 2 44100 176400 4 16 []
    ++ data_header (to_uint32 (file_size ai - 44)).
Proof.
  cbv zeta.
  apply (encoder_header_rates_agree (WAVEncoder.defaultConfig 44100 16 2 0 0));
    vm_compute; try reflexivity; discriminate.
Defined.


(** ** The decoder *)

(** The scanner after a canonical buffer: the descriptor holds the
    fields of the [fmt ] chunk and [sound_pos] is the offset of the
    first byte after the [data] chunk header. *)
Lemma scan_canonical_state (p : platform) (fuel : nat)
    (riff_size fmt_size fc ch sr br ba bps data_size : Z)
    (extension rest : list byte) (h0 : WAVHeader.t) :
  let buf := wave_buffer riff_size fmt_size fc ch sr br ba bps extension
               data_size rest in
  (3 <= fuel)%nat ->
  Z.of_nat (length buf) < 2147483648 ->
  0 <= riff_size < 4294967296 ->
  fmt_size = 16 + Z.of_nat (length extension) ->
  0 <= fc < 65536 -> fc <> 65534 ->
  ((riff_size = 0 \/ 2147418112 <= riff_size)
   /\ 0 <= data_size <= 4294967275 - fmt_size)
  \/ (20 + fmt_size + data_size <= riff_size < 2147418112
      /\ (data_size = 0
          \/ (0 < data_size < 2147418112
              /\ Z.of_nat (length rest) <= data_size))) ->
  exists i pos tr',
    WAVHeader.begin p fuel buf h0
    = (true, WAVHeader.mk i buf (Z.of_nat (length buf)) pos (28 + fmt_size) tr')
    /\ is_valid i = true
    /\ format i = fc
    /\ sample_rate i = to_int (to_uint32 sr)
    /\ channels i = to_uint16 ch
    /\ bits_per_sample i = to_uint16 bps
    /\ data_length i = data_size.
Proof.
  intros buf Hfuel Hfit Hriff Hfmt Hfc Hplain Hcases.
  destruct fuel as [|[|[|fuel]]]; try lia.
  pose proof (head_length riff_size fmt_size fc ch sr br ba bps data_size
                extension Hfmt) as Hhead.
  pose proof (buf_split riff_size fmt_size fc ch sr br ba bps data_size
                extension rest) as Hsplit.
  fold buf in Hsplit.
  assert (H16 : to_uint16 fc = fc).
  { unfold to_uint16, wrap_unsigned. change (2 ^ 16) with 65536.
    apply Z.mod_small. exact Hfc. }
  unfold WAVHeader.begin.
  change (WAVHeader.mk zeroed_info buf (Z.of_nat (length buf)) 0
            (WAVHeader.sound_pos h0) (WAVHeader.trail h0))
    with (at_split zeroed_info [] buf (WAVHeader.sound_pos h0)
            (WAVHeader.trail h0)).
  destruct Hcases as [[Hstream Hdata]|[Hcover [Hzero|[Hdata Hshort]]]].
  - destruct (scan_streamed p riff_size fmt_size fc ch sr br ba bps data_size
                extension rest Hfit Hriff Hfmt Hfc Hplain (S (S fuel)) (S fuel)
                (WAVHeader.sound_pos h0) (WAVHeader.trail h0)
                Hdata Hstream) as [tr' Hscan].
    fold buf in Hscan. rewrite Hscan.
    eexists _, _, tr'. unfold at_split. rewrite <- Hsplit, Hhead.
    split; [reflexivity|].
    cbn [is_valid sample_rate channels bits_per_sample format data_length
         set_is_streamed set_data_length fmt_info set_is_valid
         set_bits_per_sample set_block_align set_byte_rate set_sample_rate
         set_channels set_format].
    rewrite H16. repeat split; reflexivity.
  - destruct (scan_zero_data p riff_size fmt_size fc ch sr br ba bps data_size
                extension rest Hfit Hriff Hfmt Hfc Hplain (S (S fuel)) (S fuel)
                (WAVHeader.sound_pos h0) (WAVHeader.trail h0)
                Hzero ltac:(lia)) as [tr' Hscan].
    fold buf in Hscan. rewrite Hscan.
    eexists _, _, tr'. unfold at_split. rewrite <- Hsplit, Hhead.
    split; [reflexivity|].
    cbn [is_valid sample_rate channels bits_per_sample format data_length
         set_is_streamed set_data_length fmt_info set_is_valid
         set_bits_per_sample set_block_align set_byte_rate set_sample_rate
         set_channels set_format].
    rewrite H16. repeat split; reflexivity.
  - destruct (scan_finite p riff_size fmt_size fc ch sr br ba bps data_size
                extension rest Hfit Hriff Hfmt Hfc Hplain (S (S fuel)) fuel
                (WAVHeader.sound_pos h0) (WAVHeader.trail h0)
                Hdata ltac:(lia) Hshort) as [pos [tr' Hscan]].
    fold buf in Hscan. rewrite Hscan.
    eexists _, pos, tr'. rewrite Hhead.
    split; [reflexivity|].
    cbn [is_valid sample_rate channels bits_per_sample format data_length
         set_is_streamed set_data_length fmt_info set_is_valid
         set_bits_per_sample set_block_align set_byte_rate set_sample_rate
         set_channels set_format].
    rewrite H16. repeat split; reflexivity.
Qed.

(** [soundData] after such a scan: the bytes that follow the header. *)
Lemma sound_of_canonical (p : platform) (i : WAVAudioInfo)
    (head rest : list byte) (pos : Z) (tr : list WAVHeader.access) :
  Z.of_nat (length (head ++ rest)) < 2147483648 -> (0 < length head)%nat ->
  WAVHeader.soundData p
    (WAVHeader.mk i (head ++ rest) (Z.of_nat (length (head ++ rest))) pos
       (Z.of_nat (length head)) tr)
  = (Some (rest, Z.of_nat (length rest)),
     WAVHeader.mk i (head ++ rest) (Z.of_nat (length (head ++ rest))) pos 0 tr).
Proof.
  intros Hfit Hhead. unfold WAVHeader.soundData.
  cbn [WAVHeader.sound_pos WAVHeader.buffer WAVHeader.len WAVHeader.headerInfo
       WAVHeader.data_pos WAVHeader.trail].
  replace (0 <? Z.of_nat (length head)) with true
    by (symmetry; apply Z.ltb_lt; lia).
  rewrite Nat2Z.id, drop_app_length.
  rewrite length_app in Hfit |- *.
  replace (Z.of_nat (length head + length rest) - Z.of_nat (length head))
    with (Z.of_nat (length rest)) by lia.
  rewrite (to_size_t_small p (Z.of_nat (length rest))) by lia.
  rewrite (to_long_small p (Z.of_nat (length rest))) by lia.
  rewrite Z.max_l by lia.
  rewrite (to_size_t_small p (Z.of_nat (length rest))) by lia.
  reflexivity.
Qed.

(** The first [write] of a session with a listener, once the scan of
    the buffer has ended with a PCM header and a [data] chunk. *)
Lemma decoder_first_write (p : platform) (fuel : nat) (o : Print)
    (l : AudioBaseInfoDependent) (a : bool) (buf : list byte)
    (h' h'' : WAVHeader.t) (slice : list byte) (n : Z) :
  WAVHeader.begin p fuel buf WAVHeader.fresh = (true, h') ->
  WAVHeader.soundData p h' = (Some (slice, n), h'') ->
  format (WAVHeader.headerInfo h'') = WAV_FORMAT_PCM ->
  WAVDecoder.write p fuel buf (WAVDecoder.begin (WAVDecoder.make_with o l a))
  = if validate l (announced h'') then
      Some (fst (Print_write slice n o),
            WAVDecoder.mk h'' (snd (Print_write slice n o))
              (Some (setAudioInfo (announced h'') l)) false true true)
    else Some (0, WAVDecoder.mk h'' o (Some l) false false true).
Proof.
  intros Hscan Hsound Hfmt.
  unfold WAVDecoder.write, WAVDecoder.begin, WAVDecoder.make_with.
  cbn [WAVDecoder.active WAVDecoder.isFirst WAVDecoder.header WAVDecoder.out
       WAVDecoder.audioBaseInfoSupport WAVDecoder.isValid].
  rewrite Hscan. cbn [negb]. rewrite Hsound, Hfmt.
  change (WAV_FORMAT_PCM =? WAV_FORMAT_PCM) with true. cbn [negb].
  fold (announced h'').
  destruct (validate l (announced h'')) eqn:Hv.
  - destruct (Print_write slice n o) as [res o'] eqn:Ew. reflexivity.
  - reflexivity.
Qed.

Lemma sound_keeps_info (p : platform) (h : WAVHeader.t) :
  WAVHeader.headerInfo (snd (WAVHeader.soundData p h)) = WAVHeader.headerInfo h.
Proof. unfold WAVHeader.soundData. destruct (0 <? WAVHeader.sound_pos h); reflexivity. Qed.

(** X12.  When the header scan of the first buffer ends with a located
    [data] chunk and the PCM format code but the listener refuses the
    format, the first [write] returns 0, the listener is not given the
    format, and neither that call nor any later one of the session
    passes a byte to the sink. *)
Theorem decoder_listener_refuses (p : platform) (fuel : nat) (o : Print)
    (l : AudioBaseInfoDependent) (a : bool) (buf : list byte) (h' : WAVHeader.t) :
  let d0 := WAVDecoder.begin (WAVDecoder.make_with o l a) in
  WAVHeader.begin p fuel buf (WAVDecoder.header d0) = (true, h') ->
  0 < WAVHeader.sound_pos h' ->
  format (WAVHeader.headerInfo h') = WAV_FORMAT_PCM ->
  validate l (announced h') = false ->
  exists d1,
    WAVDecoder.write p fuel buf d0 = Some (0, d1)
    /\ WAVDecoder.out d1 = o
    /\ WAVDecoder.audioBaseInfoSupport d1 = Some l
    /\ forall fuel' bufs,
        WAVDecoder.writes p fuel' bufs d1 = Some (repeat 0 (length bufs), d1).
Proof.
  intros d0 Hscan Hpos Hfmt Hveto. subst d0.
  cbn [WAVDecoder.begin WAVDecoder.make_with WAVDecoder.header] in Hscan.
  destruct (WAVHeader.soundData p h') as [sound h''] eqn:Hsound.
  assert (Hinfo : WAVHeader.headerInfo h'' = WAVHeader.headerInfo h').
  { pose proof (sound_keeps_info p h') as Hk. rewrite Hsound in Hk. exact Hk. }
  assert (Hsome : exists slice n, sound = Some (slice, n)).
  { unfold WAVHeader.soundData in Hsound.
    replace (0 <? WAVHeader.sound_pos h') with true in Hsound
      by (symmetry; apply Z.ltb_lt; exact Hpos).
    injection Hsound as <- _. eexists _, _. reflexivity. }
  destruct Hsome as [slice [n ->]].
  assert (Hann : announced h'' = announced h').
  { unfold announced. rewrite Hinfo. reflexivity. }
  rewrite (decoder_first_write p fuel o l a buf h' h'' slice n Hscan Hsound)
    by (rewrite Hinfo; exact Hfmt).
  rewrite Hann, Hveto.
  eexists. split; [reflexivity|]. split; [reflexivity|]. split; [reflexivity|].
  intros fuel' bufs. apply decoder_rejected; reflexivity.
Qed.

Lemma decoder_listener_refuses_witness :
  exists d1,
    WAVDecoder.write ILP32 10 pcm_header_abcd
      (WAVDecoder.begin (WAVDecoder.make_with unbounded_sink refusing_listener false))
    = Some (0, d1)
    /\ WAVDecoder.out d1 = unbounded_sink.
Proof.
  assert (Hscan : WAVHeader.begin ILP32 10 pcm_header_abcd WAVHeader.fresh
                  = (true, snd (WAVHeader.begin ILP32 10 pcm_header_abcd
                                  WAVHeader.fresh)))
    by (vm_compute; reflexivity).
  destruct (decoder_listener_refuses ILP32 10 unbounded_sink refusing_listener
              false pcm_header_abcd _ Hscan) as [d1 [Hw [Ho _]]].
  - vm_compute. reflexivity.
  - vm_compute. reflexivity.
  - reflexivity.
  - exists d1. split; [exact Hw|exact Ho].
Defined.

(** The first [write] of a decoder whose listener accepts the format,
    on a canonical PCM buffer. *)
Lemma decoder_canonical_first_write (p : platform) (fuel : nat) (o : Print)
    (l : AudioBaseInfoDependent) (a : bool)
    (riff_size fmt_size ch sr br ba bps data_size : Z)
    (extension rest : list byte) :
  let buf := wave_buffer riff_size fmt_size WAV_FORMAT_PCM ch sr br ba bps
               extension data_size rest in
  let bi := mkAudioBaseInfo sr ch bps in
  (3 <= fuel)%nat ->
  Z.of_nat (length buf) < 2147483648 ->
  0 <= riff_size < 4294967296 ->
  fmt_size = 16 + Z.of_nat (length extension) ->
  0 <= ch < 65536 -> 0 <= sr < 2147483648 -> 0 <= bps < 65536 ->
  ((riff_size = 0 \/ 2147418112 <= riff_size)
   /\ 0 <= data_size <= 4294967275 - fmt_size)
  \/ (20 + fmt_size + data_size <= riff_size < 2147418112
      /\ (data_size = 0
          \/ (0 < data_size < 2147418112
              /\ Z.of_nat (length rest) <= data_size))) ->
  validate l bi = true ->
  exists h,
    WAVDecoder.write p fuel buf (WAVDecoder.begin (WAVDecoder.make_with o l a))
    = Some (fst (Print_write rest (Z.of_nat (length rest)) o),
            WAVDecoder.mk h (snd (Print_write rest (Z.of_nat (length rest)) o))
              (Some (setAudioInfo bi l)) false true true).
Proof.
  intros buf bi Hfuel Hfit Hriff Hfmt Hch Hsr Hbps Hcases Hok.
  destruct (scan_canonical_state p fuel riff_size fmt_size WAV_FORMAT_PCM ch sr br
              ba bps data_size extension rest WAVHeader.fresh Hfuel Hfit Hriff
              Hfmt ltac:(unfold WAV_FORMAT_PCM; lia)
              ltac:(unfold WAV_FORMAT_PCM; lia) Hcases)
    as [i [pos [tr' [Hscan [_ [Hcode [Hrate [Hchan [Hbits _]]]]]]]]].
  fold buf in Hscan.
  pose proof (head_length riff_size fmt_size WAV_FORMAT_PCM ch sr br ba bps
                data_size extension Hfmt) as Hhead.
  pose proof (buf_split riff_size fmt_size WAV_FORMAT_PCM ch sr br ba bps
                data_size extension rest) as Hsplit.
  fold buf in Hsplit.
  assert (Hsound : WAVHeader.soundData p
                     (WAVHeader.mk i buf (Z.of_nat (length buf)) pos
                        (28 + fmt_size) tr')
                   = (Some (rest, Z.of_nat (length rest)),
                      WAVHeader.mk i buf (Z.of_nat (length buf)) pos 0 tr')).
  { rewrite <- Hhead. rewrite Hsplit. apply sound_of_canonical.
    - rewrite <- Hsplit. exact Hfit.
    - lia. }
  rewrite (decoder_first_write p fuel o l a buf _ _ rest _ Hscan Hsound)
    by exact Hcode.
  assert (Hann : announced (WAVHeader.mk i buf (Z.of_nat (length buf)) pos 0 tr')
                 = bi).
  { unfold announced, bi. cbn [WAVHeader.headerInfo].
    rewrite Hrate, Hchan, Hbits.
    rewrite (to_uint32_small sr), (to_int_small sr) by lia.
    rewrite (to_uint16_small ch), (to_uint16_small bps) by lia.
    reflexivity. }
  rewrite Hann, Hok.
  eexists. reflexivity.
Qed.



(** X14.  What a streaming encoder session sends for a PCM descriptor
    and a run of payloads, given in one buffer to a decoder whose
    listener accepts the format, comes out of the decoder as the
    payloads and nothing else, provided the [file_size] of the
    descriptor, from which the two size fields of the header are
    taken, is either 0x7fff0008 or more (the decoder then reads the
    RIFF size as that of a stream) or 44 plus a data size that is 0 or
    not less than the payloads: the first [write] of the decoder
    returns their total size and its sink holds them in order. *)
Theorem encoder_to_decoder_payload (p : platform) (fuel : nat) (ai : WAVAudioInfo)
    (e0 : WAVEncoder.t) (l : AudioBaseInfoDependent) (a : bool)
    (bufs : list (list byte)) :
  (3 <= fuel)%nat ->
  format ai = WAV_FORMAT_PCM ->
  0 <= channels ai < 65536 -> 0 <= bits_per_sample ai < 65536 ->
  0 <= sample_rate ai < 2147483648 ->
  2147418120 <= file_size ai < 4294967296
  \/ (44 <= file_size ai < 2147418120
      /\ (file_size ai = 44 \/ total bufs <= file_size ai - 44)) ->
  is_streamed ai = true \/ data_length ai = 0 \/ 2147418112 <= data_length ai ->
  bufs <> [] -> total bufs < 2147483604 ->
  validate l (mkAudioBaseInfo (sample_rate ai) (channels ai) (bits_per_sample ai))
  = true ->
  let e := snd (WAVEncoder.writes p bufs
                  (WAVEncoder.begin_with unbounded_sink ai e0)) in
  exists d1,
    WAVDecoder.write p fuel (WAVEncoder.sink_bytes e)
      (WAVDecoder.begin (WAVDecoder.make_with unbounded_sink l a))
    = Some (total bufs, d1)
    /\ taken (WAVDecoder.out d1) = concat bufs.
Proof.
  intros Hfuel Hpcm Hch Hbps Hsr Hfs Hmode Hne Htotal Hok e.
  assert (Hall : Forall (fun b => Z.of_nat (length b) < 2147483648) bufs).
  { rewrite Forall_forall. intros b Hb.
    apply list_elem_of_In, in_split in Hb. destruct Hb as [l1 [l2 ->]].
    unfold total in Htotal. rewrite concat_app in Htotal. cbn [concat] in Htotal.
    rewrite !length_app in Htotal. lia. }
  destruct (encoder_streaming_writes p ai
              (WAVEncoder.mk (Some unbounded_sink) (WAVEncoder.audioInfo e0)
                 (WAVEncoder.size_limit e0) (WAVEncoder.header_written e0)
                 (WAVEncoder.is_open e0))
              unbounded_sink bufs eq_refl (fun n => eq_refl) Hmode Hall Hne)
    as [_ [_ Hsink]].
  cbv zeta in Hsink.
  change (WAVEncoder.sink_bytes e = [] ++ encoded_header ai ++ concat bufs) in Hsink.
  cbn [app] in Hsink. rewrite Hsink.
  rewrite encoded_header_shape. unfold wave_buffer at 1.
  rewrite app_nil_r, <- !app_assoc.
  fold (wave_buffer (to_uint32 (file_size ai - 8)) 16 (format ai) (channels ai)
          (sample_rate ai)
          (to_uint32 (Z.quot (to_int (to_int (sample_rate ai * bits_per_sample ai)
                                      * channels ai)) 8))
          (to_uint32 (Z.quot (to_int (channels ai * bits_per_sample ai)) 8))
          (bits_per_sample ai) [] (to_uint32 (file_size ai - 44)) (concat bufs)).
  rewrite Hpcm.
  rewrite (to_uint32_small (file_size ai - 8)),
    (to_uint32_small (file_size ai - 44)) by lia.
  assert (Hfit : Z.of_nat (length (concat bufs)) + 44 < 2147483648)
    by (unfold total in Htotal; lia).
  match goal with
  | |- context [wave_buffer _ _ _ _ _ ?br ?ba _ _ _ _] =>
      destruct (decoder_canonical_first_write p fuel unbounded_sink l a
                  (file_size ai - 8) 16 (channels ai) (sample_rate ai) br ba
                  (bits_per_sample ai) (file_size ai - 44) [] (concat bufs)
                  Hfuel
                  ltac:(unfold wave_buffer, riff_header, fmt_chunk, data_header;
                        rewrite !length_app, !length_le_bytes; cbn [length]; lia)
                  ltac:(lia) ltac:(reflexivity) Hch Hsr Hbps
                  ltac:(unfold total in Hfs;
                        destruct Hfs as [Hbig|[Hsmall Hdata]];
                        [left; split; [right; lia|lia]
                        |right; split; [lia|];
                         destruct Hdata as [Hnone|Hcover];
                         [left; lia|destruct (Z.eq_dec (file_size ai) 44);
                                    [left; lia|right; lia]]]) Hok)
        as [h Hw]
  end.
  rewrite Hw.
  rewrite Print_write_all by (try reflexivity; lia).
  cbn [fst snd taken unbounded_sink app].
  rewrite Nat2Z.id, firstn_all.
  eexists. split; reflexivity.
Qed.

Lemma encoder_to_decoder_payload_witness :
  let ai := WAVEncoder.defaultConfig 44100 16 2 0 0 in
  let e := snd (WAVEncoder.writes ILP32 [["a"; "b"]; ["c"]]%byte
                  (WAVEncoder.begin_with unbounded_sink ai
                     (WAVEncoder.make ai 0 false))) in
  exists d1,
    WAVDecoder.write ILP32 3 (WAVEncoder.sink_bytes e)
      (WAVDecoder.begin (WAVDecoder.make_with unbounded_sink accepting_listener false))
    = Some (3, d1)
    /\ taken (WAVDecoder.out d1) = ["a"; "b"; "c"]%byte.
Proof.
  cbv zeta.
  apply (encoder_to_decoder_payload ILP32 3
           (WAVEncoder.defaultConfig 44100 16 2 0 0)
           (WAVEncoder.make (WAVEncoder.defaultConfig 44100 16 2 0 0) 0 false)
           accepting_listener false [["a"; "b"]; ["c"]]%byte).
  - lia.
  - reflexivity.
  - vm_compute. split; [discriminate|reflexivity].
  - vm_compute. split; [discriminate|reflexivity].
  - vm_compute. split; [discriminate|reflexivity].
  - left. vm_compute. split; [discriminate|reflexivity].
  - right. right. vm_compute. discriminate.
  - discriminate.
  - vm_compute. reflexivity.
  - reflexivity.
Defined.


(** ** The scanner: assertions on its steps *)

Lemma triple_ret {A} (P : WAVHeader.t -> Prop) (a : A)
    (Q : A -> WAVHeader.t -> Prop) :
  (forall h, P h -> Q a h) -> triple P (mret a) Q.
Proof. intros HPQ h Hh. exact (HPQ h Hh). Qed.

Lemma triple_bind {A B} (P : WAVHeader.t -> Prop) (m : WAVHeader.M A)
    (k : A -> WAVHeader.M B) (Q : A -> WAVHeader.t -> Prop)
    (R : B -> WAVHeader.t -> Prop) :
  triple P m Q -> (forall a, triple (Q a) (k a) R) -> triple P (m ≫= k) R.
Proof.
  intros Hm Hk h Hh. unfold mbind, WAVHeader.M_bind.
  specialize (Hm h Hh). destruct (m h) as [a h']. exact (Hk a h' Hm).
Qed.

Lemma triple_pre {A} (P P' : WAVHeader.t -> Prop) (m : WAVHeader.M A)
    (Q : A -> WAVHeader.t -> Prop) :
  (forall h, P' h -> P h) -> triple P m Q -> triple P' m Q.
Proof. intros HP Hm h Hh. apply Hm, HP, Hh. Qed.

Lemma triple_post {A} (P : WAVHeader.t -> Prop) (m : WAVHeader.M A)
    (Q Q' : A -> WAVHeader.t -> Prop) :
  (forall a h, Q a h -> Q' a h) -> triple P m Q -> triple P m Q'.
Proof. intros HQ Hm h Hh. apply HQ, Hm, Hh. Qed.

(** *** [sound_pos] stays inside the buffer *)

Section SoundInside.
Variable p : platform.
Variable buf : list byte.

Local Abbreviation J := (sound_inside buf).

Ltac inside_split :=
  unfold sound_inside;
  cbn [fst snd WAVHeader.buffer WAVHeader.len WAVHeader.data_pos
       WAVHeader.sound_pos];
  repeat match goal with |- _ /\ _ => split end;
  first [ assumption | lia | apply to_size_t_nonneg | left; exact I
        | right; lia | idtac ].

Lemma sound_inside_weaken (c : Prop) (h : WAVHeader.t) : J c h -> J True h.
Proof. intros [Hb [Hl [Hd [Hs _]]]]. inside_split. Qed.

Lemma inside_ret {A} (c : Prop) (a : A) : triple (J c) (mret a) (fun _ => J True).
Proof. apply triple_ret. apply sound_inside_weaken. Qed.

Lemma inside_getChar (c : Prop) : triple (J c) WAVHeader.getChar (fun _ => J c).
Proof.
  intros h [Hb [Hl [Hd [Hs Hc]]]]. unfold WAVHeader.getChar.
  destruct (Z.ltb_spec (WAVHeader.data_pos h) (WAVHeader.len h)) as [Hin|Hout];
    inside_split.
Qed.

Lemma inside_eof (c : Prop) : triple (J c) (WAVHeader.eof p) (fun _ => J c).
Proof. intros h Hh. exact Hh. Qed.

Lemma inside_info (c : Prop) : triple (J c) WAVHeader.info (fun _ => J c).
Proof. intros h Hh. exact Hh. Qed.

Lemma inside_with_info (c : Prop) (f : WAVAudioInfo -> WAVAudioInfo) :
  triple (J c) (WAVHeader.with_info f) (fun _ => J c).
Proof. intros h Hh. exact Hh. Qed.

Lemma inside_seek (c : Prop) (off : Z) (o : WAVHeader.origin) :
  triple (J c) (WAVHeader.seek p off o) (fun _ => J True).
Proof.
  intros h [Hb [Hl [Hd [Hs Hc]]]]. unfold WAVHeader.seek.
  destruct o; inside_split.
Qed.

(** [sound_pos = tell()], with the cursor inside the buffer. *)
Lemma inside_mark {A} (k : WAVHeader.M A) (Q : A -> WAVHeader.t -> Prop) :
  triple (J False) k Q ->
  triple (J False) (q ← WAVHeader.tell; WAVHeader.set_sound_pos q;; k) Q.
Proof.
  intros Hk h [Hb [Hl [Hd [Hs Hc]]]].
  unfold mbind, WAVHeader.M_bind, WAVHeader.tell, WAVHeader.set_sound_pos.
  apply Hk. destruct Hc as [[]|Hc]. inside_split.
Qed.

Create HintDb inside.

#[local] Hint Resolve inside_ret inside_getChar inside_eof inside_info
  inside_with_info inside_seek : inside.

Ltac inside_auto :=
  repeat first
    [ eapply triple_bind; [solve [auto with inside]|intros ?; cbv beta]
    | solve [auto with inside]
    | match goal with
      | |- triple _ (if ?x then _ else _) _ => destruct x eqn:?
      | |- triple _ (match ?x with _ => _ end) _ => destruct x eqn:?
      | |- triple _ ((if ?x then _ else _) ≫= _) _ => destruct x eqn:?
      end ].

Lemma inside_read_int32 (c : Prop) :
  triple (J c) WAVHeader.read_int32 (fun _ => J c).
Proof.
  unfold WAVHeader.read_int32.
  eapply triple_bind; [apply inside_getChar|intros ?; cbv beta].
  eapply triple_bind; [apply inside_getChar|intros ?; cbv beta].
  eapply triple_bind; [apply inside_getChar|intros ?; cbv beta].
  eapply triple_bind; [apply inside_getChar|intros ?; cbv beta].
  apply triple_ret. intros h Hh. exact Hh.
Qed.

Lemma inside_read_int16 (c : Prop) :
  triple (J c) WAVHeader.read_int16 (fun _ => J c).
Proof.
  unfold WAVHeader.read_int16.
  eapply triple_bind; [apply inside_getChar|intros ?; cbv beta].
  eapply triple_bind; [apply inside_getChar|intros ?; cbv beta].
  apply triple_ret. intros h Hh. exact Hh.
Qed.

Lemma inside_skip (c : Prop) (k : Z) : triple (J c) (WAVHeader.skip k) (fun _ => J c).
Proof.
  unfold WAVHeader.skip. induction (Z.to_nat k) as [|j IH];
    cbn [WAVHeader.skip_loop].
  - apply triple_ret. intros h Hh. exact Hh.
  - eapply triple_bind; [apply inside_getChar|intros ?; cbv beta]. exact IH.
Qed.

Lemma lor_all_ones (x : Z) : Z.lor (to_uint32 x) 4294967295 = 4294967295.
Proof.
  unfold to_uint32, wrap_unsigned.
  change 4294967295 with (Z.ones 32).
  apply Z.bits_inj'. intros k Hk.
  rewrite Z.lor_spec.
  destruct (Z.lt_ge_cases k 32) as [Hlt|Hge].
  - rewrite Z.ones_spec_low by lia. apply orb_true_r.
  - rewrite Z.ones_spec_high by lia. rewrite orb_false_r.
    apply Z.mod_pow2_bits_high. lia.
Qed.

(** A tag other than 0xFFFFFFFF was read from the buffer: the cursor
    is then not beyond its end. *)
Lemma inside_read_tag (c : Prop) :
  triple (J c) WAVHeader.read_tag (fun v => J (v = 4294967295)).
Proof.
  unfold WAVHeader.read_tag.
  eapply triple_bind; [apply inside_getChar|intros c0; cbv beta].
  eapply triple_bind; [apply inside_getChar|intros c1; cbv beta].
  eapply triple_bind; [apply inside_getChar|intros c2; cbv beta].
  intros h [Hb [Hl [Hd [Hs _]]]].
  unfold mbind, mret, WAVHeader.M_bind, WAVHeader.M_ret, WAVHeader.getChar.
  destruct (Z.ltb_spec (WAVHeader.data_pos h) (WAVHeader.len h)) as [Hin|Hout];
    cbv beta iota; inside_split.
  left. change (to_uint32 (-1)) with 4294967295. apply lor_all_ones.
Qed.

Lemma inside_read_tag_any (c : Prop) :
  triple (J c) WAVHeader.read_tag (fun _ => J True).
Proof.
  apply (triple_post _ _ (fun v => J (v = 4294967295))); [|apply inside_read_tag].
  intros v h. apply sound_inside_weaken.
Qed.

#[local] Hint Resolve inside_read_int32 inside_read_int16 inside_skip
  inside_read_tag_any : inside.

Lemma inside_chunk_body (remaining : Z) :
  triple (J True) (WAVHeader.chunk_body p remaining) (fun _ => J True).
Proof.
  unfold WAVHeader.chunk_body.
  eapply triple_bind; [apply inside_read_tag|intros subtag; cbv beta].
  eapply triple_bind; [apply inside_eof|intros e; cbv beta].
  destruct e; [apply inside_ret|].
  eapply triple_bind; [apply inside_read_int32|intros sublength; cbv beta].
  destruct (to_uint32 (remaining - 8) <? sublength); [apply inside_ret|].
  destruct (subtag =? TAG "f" "m" "t" " "); [inside_auto|].
  destruct (Z.eqb_spec subtag (TAG "d" "a" "t" "a")) as [Hdata|_]; [|inside_auto].
  apply (triple_pre (J False)).
  { intros h [Hb [Hl [Hd [Hs Hc]]]]. inside_split.
    destruct Hc as [Hc|Hc]; [|right; exact Hc].
    rewrite Hdata in Hc. vm_compute in Hc. discriminate. }
  apply inside_mark. inside_auto.
Qed.

#[local] Hint Resolve inside_chunk_body : inside.

Lemma inside_chunk_loop (fuel : nat) :
  forall remaining,
    triple (J True) (WAVHeader.chunk_loop p fuel remaining) (fun _ => J True).
Proof.
  induction fuel as [|fuel IH]; intros remaining; cbn [WAVHeader.chunk_loop];
    inside_auto.
Qed.

#[local] Hint Resolve inside_chunk_loop : inside.

Lemma inside_riff_body (inner : nat) :
  triple (J True) (WAVHeader.riff_body p inner) (fun _ => J True).
Proof.
  unfold WAVHeader.riff_body.
  eapply triple_bind; [apply inside_read_tag|intros tag; cbv beta].
  inside_auto.
Qed.

#[local] Hint Resolve inside_riff_body : inside.

Lemma inside_riff_loop (fuel inner : nat) :
  triple (J True) (WAVHeader.riff_loop p fuel inner) (fun _ => J True).
Proof.
  induction fuel as [|fuel IH]; cbn [WAVHeader.riff_loop]; inside_auto.
Qed.

Lemma inside_begin (fuel : nat) (h0 : WAVHeader.t) :
  0 <= WAVHeader.sound_pos h0 <= Z.of_nat (length buf) ->
  J True (snd (WAVHeader.begin p fuel buf h0)).
Proof.
  intros Hs. unfold WAVHeader.begin.
  apply inside_riff_loop. inside_split; reflexivity.
Qed.

End SoundInside.

(** X15.  Whatever bytes a buffer holds and however far its scan gets,
    [WAVHeader::begin] leaves [sound_pos] at an offset inside the
    buffer; for a buffer shorter than 2^31 bytes the slice [soundData]
    then yields starts at that offset, and the length it reports is the
    number of bytes from there to the end of the buffer, never more. *)
Theorem sound_data_stays_in_buffer (p : platform) (fuel : nat) (buf : list byte)
    (h0 : WAVHeader.t) :
  0 <= WAVHeader.sound_pos h0 <= Z.of_nat (length buf) ->
  Z.of_nat (length buf) < 2147483648 ->
  let h := snd (WAVHeader.begin p fuel buf h0) in
  0 <= WAVHeader.sound_pos h <= Z.of_nat (length buf)
  /\ forall slice n,
       fst (WAVHeader.soundData p h) = Some (slice, n) ->
       slice = drop (Z.to_nat (WAVHeader.sound_pos h)) buf
       /\ n = Z.of_nat (length slice)
       /\ n = Z.of_nat (length buf) - WAVHeader.sound_pos h.
Proof.
  intros Hs Hfit h.
  destruct (inside_begin p buf fuel h0 Hs) as [Hb [Hl [_ [Hsp _]]]].
  fold h in Hb, Hl, Hsp.
  split; [exact Hsp|].
  intros slice n. unfold WAVHeader.soundData.
  destruct (Z.ltb_spec 0 (WAVHeader.sound_pos h)) as [Hpos|Hzero];
    cbn [fst]; [|discriminate].
  intros Heq. injection Heq as <- <-.
  rewrite Hb, Hl.
  set (k := Z.of_nat (length buf) - WAVHeader.sound_pos h).
  rewrite (to_size_t_small p k) by lia.
  rewrite (to_long_small p k) by lia.
  rewrite Z.max_l by lia.
  rewrite (to_size_t_small p k) by lia.
  split; [reflexivity|]. split; [|reflexivity].
  rewrite length_drop. lia.
Qed.

Lemma sound_data_stays_in_buffer_witness :
  let h := snd (WAVHeader.begin ILP32 3 pcm_with_trailer WAVHeader.fresh) in
  0 <= WAVHeader.sound_pos h <= Z.of_nat (length pcm_with_trailer).
Proof.
  apply (sound_data_stays_in_buffer ILP32 3 pcm_with_trailer WAVHeader.fresh).
  - vm_compute. split; discriminate.
  - vm_compute. reflexivity.
Defined.


(** *** The scan on a target with a 64-bit [long] *)

Lemma triple_frame {A} (P : WAVHeader.t -> Prop) (phi : Prop)
    (m : WAVHeader.M A) (Q : A -> WAVHeader.t -> Prop) :
  (phi -> triple P m Q) -> triple (fun h => P h /\ phi) m Q.
Proof. intros Hm h [Hh Hphi]. exact (Hm Hphi h Hh). Qed.

Lemma triple_value {A} (P Q : WAVHeader.t -> Prop) (R : A -> Prop)
    (m : WAVHeader.M A) :
  triple P m (fun _ => Q) -> (forall h, R (fst (m h))) ->
  triple P m (fun v h => Q h /\ R v).
Proof. intros Hm HR h Hh. split; [exact (Hm h Hh)|apply HR]. Qed.

Lemma triple_at {A} (P : WAVHeader.t -> Prop) (m : WAVHeader.M A)
    (Q : A -> WAVHeader.t -> Prop) :
  (forall h0, P h0 -> triple (fun h => h = h0) m Q) -> triple P m Q.
Proof. intros Hm h Hh. exact (Hm h Hh h eq_refl). Qed.

Lemma to_uint32_range (x : Z) : 0 <= to_uint32 x < 4294967296.
Proof.
  unfold to_uint32, wrap_unsigned. change (2 ^ 32) with 4294967296.
  apply Z.mod_pos_bound. lia.
Qed.

Lemma lor_uint32 (x y : Z) :
  Z.lor (to_uint32 x) (to_uint32 y) = to_uint32 (Z.lor x y).
Proof.
  unfold to_uint32, wrap_unsigned.
  apply Z.bits_inj'. intros k Hk.
  rewrite Z.lor_spec.
  destruct (Z.lt_ge_cases k 32) as [Hlt|Hge].
  - rewrite !Z.mod_pow2_bits_low by lia. rewrite Z.lor_spec. reflexivity.
  - rewrite !Z.mod_pow2_bits_high by lia. reflexivity.
Qed.

Lemma read_int32_range (h : WAVHeader.t) :
  0 <= fst (WAVHeader.read_int32 h) < 4294967296.
Proof.
  unfold WAVHeader.read_int32, mbind, mret, WAVHeader.M_bind, WAVHeader.M_ret.
  destruct (WAVHeader.getChar h) as [c0 h1].
  destruct (WAVHeader.getChar h1) as [c1 h2].
  destruct (WAVHeader.getChar h2) as [c2 h3].
  destruct (WAVHeader.getChar h3) as [c3 h4].
  cbn [fst]. rewrite Z.lor_0_l, !lor_uint32. apply to_uint32_range.
Qed.

Lemma to_long_LP64_small (z : Z) :
  0 <= z < 4294967296 -> to_long LP64 z = z.
Proof.
  intros Hz. unfold to_long, wrap_signed. cbn [long_bits].
  change (2 ^ (64 - 1)) with 9223372036854775808.
  change (2 ^ 64) with 18446744073709551616.
  rewrite Z.mod_small; lia.
Qed.

Lemma to_size_t_LP64_small (z : Z) :
  0 <= z < 18446744073709551616 -> to_size_t LP64 z = z.
Proof.
  intros Hz. unfold to_size_t, wrap_unsigned. cbn [long_bits].
  change (2 ^ 64) with 18446744073709551616. apply Z.mod_small. exact Hz.
Qed.

Section Advancing.
Variable ok : WAVHeader.access -> Prop.
Hypothesis ok_fetch : forall i, ok (WAVHeader.Fetch i).
Hypothesis ok_sentinel : forall pos, ok (WAVHeader.Sentinel pos).
Hypothesis ok_moved : forall from to, from <= to -> ok (WAVHeader.Moved from to).
Variable n : Z.
Hypothesis n_range : 1 <= n < 4294967296.

Local Abbreviation adv := (advancing ok n).

Ltac adv_split :=
  unfold advancing;
  cbn [fst snd WAVHeader.len WAVHeader.data_pos WAVHeader.trail];
  repeat match goal with |- _ /\ _ => split end;
  first [ assumption | lia
        | apply Forall_cons; split;
          [first [apply ok_fetch | apply ok_sentinel | apply ok_moved; lia]
          |assumption]
        | idtac ].

Lemma adv_weaken (k k' c c' : Z) (h : WAVHeader.t) :
  k <= k' <= 2 -> 0 <= c' <= c -> adv k c h -> adv k' c' h.
Proof. intros Hk Hc [Hl [Hk0 [Hc0 [Hd Ht]]]]. adv_split. Qed.

Lemma adv_getChar (k c : Z) :
  triple (adv k c) WAVHeader.getChar (fun _ => adv k c).
Proof.
  intros h [Hl [Hk [Hc [Hd Ht]]]]. unfold WAVHeader.getChar.
  destruct (Z.ltb_spec (WAVHeader.data_pos h) (WAVHeader.len h)) as [Hin|Hout];
    adv_split.
Qed.

Lemma adv_getChar_step (k c : Z) :
  c < n ->
  triple (fun h => adv k c h /\ WAVHeader.data_pos h = c) WAVHeader.getChar
    (fun _ => adv k (c + 1)).
Proof.
  intros Hcn h [[Hl [Hk [Hc [Hd Ht]]]] Hpos]. unfold WAVHeader.getChar.
  destruct (Z.ltb_spec (WAVHeader.data_pos h) (WAVHeader.len h)) as [Hin|Hout];
    [|lia].
  adv_split.
Qed.

Lemma adv_info (k c : Z) : triple (adv k c) WAVHeader.info (fun _ => adv k c).
Proof. intros h Hh. exact Hh. Qed.

Lemma adv_with_info (k c : Z) (f : WAVAudioInfo -> WAVAudioInfo) :
  triple (adv k c) (WAVHeader.with_info f) (fun _ => adv k c).
Proof. intros h Hh. exact Hh. Qed.

Lemma adv_tell (k c : Z) : triple (adv k c) WAVHeader.tell (fun _ => adv k c).
Proof. intros h Hh. exact Hh. Qed.

Lemma adv_set_sound_pos (k c v : Z) :
  triple (adv k c) (WAVHeader.set_sound_pos v) (fun _ => adv k c).
Proof. intros h Hh. exact Hh. Qed.

Lemma adv_unit (k c : Z) : triple (adv k c) (mret tt) (fun _ => adv k c).
Proof. intros h Hh. exact Hh. Qed.

Lemma adv_bool (k c : Z) (b : bool) : triple (adv k c) (mret b) (fun _ => adv k c).
Proof. intros h Hh. exact Hh. Qed.

Lemma adv_eof (k c : Z) :
  triple (adv k c) (WAVHeader.eof LP64)
    (fun e h => if e : bool then adv k c h
                else adv 0 c h /\ WAVHeader.data_pos h < n - 1).
Proof.
  intros h [Hl [Hk [Hc [Hd Ht]]]]. unfold WAVHeader.eof. cbn [fst snd].
  rewrite Hl, (to_size_t_LP64_small (n - 1)) by lia.
  destruct (Z.leb_spec (n - 1) (WAVHeader.data_pos h)) as [Hend|Hmore].
  - adv_split.
  - split; [adv_split|exact Hmore].
Qed.

Lemma adv_seek (k c off : Z) :
  k <= 1 -> 0 <= off < 4294967296 ->
  triple (adv k c) (WAVHeader.seek LP64 (to_long LP64 off) WAVHeader.SEEK_CUR)
    (fun _ => adv (k + 1) c).
Proof.
  intros Hk1 Hoff h [Hl [Hk [Hc [Hd Ht]]]]. unfold WAVHeader.seek.
  rewrite (to_long_LP64_small off) by exact Hoff.
  rewrite (to_size_t_LP64_small off) by lia.
  rewrite (to_size_t_LP64_small (WAVHeader.data_pos h + off)) by lia.
  adv_split.
Qed.

Create HintDb adv.

#[local] Hint Resolve adv_getChar adv_info adv_with_info adv_tell
  adv_set_sound_pos adv_unit adv_bool : adv.

Ltac adv_keep :=
  repeat first
    [ eapply triple_bind; [solve [auto with adv]|intros ?; cbv beta]
    | solve [auto with adv] ].

Lemma adv_read_tag (k c : Z) :
  triple (adv k c) WAVHeader.read_tag (fun _ => adv k c).
Proof.
  unfold WAVHeader.read_tag. adv_keep.
  apply triple_ret. intros h Hh. exact Hh.
Qed.

Lemma adv_read_int16 (k c : Z) :
  triple (adv k c) WAVHeader.read_int16 (fun _ => adv k c).
Proof.
  unfold WAVHeader.read_int16. adv_keep.
  apply triple_ret. intros h Hh. exact Hh.
Qed.

Lemma adv_read_int32 (k c : Z) :
  triple (adv k c) WAVHeader.read_int32
    (fun v h => adv k c h /\ 0 <= v < 4294967296).
Proof.
  apply triple_value; [|apply read_int32_range].
  unfold WAVHeader.read_int32. adv_keep.
  apply triple_ret. intros h Hh. exact Hh.
Qed.

Lemma adv_skip (k c j : Z) : triple (adv k c) (WAVHeader.skip j) (fun _ => adv k c).
Proof.
  unfold WAVHeader.skip. induction (Z.to_nat j) as [|i IH];
    cbn [WAVHeader.skip_loop].
  - apply adv_unit.
  - eapply triple_bind; [apply adv_getChar|intros ?; cbv beta]. exact IH.
Qed.

(** The first byte of a tag read with the cursor inside the buffer
    moves the cursor on. *)
Lemma adv_read_tag_step (k c : Z) :
  c < n ->
  triple (fun h => adv k c h /\ WAVHeader.data_pos h = c) WAVHeader.read_tag
    (fun _ => adv k (c + 1)).
Proof.
  intros Hcn. unfold WAVHeader.read_tag.
  eapply triple_bind; [apply adv_getChar_step; exact Hcn|intros ?; cbv beta].
  adv_keep. apply triple_ret. intros h Hh. exact Hh.
Qed.

#[local] Hint Resolve adv_read_tag adv_read_int16 adv_skip : adv.

(** The end of a pass: a result within range, from a state that is at
    most one seek beyond the buffer. *)
Lemma adv_result (k c c' : Z) (r : WAVHeader.flow) :
  k <= 1 -> 0 <= c' <= c -> flow_range r -> r <> WAVHeader.Starved ->
  triple (adv k c) (mret r)
    (fun r h => flow_range r /\ r <> WAVHeader.Starved /\ adv 1 c' h).
Proof.
  intros Hk Hc Hr Hs. apply triple_ret. intros h Hh.
  split; [exact Hr|]. split; [exact Hs|].
  apply (adv_weaken k 1 c c'); [destruct Hh as [_ [Hk0 _]]; lia|exact Hc|exact Hh].
Qed.

Ltac adv_flow :=
  first [ apply adv_result;
          [ lia | lia
          | cbn [flow_range]; first [apply to_uint32_range | assumption | lia]
          | discriminate ]
        | eapply triple_bind;
          [ first [ solve [auto with adv]
                  | apply adv_seek; [lia|first [assumption|apply to_uint32_range]] ]
          | intros ?; cbv beta ] ].

Lemma adv_chunk_body (c remaining : Z) :
  0 <= c -> 0 <= remaining < 4294967296 ->
  triple (fun h => adv 1 c h /\ WAVHeader.data_pos h = c)
    (WAVHeader.chunk_body LP64 remaining)
    (fun r h => flow_range r /\ r <> WAVHeader.Starved
                /\ adv 1 c h
                /\ forall l, r = WAVHeader.Next l ->
                     c < n - 1 /\ c + 1 <= WAVHeader.data_pos h).
Proof.
  intros Hc Hrem. unfold WAVHeader.chunk_body.
  destruct (Z.lt_ge_cases c n) as [Hin|Hout].
  - eapply triple_bind; [apply adv_read_tag_step; exact Hin|intros subtag; cbv beta].
    eapply triple_bind; [apply adv_eof|intros e; cbv beta].
    destruct e.
    + apply triple_ret. intros h Hh.
      split; [exact Hrem|]. split; [discriminate|].
      split; [apply (adv_weaken 1 1 (c + 1) c); [lia|lia|exact Hh]|].
      intros l Hl. discriminate.
    + apply triple_at. intros h0 [Hadv Hmore].
      assert (Hcn : c < n - 1) by (destruct Hadv as [_ [_ [_ [Hd _]]]]; lia).
      apply (triple_pre (adv 0 (c + 1))); [intros h ->; exact Hadv|].
      apply (triple_post _ _
               (fun r h => flow_range r /\ r <> WAVHeader.Starved
                           /\ adv 1 (c + 1) h)).
      { intros r h [Hr [Hs Ha]]. split; [exact Hr|]. split; [exact Hs|].
        split; [apply (adv_weaken 1 1 (c + 1) c); [lia|lia|exact Ha]|].
        intros l _. split; [exact Hcn|]. destruct Ha as [_ [_ [_ [Hd _]]]]. lia. }
      eapply triple_bind; [apply adv_read_int32|intros sublength; cbv beta].
      apply triple_frame. intros Hsub.
      destruct (to_uint32 (remaining - 8) <? sublength); [adv_flow|].
      destruct (subtag =? TAG "f" "m" "t" " ").
      * destruct (sublength <? 16); [adv_flow|].
        do 6 (eapply triple_bind;
              [first [apply adv_read_int16
                     |eapply triple_post; [|apply adv_read_int32];
                      intros ? ? [Ha _]; exact Ha]
              |intros ?; cbv beta];
              eapply triple_bind; [apply adv_with_info|intros ?; cbv beta]).
        eapply triple_bind; [apply adv_info|intros i; cbv beta].
        destruct (format i =? 65534).
        -- destruct (sublength <? 28); [adv_flow|].
           eapply triple_bind; [apply adv_skip|intros ?; cbv beta].
           eapply triple_bind;
             [eapply triple_post; [|apply adv_read_int32];
              intros ? ? [Ha _]; exact Ha|intros ?; cbv beta].
           repeat adv_flow.
        -- repeat adv_flow.
      * destruct (subtag =? TAG "d" "a" "t" "a").
        -- eapply triple_bind; [apply adv_tell|intros q; cbv beta].
           eapply triple_bind; [apply adv_set_sound_pos|intros ?; cbv beta].
           eapply triple_bind; [apply adv_with_info|intros ?; cbv beta].
           eapply triple_bind; [apply adv_info|intros i; cbv beta].
           destruct ((data_length i =? 0) || is_streamed i); repeat adv_flow.
        -- repeat adv_flow.
  - eapply triple_bind.
    { apply (triple_pre (adv 1 c)); [intros h [Hh _]; exact Hh|].
      apply adv_read_tag. }
    intros subtag; cbv beta.
    eapply triple_bind; [apply adv_eof|intros e; cbv beta].
    destruct e.
    + apply triple_ret. intros h Hh.
      split; [exact Hrem|]. split; [discriminate|].
      split; [exact Hh|]. intros l Hl. discriminate.
    + apply triple_at. intros h0 [Hadv Hmore].
      destruct Hadv as [_ [_ [_ [Hd _]]]]. lia.
Qed.

Lemma adv_chunk_loop (fuel : nat) :
  forall c remaining,
    0 <= c -> 0 <= remaining < 4294967296 ->
    Z.max 0 (n - c) < Z.of_nat fuel ->
    triple (fun h => adv 1 c h /\ WAVHeader.data_pos h = c)
      (WAVHeader.chunk_loop LP64 fuel remaining)
      (fun r h => flow_range r /\ r <> WAVHeader.Starved /\ adv 1 c h).
Proof.
  induction fuel as [|fuel IH]; intros c remaining Hc Hrem Hfuel; [lia|].
  cbn [WAVHeader.chunk_loop].
  destruct (8 <=? remaining).
  - eapply triple_bind; [apply adv_chunk_body; assumption|intros r; cbv beta].
    destruct r as [l|l| |].
    + apply triple_at. intros h0 [Hr [_ [Hadv Hnext]]].
      destruct (Hnext l eq_refl) as [Hcn Hstep].
      eapply triple_post;
        [|apply (triple_pre
                   (fun h => adv 1 (WAVHeader.data_pos h0) h
                             /\ WAVHeader.data_pos h = WAVHeader.data_pos h0));
          [|apply (IH (WAVHeader.data_pos h0) l); [lia|exact Hr|lia]]].
      * intros r h [Hr' [Hs Ha]]. split; [exact Hr'|]. split; [exact Hs|].
        apply (adv_weaken 1 1 (WAVHeader.data_pos h0) c); [lia|lia|exact Ha].
      * intros h ->. split; [|reflexivity].
        destruct Hadv as [Hl [Hk [_ [Hd Ht]]]]. adv_split.
    + apply triple_ret. intros h [Hr [Hs [Ha _]]].
      split; [exact Hr|]. split; [exact Hs|exact Ha].
    + apply triple_ret. intros h [Hr [Hs [Ha _]]].
      split; [exact Hr|]. split; [exact Hs|exact Ha].
    + apply triple_ret. intros h [_ [Hs _]]. congruence.
  - apply triple_ret. intros h [Ha _].
    split; [exact Hrem|]. split; [discriminate|exact Ha].
Qed.

Lemma adv_riff_body (c : Z) (inner : nat) :
  0 <= c < n - 1 -> n < Z.of_nat inner ->
  triple (fun h => adv 0 c h /\ WAVHeader.data_pos h = c)
    (WAVHeader.riff_body LP64 inner)
    (fun r h => r <> WAVHeader.Starved /\ adv 2 (c + 1) h).
Proof.
  intros Hc Hinner. unfold WAVHeader.riff_body.
  eapply triple_bind; [apply adv_read_tag_step; lia|intros tag; cbv beta].
  eapply triple_bind; [apply adv_eof|intros e; cbv beta].
  destruct e.
  { apply triple_ret. intros h Hh. split; [discriminate|].
    apply (adv_weaken 0 2 (c + 1) (c + 1)); [lia|lia|exact Hh]. }
  apply (triple_pre (adv 0 (c + 1))); [intros h [Hh _]; exact Hh|].
  eapply triple_bind; [apply adv_read_int32|intros length; cbv beta].
  apply triple_frame. intros Hlen.
  eapply triple_bind; [apply adv_bool|intros streamed; cbv beta].
  eapply triple_bind.
  { instantiate (1 := fun _ => adv 0 (c + 1)).
    destruct streamed; [apply adv_with_info|apply adv_unit]. }
  intros ?; cbv beta.
  set (length' := if streamed then to_uint32 (-1) else length).
  assert (Hlen' : 0 <= length' < 4294967296).
  { subst length'. destruct streamed; [apply to_uint32_range|exact Hlen]. }
  clearbody length'.
  assert (Hfinal : forall (k : Z) (r : WAVHeader.flow),
             k <= 2 -> r <> WAVHeader.Starved ->
             triple (adv k (c + 1)) (mret r)
               (fun r h => r <> WAVHeader.Starved /\ adv 2 (c + 1) h)).
  { intros k r Hk Hr. apply triple_ret. intros h Hh. split; [exact Hr|].
    apply (adv_weaken k 2 (c + 1) (c + 1)); [|lia|exact Hh].
    destruct Hh as [_ [Hk0 _]]. lia. }
  destruct (negb (tag =? TAG "R" "I" "F" "F") || (length' <? 4)).
  { eapply triple_bind; [apply adv_seek; [lia|exact Hlen']|intros ?; cbv beta].
    apply Hfinal; [lia|discriminate]. }
  eapply triple_bind; [apply adv_read_tag|intros tag2; cbv beta].
  destruct (negb (tag2 =? TAG "W" "A" "V" "E")).
  { eapply triple_bind;
      [apply adv_seek; [lia|apply to_uint32_range]|intros ?; cbv beta].
    apply Hfinal; [lia|discriminate]. }
  eapply triple_bind.
  { apply triple_at. intros h0 Hadv.
    eapply triple_post;
      [|apply (triple_pre
                 (fun h => adv 1 (WAVHeader.data_pos h0) h
                           /\ WAVHeader.data_pos h = WAVHeader.data_pos h0));
        [|apply (adv_chunk_loop inner (WAVHeader.data_pos h0)
                   (to_uint32 (length' - 4)));
          [destruct Hadv as [_ [_ [_ [Hd _]]]]; lia
          |apply to_uint32_range
          |destruct Hadv as [_ [_ [_ [Hd _]]]]; lia]]].
    - intros r h [Hr [Hs Ha]].
      instantiate (1 := fun r h => flow_range r /\ r <> WAVHeader.Starved
                                   /\ adv 1 (c + 1) h).
      cbv beta. split; [exact Hr|]. split; [exact Hs|].
      apply (adv_weaken 1 1 (WAVHeader.data_pos h0) (c + 1));
        [lia|destruct Hadv as [_ [_ [_ [Hd _]]]]; lia|exact Ha].
    - intros h ->. split; [|reflexivity].
      destruct Hadv as [Hl [Hk [_ [Hd Ht]]]]. adv_split. }
  intros r; cbv beta.
  destruct r as [l|l| |].
  - apply (triple_pre (fun h => adv 1 (c + 1) h /\ 0 <= l < 4294967296)).
    { intros h [Hr [_ Ha]]. split; [exact Ha|exact Hr]. }
    apply triple_frame. intros Hl.
    eapply triple_bind.
    { instantiate (1 := fun _ => adv 2 (c + 1)).
      destruct (0 <? l).
      - apply (adv_seek 1 (c + 1) l); [lia|exact Hl].
      - apply triple_ret. intros h Hh.
        apply (adv_weaken 1 2 (c + 1) (c + 1)); [lia|lia|exact Hh]. }
    intros ?; cbv beta. apply Hfinal; [lia|discriminate].
  - apply (triple_pre (fun h => adv 1 (c + 1) h /\ 0 <= l < 4294967296)).
    { intros h [Hr [_ Ha]]. split; [exact Ha|exact Hr]. }
    apply triple_frame. intros Hl.
    eapply triple_bind.
    { instantiate (1 := fun _ => adv 2 (c + 1)).
      destruct (0 <? l).
      - apply (adv_seek 1 (c + 1) l); [lia|exact Hl].
      - apply triple_ret. intros h Hh.
        apply (adv_weaken 1 2 (c + 1) (c + 1)); [lia|lia|exact Hh]. }
    intros ?; cbv beta. apply Hfinal; [lia|discriminate].
  - apply (triple_pre (adv 1 (c + 1))); [intros h [_ [_ Ha]]; exact Ha|].
    apply Hfinal; [lia|discriminate].
  - intros h [_ [Hs _]]. congruence.
Qed.

Lemma eof_bind {A} (p : platform) (k : bool -> WAVHeader.M A) (h : WAVHeader.t) :
  (WAVHeader.eof p ≫= k) h
  = k (to_size_t p (WAVHeader.len h - 1) <=? WAVHeader.data_pos h) h.
Proof. reflexivity. Qed.

Lemma adv_riff_loop (fuel inner : nat) :
  n < Z.of_nat inner ->
  forall c, 0 <= c -> Z.max 0 (n - 1 - c) <= Z.of_nat fuel ->
    triple (fun h => adv 2 c h /\ WAVHeader.data_pos h = c)
      (WAVHeader.riff_loop LP64 fuel inner)
      (fun b h => b = true /\ adv 2 c h).
Proof.
  intros Hinner.
  induction fuel as [|fuel IH]; intros c Hc Hfuel h [Hadv Hpos];
    pose proof Hadv as [Hl [Hk [Hc0 [Hd Ht]]]].
  - cbn [WAVHeader.riff_loop]. rewrite eof_bind.
    rewrite Hl, (to_size_t_LP64_small (n - 1)) by lia.
    destruct (Z.leb_spec (n - 1) (WAVHeader.data_pos h)) as [Hend|Hmore]; [|lia].
    split; [reflexivity|exact Hadv].
  - rewrite riff_loop_S, eof_bind.
    rewrite Hl, (to_size_t_LP64_small (n - 1)) by lia.
    destruct (Z.leb_spec (n - 1) (WAVHeader.data_pos h)) as [Hend|Hmore].
    { split; [reflexivity|exact Hadv]. }
    assert (Hcont :
              triple (fun h => adv 0 c h /\ WAVHeader.data_pos h = c)
                (r ← WAVHeader.riff_body LP64 inner;
                 match r with
                 | WAVHeader.Next _ => WAVHeader.riff_loop LP64 fuel inner
                 | WAVHeader.Break _ | WAVHeader.Return => mret true
                 | WAVHeader.Starved => mret false
                 end)
                (fun b h => b = true /\ adv 2 c h)).
    { eapply triple_bind; [apply adv_riff_body; lia|intros r; cbv beta].
      destruct r as [l|l| |].
      - apply triple_at. intros h0 [_ Ha0].
        eapply triple_post;
          [|apply (triple_pre
                     (fun h => adv 2 (WAVHeader.data_pos h0) h
                               /\ WAVHeader.data_pos h = WAVHeader.data_pos h0));
            [|apply (IH (WAVHeader.data_pos h0));
              destruct Ha0 as [_ [_ [_ [Hd0 _]]]]; lia]].
        + intros b h1 [Hb Ha]. split; [exact Hb|].
          apply (adv_weaken 2 2 (WAVHeader.data_pos h0) c); [lia| |exact Ha].
          destruct Ha0 as [_ [_ [_ [Hd0 _]]]]. lia.
        + intros h1 ->. split; [|reflexivity].
          destruct Ha0 as [Hl0 [Hk0 [_ [Hd0 Ht0]]]]. adv_split.
      - apply triple_ret. intros h1 [_ Ha]. split; [reflexivity|].
        apply (adv_weaken 2 2 (c + 1) c); [lia|lia|exact Ha].
      - apply triple_ret. intros h1 [_ Ha]. split; [reflexivity|].
        apply (adv_weaken 2 2 (c + 1) c); [lia|lia|exact Ha].
      - intros h1 [Hs _]. congruence. }
    apply Hcont. split; [adv_split|exact Hpos].
Qed.

End Advancing.

Lemma scan_on_LP64 (ok : WAVHeader.access -> Prop) (fuel : nat)
    (buf : list byte) (h0 : WAVHeader.t) :
  (forall i, ok (WAVHeader.Fetch i)) ->
  (forall pos, ok (WAVHeader.Sentinel pos)) ->
  (forall from to, from <= to -> ok (WAVHeader.Moved from to)) ->
  1 <= Z.of_nat (length buf) < 4294967296 ->
  (length buf < fuel)%nat ->
  Forall ok (WAVHeader.trail h0) ->
  fst (WAVHeader.begin LP64 fuel buf h0) = true
  /\ Forall ok (WAVHeader.trail (snd (WAVHeader.begin LP64 fuel buf h0))).
Proof.
  intros Hf Hs Hm Hlen Hfuel Htr. unfold WAVHeader.begin.
  destruct (adv_riff_loop ok Hf Hs Hm (Z.of_nat (length buf)) Hlen fuel fuel
              ltac:(lia) 0 ltac:(lia) ltac:(lia)
              (WAVHeader.mk zeroed_info buf (Z.of_nat (length buf)) 0
                 (WAVHeader.sound_pos h0) (WAVHeader.trail h0)))
    as [Hdone [_ [_ [_ [_ Hmono]]]]].
  - split; [|reflexivity]. unfold advancing.
    cbn [WAVHeader.len WAVHeader.data_pos WAVHeader.trail].
    repeat split; try lia. exact Htr.
  - split; [exact Hdone|exact Hmono].
Qed.

(** X16.  On a target with a 64-bit [long] the scan of a buffer that is
    not empty and shorter than 4 GiB always ends: [WAVHeader::begin]
    makes no more passes through either of its loops than the buffer
    has bytes, whatever the bytes are. *)
Theorem scan_ends_on_LP64 (fuel : nat) (buf : list byte) (h0 : WAVHeader.t) :
  1 <= Z.of_nat (length buf) < 4294967296 ->
  (length buf < fuel)%nat ->
  fst (WAVHeader.begin LP64 fuel buf h0) = true.
Proof.
  intros Hlen Hfuel.
  apply (scan_on_LP64 (fun _ => True) fuel buf h0); try assumption;
    try (intros; exact I).
  apply Forall_forall. intros e _. exact I.
Qed.

Lemma scan_ends_on_LP64_witness :
  fst (WAVHeader.begin LP64 38 looping_buffer WAVHeader.fresh) = true.
Proof.
  apply (scan_ends_on_LP64 38 looping_buffer WAVHeader.fresh).
  - vm_compute. split; [discriminate|reflexivity].
  - apply Nat.ltb_lt. vm_compute. reflexivity.
Defined.

(** X17.  On a target with a 64-bit [long], during the scan of a buffer
    that is not empty and shorter than 4 GiB no seek moves the cursor
    of [WAVHeader] back: every move recorded in the trail goes from an
    offset to the same or a greater one. *)
Theorem cursor_never_steps_back_on_LP64 (fuel : nat) (buf : list byte)
    (h0 : WAVHeader.t) :
  1 <= Z.of_nat (length buf) < 4294967296 ->
  (length buf < fuel)%nat ->
  cursor_monotone (WAVHeader.trail h0) ->
  cursor_monotone (WAVHeader.trail (snd (WAVHeader.begin LP64 fuel buf h0))).
Proof.
  intros Hlen Hfuel Htr.
  apply (scan_on_LP64 moves_forward fuel buf h0); try assumption.
  - intros i. exact I.
  - intros pos. exact I.
  - intros from to Hle. exact Hle.
Qed.

Lemma cursor_never_steps_back_on_LP64_witness :
  cursor_monotone
    (WAVHeader.trail (snd (WAVHeader.begin LP64 11 junk_buffer WAVHeader.fresh))).
Proof.
  apply (cursor_never_steps_back_on_LP64 11 junk_buffer WAVHeader.fresh).
  - vm_compute. split; [discriminate|reflexivity].
  - apply Nat.ltb_lt. vm_compute. reflexivity.
  - constructor.
Defined.


(** *** Reads, and the empty buffer *)

(** X18.  Whatever the buffer holds and however far the scan gets,
    every byte [WAVHeader::begin] reads lies inside the buffer: each
    offset fetched is at least 0 and less than the length. *)
Theorem scan_reads_inside_buffer (p : platform) (fuel : nat) (buf : list byte) :
  fetches_in_bounds (Z.of_nat (length buf))
    (WAVHeader.trail (snd (WAVHeader.begin p fuel buf WAVHeader.fresh))).
Proof. apply begin_fetches_in_bounds. constructor. Qed.

Lemma read_int32_past (h : WAVHeader.t) :
  WAVHeader.len h <= WAVHeader.data_pos h ->
  WAVHeader.read_int32 h
  = (4294967295,
     WAVHeader.mk (WAVHeader.headerInfo h) (WAVHeader.buffer h)
       (WAVHeader.len h) (WAVHeader.data_pos h) (WAVHeader.sound_pos h)
       (missed (WAVHeader.data_pos h) 4 (WAVHeader.trail h))).
Proof.
  intros Hp. unfold WAVHeader.read_int32.
  do 4 (erewrite bind_step by (apply getChar_past; exact Hp); cbv beta;
        cbn [WAVHeader.data_pos WAVHeader.len WAVHeader.buffer
             WAVHeader.headerInfo WAVHeader.sound_pos WAVHeader.trail]).
  reflexivity.
Qed.

(** One pass of the outer loop over an empty buffer: eight reads that
    find nothing, and a seek by 0xFFFFFFFF. *)
Lemma riff_body_on_empty (p : platform) (inner : nat) (i : WAVAudioInfo)
    (d sp : Z) (tr : list WAVHeader.access) :
  0 <= d -> d < to_size_t p (-1) ->
  WAVHeader.riff_body p inner (on_empty i d sp tr)
  = (WAVHeader.Next 0,
     on_empty (set_is_streamed true i)
       (to_size_t p (d + to_size_t p (to_long p 4294967295))) sp
       (WAVHeader.Moved d (to_size_t p (d + to_size_t p (to_long p 4294967295)))
        :: missed d 8 tr)).
Proof.
  intros Hd Hmore. unfold WAVHeader.riff_body, on_empty.
  erewrite bind_step
    by (apply read_tag_past; cbn [WAVHeader.len WAVHeader.data_pos]; lia).
  cbn [WAVHeader.data_pos WAVHeader.len WAVHeader.buffer WAVHeader.headerInfo
       WAVHeader.sound_pos WAVHeader.trail].
  rewrite eof_bind.
  cbn [WAVHeader.data_pos WAVHeader.len].
  change (0 - 1) with (-1).
  replace (to_size_t p (-1) <=? d) with false by (symmetry; apply Z.leb_gt; lia).
  erewrite bind_step
    by (apply read_int32_past; cbn [WAVHeader.len WAVHeader.data_pos]; lia).
  cbn [WAVHeader.data_pos WAVHeader.len WAVHeader.buffer WAVHeader.headerInfo
       WAVHeader.sound_pos WAVHeader.trail].
  reflexivity.
Qed.

Lemma riff_loop_at_eof (p : platform) (fuel inner : nat) (h : WAVHeader.t) :
  to_size_t p (WAVHeader.len h - 1) <= WAVHeader.data_pos h ->
  WAVHeader.riff_loop p fuel inner h = (true, h).
Proof.
  intros Hend. destruct fuel; cbn [WAVHeader.riff_loop]; rewrite eof_bind;
    replace (to_size_t p (WAVHeader.len h - 1) <=? WAVHeader.data_pos h) with true
      by (symmetry; apply Z.leb_le; exact Hend);
    reflexivity.
Qed.

(** X19.  On a target with a 32-bit [long], [WAVHeader::begin] on an
    empty buffer ends after one pass: it reads no byte, leaves
    [is_valid] false and every format field 0, sets [is_streamed], and
    leaves [sound_pos] alone, so that [soundData] on a new object finds
    nothing and a decoder given the empty buffer as its first [write]
    returns 0, passes nothing on and still waits for a header. *)
Theorem empty_buffer_on_ILP32 (fuel : nat) (h0 : WAVHeader.t) (o : Print)
    (l : option AudioBaseInfoDependent) (v a : bool) :
  WAVHeader.begin ILP32 (S fuel) [] h0
  = (true,
     on_empty (set_is_streamed true zeroed_info) 4294967295
       (WAVHeader.sound_pos h0)
       (WAVHeader.Moved 0 4294967295 :: missed 0 8 (WAVHeader.trail h0)))
  /\ exists h1,
       WAVDecoder.write ILP32 (S fuel) []
         (WAVDecoder.mk WAVHeader.fresh o l true v true)
       = Some (0, WAVDecoder.mk h1 o l true v true).
Proof.
  assert (Hscan : forall h,
             WAVHeader.begin ILP32 (S fuel) [] h
             = (true,
                on_empty (set_is_streamed true zeroed_info) 4294967295
                  (WAVHeader.sound_pos h)
                  (WAVHeader.Moved 0 4294967295
                   :: missed 0 8 (WAVHeader.trail h)))).
  { intros h. unfold WAVHeader.begin. cbn [length]. change (Z.of_nat 0) with 0.
    fold (on_empty zeroed_info 0 (WAVHeader.sound_pos h) (WAVHeader.trail h)).
    rewrite riff_loop_S, eof_bind.
    change (to_size_t ILP32 (WAVHeader.len (on_empty zeroed_info 0
              (WAVHeader.sound_pos h) (WAVHeader.trail h)) - 1)
            <=? WAVHeader.data_pos (on_empty zeroed_info 0
                  (WAVHeader.sound_pos h) (WAVHeader.trail h)))
      with false.
    cbv iota.
    rewrite (bind_step _ _ _ _ _
               (riff_body_on_empty ILP32 (S fuel) zeroed_info 0
                  (WAVHeader.sound_pos h) (WAVHeader.trail h)
                  ltac:(lia) ltac:(reflexivity))).
    cbv beta iota.
    apply riff_loop_at_eof. vm_compute. discriminate. }
  split; [apply Hscan|].
  unfold WAVDecoder.write.
  cbn [WAVDecoder.active WAVDecoder.isFirst WAVDecoder.header WAVDecoder.out
       WAVDecoder.audioBaseInfoSupport WAVDecoder.isValid].
  rewrite Hscan. cbn [negb].
  eexists. reflexivity.
Qed.

Lemma riff_loop_on_empty_LP64 (fuel inner : nat) :
  forall (k : Z) (i : WAVAudioInfo) (sp : Z) (tr : list WAVHeader.access),
    0 <= k <= 4294967297 ->
    fst (WAVHeader.riff_loop LP64 fuel inner (on_empty i (k * 4294967295) sp tr))
    = (4294967297 - k <=? Z.of_nat fuel).
Proof.
  induction fuel as [|fuel IH]; intros k i sp tr Hk.
  - cbn [WAVHeader.riff_loop]. rewrite eof_bind.
    cbn [WAVHeader.len WAVHeader.data_pos on_empty].
    change (to_size_t LP64 (0 - 1)) with 18446744073709551615.
    change (Z.of_nat 0) with 0.
    destruct (Z.leb_spec 18446744073709551615 (k * 4294967295)),
             (Z.leb_spec (4294967297 - k) 0); try reflexivity; lia.
  - rewrite riff_loop_S, eof_bind.
    cbn [WAVHeader.len WAVHeader.data_pos on_empty].
    change (to_size_t LP64 (0 - 1)) with 18446744073709551615.
    destruct (Z.leb_spec 18446744073709551615 (k * 4294967295)) as [Hend|Hmore].
    + cbn [fst]. symmetry. apply Z.leb_le. lia.
    + fold (on_empty i (k * 4294967295) sp tr).
      rewrite (bind_step _ _ _ _ _
                 (riff_body_on_empty LP64 inner i (k * 4294967295) sp tr
                    ltac:(lia) Hmore)).
      cbv beta iota.
      rewrite (to_long_LP64_small 4294967295) by lia.
      rewrite (to_size_t_LP64_small 4294967295) by lia.
      rewrite (to_size_t_LP64_small (k * 4294967295 + 4294967295)) by lia.
      replace (k * 4294967295 + 4294967295) with ((k + 1) * 4294967295) by lia.
      rewrite IH by lia.
      destruct (Z.leb_spec (4294967297 - (k + 1)) (Z.of_nat fuel)),
               (Z.leb_spec (4294967297 - k) (Z.of_nat (S fuel)));
        try reflexivity; lia.
Qed.

(** X20.  On a target with a 64-bit [long], [WAVHeader::begin] on an
    empty buffer does not stop at once: [len - 1] wraps to the largest
    [size_t], every pass moves the cursor on by 0xFFFFFFFF, and the
    loop ends only with its pass number 4294967297. *)
Theorem empty_buffer_on_LP64 (fuel : nat) (h0 : WAVHeader.t) :
  fst (WAVHeader.begin LP64 fuel [] h0) = (4294967297 <=? Z.of_nat fuel).
Proof.
  unfold WAVHeader.begin. cbn [length]. change (Z.of_nat 0) with 0.
  apply (riff_loop_on_empty_LP64 fuel fuel 0 zeroed_info
           (WAVHeader.sound_pos h0) (WAVHeader.trail h0)).
  lia.
Qed.

(** X21.  On a target with a 32-bit [long] there is a buffer of 37
    bytes on which [WAVHeader::begin] never ends, however many passes
    it is given: a seek by a chunk length of 0xFFFFFFFF, taken as -1,
    brings the cursor back to where an earlier pass started.  The first
    [write] of a decoder given that buffer does not return. *)
Theorem scan_can_hang_on_ILP32 :
  exists buf : list byte,
    length buf = 37%nat
    /\ forall (fuel : nat) (o : Print) (a : bool),
         fst (WAVHeader.begin ILP32 fuel buf WAVHeader.fresh) = false
         /\ WAVDecoder.write ILP32 fuel buf
              (WAVDecoder.begin (WAVDecoder.make o a)) = None.
Proof.
  exists looping_buffer. split; [reflexivity|].
  intros fuel o a. split.
  - apply scan_never_ends.
  - apply decoder_write_never_returns.
Qed.


(** *** Chunks the scanner passes over *)

Lemma byte_val_inj (a b : byte) : byte_val a = byte_val b -> a = b.
Proof.
  unfold byte_val. intros H. apply N2Z.inj in H.
  assert (Hs : Some a = Some b).
  { rewrite <- (Byte.of_to_N a), <- (Byte.of_to_N b), H. reflexivity. }
  congruence.
Qed.

Lemma lor_low_byte (x b : Z) :
  0 <= b < 256 -> Z.lor (x * 256) b = x * 256 + b.
Proof.
  intros Hb. rewrite Z.lor_comm. change 256 with (2 ^ 8).
  rewrite (lor_disjoint b x 8) by (change (2 ^ 8) with 256; lia). lia.
Qed.

Lemma tag_of_bytes (a b c d : byte) :
  tag_of (byte_val a) (byte_val b) (byte_val c) (byte_val d)
  = ((byte_val a * 256 + byte_val b) * 256 + byte_val c) * 256 + byte_val d.
Proof.
  pose proof (byte_val_range a) as Ha. pose proof (byte_val_range b) as Hb.
  pose proof (byte_val_range c) as Hc. pose proof (byte_val_range d) as Hd.
  unfold tag_of.
  rewrite !Z.shiftl_mul_pow2 by lia. change (2 ^ 8) with 256.
  rewrite Z.mul_0_l.
  rewrite (to_uint32_small 0), (to_uint32_small (byte_val a)),
    (to_uint32_small (byte_val b)), (to_uint32_small (byte_val c)),
    (to_uint32_small (byte_val d)) by lia.
  rewrite Z.lor_0_l.
  rewrite (to_uint32_small (byte_val a * 256)) by lia.
  rewrite (lor_low_byte (byte_val a) (byte_val b)) by lia.
  rewrite (to_uint32_small ((byte_val a * 256 + byte_val b) * 256)) by lia.
  rewrite (lor_low_byte (byte_val a * 256 + byte_val b) (byte_val c)) by lia.
  rewrite (to_uint32_small (((byte_val a * 256 + byte_val b) * 256 + byte_val c)
                            * 256)) by lia.
  rewrite (lor_low_byte ((byte_val a * 256 + byte_val b) * 256 + byte_val c)
             (byte_val d)) by lia.
  reflexivity.
Qed.

Lemma tag_of_inj (a b c d a' b' c' d' : byte) :
  tag_of (byte_val a) (byte_val b) (byte_val c) (byte_val d)
  = tag_of (byte_val a') (byte_val b') (byte_val c') (byte_val d') ->
  (a, b, c, d) = (a', b', c', d').
Proof.
  rewrite !tag_of_bytes. intros H.
  pose proof (byte_val_range a). pose proof (byte_val_range b).
  pose proof (byte_val_range c). pose proof (byte_val_range d).
  pose proof (byte_val_range a'). pose proof (byte_val_range b').
  pose proof (byte_val_range c'). pose proof (byte_val_range d').
  assert (byte_val a = byte_val a') by lia.
  assert (byte_val b = byte_val b') by lia.
  assert (byte_val c = byte_val c') by lia.
  assert (byte_val d = byte_val d') by lia.
  f_equal; [f_equal; [f_equal|]|]; apply byte_val_inj; assumption.
Qed.

Lemma chunk_body_other (p : platform) (remaining : Z) (i : WAVAudioInfo)
    (before after : list byte) (sp : Z) (tr : list WAVHeader.access) (c : chunk) :
  Z.of_nat (length (before ++ chunk_bytes c ++ after)) < 2147483648 ->
  0 <= remaining < 4294967296 ->
  8 + Z.of_nat (length (payload c)) <= remaining ->
  other_tag c ->
  exists tr',
    WAVHeader.chunk_body p remaining
      (at_split i before (chunk_bytes c ++ after) sp tr)
    = (WAVHeader.Next (remaining - Z.of_nat (length (chunk_bytes c))),
       at_split i (before ++ chunk_bytes c) after sp tr').
Proof.
  intros Hfit Hlen Hroom [Hnf Hnd].
  destruct c as [[[[t0 t1] t2] t3] body].
  unfold chunk_bytes in *. cbn [tag_bytes payload] in *.
  rewrite <- !app_assoc in *. cbn [app] in *.
  unfold WAVHeader.chunk_body.
  scan_step read_tag_at. scan_eof.
  scan_step read_int32_at.
  assert (Hbody : Z.of_nat (length body) < 2147483648) by len_solve.
  rewrite (to_uint32_small (Z.of_nat (length body))) by lia.
  rewrite (to_uint32_small (remaining - 8)) by lia.
  replace (remaining - 8 <? Z.of_nat (length body)) with false
    by (symmetry; apply Z.ltb_ge; lia).
  replace (tag_of (byte_val t0) (byte_val t1) (byte_val t2) (byte_val t3)
           =? TAG "f" "m" "t" " ") with false.
  2:{ symmetry. apply Z.eqb_neq. rewrite <- tag_fmt. intros Heq.
      apply Hnf. apply tag_of_inj. exact Heq. }
  replace (tag_of (byte_val t0) (byte_val t1) (byte_val t2) (byte_val t3)
           =? TAG "d" "a" "t" "a") with false.
  2:{ symmetry. apply Z.eqb_neq. rewrite <- tag_data. intros Heq.
      apply Hnd. apply tag_of_inj. exact Heq. }
  rewrite (to_int_small (Z.of_nat (length body))) by lia.
  erewrite bind_step by (apply skip_at; reflexivity). cbv beta.
  rewrite ret_step.
  rewrite (to_uint32_small (remaining - 8 - Z.of_nat (length body))) by lia.
  eexists. f_equal.
  - f_equal. len_solve.
  - rewrite <- !app_assoc. cbn [app]. reflexivity.
Qed.

Lemma chunk_bytes_length (c : chunk) :
  Z.of_nat (length (chunk_bytes c)) = 8 + Z.of_nat (length (payload c)).
Proof.
  destruct c as [[[[t0 t1] t2] t3] body]. unfold chunk_bytes.
  cbn [tag_bytes payload]. len_solve.
Qed.

(** The inner loop passes over a run of such chunks, one pass each. *)
Lemma chunk_loop_others (p : platform) (cs : list chunk) :
  forall (fuel : nat) (remaining : Z) (i : WAVAudioInfo)
         (before after : list byte) (sp : Z) (tr : list WAVHeader.access),
    Forall other_tag cs ->
    Z.of_nat (length (before ++ chunks_bytes cs ++ after)) < 2147483648 ->
    0 <= remaining < 4294967296 ->
    Z.of_nat (length (chunks_bytes cs)) <= remaining ->
    exists tr',
      WAVHeader.chunk_loop p (length cs + fuel) remaining
        (at_split i before (chunks_bytes cs ++ after) sp tr)
      = WAVHeader.chunk_loop p fuel
          (remaining - Z.of_nat (length (chunks_bytes cs)))
          (at_split i (before ++ chunks_bytes cs) after sp tr').
Proof.
  induction cs as [|c cs IH]; intros fuel remaining i before after sp tr
    Hother Hfit Hrem Hroom.
  - exists tr. unfold chunks_bytes. cbn [map concat length app Nat.add].
    rewrite app_nil_r, Z.sub_0_r. reflexivity.
  - inversion Hother as [|c' cs' Hc Hcs]; subst.
    unfold chunks_bytes in *. cbn [map concat] in *.
    fold (chunks_bytes cs) in *.
    rewrite <- !app_assoc in *.
    pose proof (chunk_bytes_length c) as Hclen.
    rewrite length_app in Hroom.
    cbn [length Nat.add]. rewrite chunk_loop_S.
    replace (8 <=? remaining) with true by (symmetry; apply Z.leb_le; lia).
    destruct (chunk_body_other p remaining i before (chunks_bytes cs ++ after)
                sp tr c Hfit Hrem ltac:(lia) Hc) as [tr1 Hbody].
    rewrite (bind_step _ _ _ _ _ Hbody). cbv beta iota.
    destruct (IH fuel (remaining - Z.of_nat (length (chunk_bytes c))) i
                (before ++ chunk_bytes c) after sp tr1 Hcs
                ltac:(rewrite <- app_assoc; exact Hfit) ltac:(lia) ltac:(lia))
      as [tr2 Hrest].
    rewrite Hrest. exists tr2.
    rewrite length_app, <- !app_assoc. f_equal. lia.
Qed.

Lemma bind_cong {A B} (m m' : WAVHeader.M A) (k : A -> WAVHeader.M B)
    (h h' : WAVHeader.t) :
  m h = m' h' -> (m ≫= k) h = (m' ≫= k) h'.
Proof. intros Hm. unfold mbind, WAVHeader.M_bind. rewrite Hm. reflexivity. Qed.

(** The format chunk of an extensible header, read by one pass of the
    inner loop. *)
Lemma chunk_body_fmt_extensible (p : platform) (remaining : Z) (i : WAVAudioInfo)
    (before after : list byte) (sp : Z) (tr : list WAVHeader.access)
    (fmt_size ch sr br ba bps sub_format : Z) (passed tail : list byte) :
  Z.of_nat (length
              (before
               ++ extensible_fmt fmt_size ch sr br ba bps passed sub_format tail
               ++ after))
  < 2147483648 ->
  0 <= remaining < 4294967296 -> 8 + fmt_size <= remaining ->
  length passed = 8%nat ->
  fmt_size = 28 + Z.of_nat (length tail) ->
  exists tr',
    WAVHeader.chunk_body p remaining
      (at_split i before
         (extensible_fmt fmt_size ch sr br ba bps passed sub_format tail
          ++ after) sp tr)
    = (WAVHeader.Next (remaining - (8 + fmt_size)),
       at_split (extensible_info i ch sr br ba bps sub_format)
         (before ++ extensible_fmt fmt_size ch sr br ba bps passed sub_format tail)
         after sp tr').
Proof.
  intros Hfit Hlen Hroom Hpassed Hsize.
  unfold extensible_fmt, fmt_chunk in *. rewrite <- !app_assoc in *.
  cbn [app] in *.
  unfold WAVHeader.chunk_body.
  scan_step read_tag_at. scan_eof.
  scan_step read_int32_at.
  rewrite tag_fmt, Z.eqb_refl.
  rewrite (to_uint32_small fmt_size) by len_solve.
  rewrite (to_uint32_small (remaining - 8)) by lia.
  replace (remaining - 8 <? fmt_size) with false by (symmetry; apply Z.ltb_ge; lia).
  replace (fmt_size <? 16) with false by (symmetry; apply Z.ltb_ge; lia).
  scan_step read_int16_at. scan_step with_info_at.
  scan_step read_int16_at. scan_step with_info_at.
  scan_step read_int32_at. scan_step with_info_at.
  scan_step read_int32_at. scan_step with_info_at.
  scan_step read_int16_at. scan_step with_info_at.
  scan_step read_int16_at. scan_step with_info_at.
  scan_step info_at.
  cbn [format set_format set_channels set_sample_rate set_byte_rate
       set_block_align set_bits_per_sample].
  change (to_uint16 65534 =? 65534) with true. cbv iota.
  replace (fmt_size <? 28) with false by (symmetry; apply Z.ltb_ge; lia).
  erewrite bind_step by (apply skip_at; lia). cbv beta.
  scan_step read_int32_at. scan_step with_info_at.
  rewrite (to_uint32_small (fmt_size - 28)) by len_solve.
  rewrite (to_int_small (fmt_size - 28)) by len_solve.
  erewrite bind_step by (apply skip_at; lia). cbv beta.
  scan_step with_info_at.
  rewrite ret_step.
  rewrite (to_uint32_small (remaining - 8 - fmt_size)) by lia.
  eexists. f_equal.
  - f_equal. lia.
  - unfold extensible_info. change (to_uint16 65534) with 65534.
    rewrite <- !app_assoc. cbn [app]. reflexivity.
Qed.

(** *** The scan of a buffer with further chunks *)

Section Chunked.
Variable p : platform.
Variable fmt : list byte.
Variable fmt_total : Z.
Variable parsed : WAVAudioInfo -> WAVAudioInfo.
Hypothesis fmt_length : Z.of_nat (length fmt) = fmt_total.
Hypothesis fmt_least : 8 <= fmt_total.
Hypothesis parsed_mode : forall i, is_streamed (parsed i) = is_streamed i.
Hypothesis fmt_pass :
  forall (remaining : Z) (i : WAVAudioInfo) (before after : list byte) (sp : Z)
         (tr : list WAVHeader.access),
    Z.of_nat (length (before ++ fmt ++ after)) < 2147483648 ->
    0 <= remaining < 4294967296 -> fmt_total <= remaining ->
    exists tr',
      WAVHeader.chunk_body p remaining (at_split i before (fmt ++ after) sp tr)
      = (WAVHeader.Next (remaining - fmt_total),
         at_split (parsed i) (before ++ fmt) after sp tr').

Variables cs1 cs2 : list chunk.
Hypothesis others1 : Forall other_tag cs1.
Hypothesis others2 : Forall other_tag cs2.

Local Abbreviation body := (chunks_bytes cs1 ++ fmt ++ chunks_bytes cs2).

Lemma body_length :
  Z.of_nat (length body)
  = Z.of_nat (length (chunks_bytes cs1)) + fmt_total
    + Z.of_nat (length (chunks_bytes cs2)).
Proof using fmt_length. rewrite !length_app. lia. Qed.

(** The inner loop from the first chunk to the [data] chunk. *)
Lemma chunk_loop_to_data (fuel : nat) (remaining : Z) (i : WAVAudioInfo)
    (before after : list byte) (sp : Z) (tr : list WAVHeader.access) :
  Z.of_nat (length (before ++ body ++ after)) < 2147483648 ->
  0 <= remaining < 4294967296 ->
  Z.of_nat (length body) <= remaining ->
  exists tr',
    WAVHeader.chunk_loop p (length cs1 + S (length cs2 + fuel)) remaining
      (at_split i before (body ++ after) sp tr)
    = WAVHeader.chunk_loop p fuel (remaining - Z.of_nat (length body))
        (at_split (parsed i) (before ++ body) after sp tr').
Proof using fmt_length fmt_least fmt_pass others1 others2.
  intros Hfit Hrem Hroom.
  pose proof body_length as Hbody.
  rewrite <- !app_assoc in *.
  destruct (chunk_loop_others p cs1 (S (length cs2 + fuel)) remaining i before
              (fmt ++ chunks_bytes cs2 ++ after) sp tr others1 Hfit Hrem
              ltac:(lia)) as [tr1 H1].
  rewrite H1. rewrite chunk_loop_S.
  replace (8 <=? remaining - Z.of_nat (length (chunks_bytes cs1))) with true
    by (symmetry; apply Z.leb_le; lia).
  destruct (fmt_pass (remaining - Z.of_nat (length (chunks_bytes cs1))) i
              (before ++ chunks_bytes cs1) (chunks_bytes cs2 ++ after) sp tr1
              ltac:(rewrite <- app_assoc; exact Hfit) ltac:(lia) ltac:(lia))
    as [tr2 H2].
  rewrite (bind_step _ _ _ _ _ H2). cbv beta iota.
  destruct (chunk_loop_others p cs2 fuel
              (remaining - Z.of_nat (length (chunks_bytes cs1)) - fmt_total)
              (parsed i) ((before ++ chunks_bytes cs1) ++ fmt) after sp tr2
              others2 ltac:(rewrite <- !app_assoc; exact Hfit) ltac:(lia)
              ltac:(lia)) as [tr3 H3].
  rewrite H3. exists tr3.
  rewrite <- !app_assoc. f_equal. lia.
Qed.

Variables riff_size data_size : Z.
Variable rest : list byte.

Local Abbreviation buf := (chunked_buffer riff_size cs1 fmt cs2 data_size rest).
Local Abbreviation head :=
  (riff_header riff_size ++ body ++ data_header data_size).

Hypothesis buf_fits : Z.of_nat (length buf) < 2147483648.
Hypothesis riff_range : 0 <= riff_size < 4294967296.

Lemma chunked_split : buf = head ++ rest.
Proof. unfold chunked_buffer. rewrite <- !app_assoc. reflexivity. Qed.

Lemma chunked_head_length :
  Z.of_nat (length head) = 20 + Z.of_nat (length body).
Proof. unfold riff_header, data_header. len_solve. Qed.

(** The scan stops at the [data] chunk when the RIFF chunk declares no
    usable size or the [data] chunk declares none; otherwise it goes on
    to the end of the RIFF chunk.  In every case the descriptor holds
    what the format chunk gave and [sound_pos] is the offset of
    [rest]. *)
Lemma scan_chunked (fuel inner : nat) (sp : Z) (tr : list WAVHeader.access) :
  ((riff_size = 0 \/ 2147418112 <= riff_size)
   /\ 0 <= data_size
   /\ Z.of_nat (length body) + 8 + data_size <= 4294967291)
  \/ (4 + Z.of_nat (length body) + 8 + data_size <= riff_size < 2147418112
      /\ (data_size = 0
          \/ (0 < data_size /\ Z.of_nat (length rest) <= data_size))) ->
  exists i0 i pos tr',
    WAVHeader.riff_loop p (S fuel) (length cs1 + S (length cs2 + S (S inner)))
      (at_split zeroed_info [] buf sp tr)
    = (true,
       WAVHeader.mk i buf (Z.of_nat (length buf)) pos (Z.of_nat (length head)) tr')
    /\ (i = set_data_length data_size (parsed i0)
        \/ i = set_is_streamed true (set_data_length data_size (parsed i0))).
Proof using fmt_length fmt_least fmt_pass parsed_mode others1 others2 buf_fits
  riff_range.
  intros Hcases.
  pose proof buf_fits as Hfit. pose proof chunked_split as Hsplit.
  pose proof chunked_head_length as Hhead.
  assert (Hbuflen : Z.of_nat (length buf)
                    = Z.of_nat (length head) + Z.of_nat (length rest)).
  { rewrite Hsplit, length_app. lia. }
  set (rb := body) in *.
  assert (Hshape : buf = ["R"; "I"; "F"; "F"]%byte
                         ++ le_bytes 4 riff_size
                         ++ ["W"; "A"; "V"; "E"]%byte
                         ++ rb ++ data_header data_size ++ rest).
  { unfold chunked_buffer, riff_header, rb. rewrite <- !app_assoc. reflexivity. }
  assert (Hfit' : Z.of_nat (length rb) + Z.of_nat (length rest) + 20 < 2147483648).
  { rewrite Hshape in Hfit. unfold data_header in Hfit.
    repeat (rewrite length_app in Hfit || rewrite length_le_bytes in Hfit).
    cbn [length] in Hfit. lia. }
  assert (Hlists : forall after : list byte,
             (((([] ++ ["R"; "I"; "F"; "F"]%byte) ++ le_bytes 4 riff_size)
               ++ ["W"; "A"; "V"; "E"]%byte) ++ rb) ++ after
             = ["R"; "I"; "F"; "F"]%byte ++ le_bytes 4 riff_size
               ++ ["W"; "A"; "V"; "E"]%byte ++ rb ++ after).
  { intros after. rewrite <- !app_assoc. reflexivity. }
  assert (Hheadlen : Z.of_nat (length head) = 20 + Z.of_nat (length rb))
    by exact Hhead.
  pose proof Hshape as Hflat. cbn [app] in Hflat.
  destruct Hcases as [[Hstream [Hdata Hroom]]|[Hcover [Hzero|[Hdata Hshort]]]].
  - assert (Hs : (riff_size =? 0) || (2147418112 <=? riff_size) = true).
    { apply orb_true_iff. destruct Hstream as [Hz|Hbig].
      - left. apply Z.eqb_eq. exact Hz.
      - right. apply Z.leb_le. exact Hbig. }
    rewrite Hshape. cbn [app].
    rewrite riff_loop_S.
    scan_eof.
    unfold WAVHeader.riff_body.
    scan_step read_tag_at. scan_eof.
    scan_step read_int32_at.
    rewrite (to_uint32_small riff_size) by lia.
    scan_ret.
    rewrite tag_RIFF, Z.eqb_refl.
    rewrite Hs.
    scan_step with_info_at.
    change (to_uint32 (-1)) with 4294967295.
    change (negb true || (4294967295 <? 4)) with false. cbv iota.
    scan_step read_tag_at.
    rewrite tag_WAVE, Z.eqb_refl. cbn [negb].
    change (to_uint32 (4294967295 - 4)) with 4294967291.
    repeat rewrite bind_assoc_at.
    match goal with
    | |- context [at_split ?i ?b (rb ++ ?a) ?s ?t] =>
        destruct (chunk_loop_to_data (S (S inner)) 4294967291 i b a s t)
          as [tr1 Hloop]
    end.
    { unfold rb in *. unfold data_header. len_solve. }
    { lia. }
    { unfold rb in *. lia. }
    fold rb in Hloop.
    rewrite (bind_cong _ _ _ _ _ Hloop).
    rewrite chunk_loop_S.
    replace (8 <=? 4294967291 - Z.of_nat (length rb)) with true
      by (symmetry; apply Z.leb_le; lia).
    repeat rewrite bind_assoc_at.
    match goal with
    | |- context [(WAVHeader.chunk_body p ?n ≫= _)
                    (at_split ?i ?b (data_header _ ++ ?a) ?s ?t)] =>
        destruct (chunk_body_data_streamed p n i b a s t data_size)
          as [tr2 Hdat]
    end.
    { unfold data_header. len_solve. }
    { lia. }
    { lia. }
    { lia. }
    { left. rewrite parsed_mode. reflexivity. }
    rewrite (bind_step _ _ _ _ _ Hdat). cbv beta iota.
    scan_ret. scan_ret.
    unfold at_split. rewrite <- !app_assoc. cbn [app].
    eexists (set_is_streamed true zeroed_info), _, _, _.
    split; [reflexivity|]. right. reflexivity.
  - rewrite Hshape. cbn [app].
    rewrite riff_loop_S.
    scan_eof.
    unfold WAVHeader.riff_body.
    scan_step read_tag_at. scan_eof.
    scan_step read_int32_at.
    rewrite (to_uint32_small riff_size) by lia.
    scan_ret.
    replace ((riff_size =? 0) || (2147418112 <=? riff_size)) with false.
    2:{ symmetry. apply orb_false_iff. split.
        - apply Z.eqb_neq. lia.
        - apply Z.leb_gt. lia. }
    scan_ret.
    rewrite tag_RIFF, Z.eqb_refl.
    replace (negb true || (riff_size <? 4)) with false
      by (symmetry; apply Z.ltb_ge; lia).
    cbv iota.
    scan_step read_tag_at.
    rewrite tag_WAVE, Z.eqb_refl. cbn [negb].
    rewrite (to_uint32_small (riff_size - 4)) by lia.
    repeat rewrite bind_assoc_at.
    match goal with
    | |- context [at_split ?i ?b (rb ++ ?a) ?s ?t] =>
        destruct (chunk_loop_to_data (S (S inner)) (riff_size - 4) i b a s t)
          as [tr1 Hloop]
    end.
    { unfold rb in *. unfold data_header. len_solve. }
    { lia. }
    { unfold rb in *. lia. }
    fold rb in Hloop.
    rewrite (bind_cong _ _ _ _ _ Hloop).
    rewrite chunk_loop_S.
    replace (8 <=? riff_size - 4 - Z.of_nat (length rb)) with true
      by (symmetry; apply Z.leb_le; lia).
    repeat rewrite bind_assoc_at.
    match goal with
    | |- context [(WAVHeader.chunk_body p ?n ≫= _)
                    (at_split ?i ?b (data_header _ ++ ?a) ?s ?t)] =>
        destruct (chunk_body_data_streamed p n i b a s t data_size)
          as [tr2 Hdat]
    end.
    { unfold data_header. len_solve. }
    { lia. }
    { lia. }
    { lia. }
    { right. exact Hzero. }
    rewrite (bind_step _ _ _ _ _ Hdat). cbv beta iota.
    scan_ret. scan_ret.
    unfold at_split. rewrite <- !app_assoc. cbn [app].
    eexists zeroed_info, _, _, _.
    split; [reflexivity|]. right. reflexivity.
  - rewrite Hshape. cbn [app].
    rewrite riff_loop_S.
    scan_eof.
    unfold WAVHeader.riff_body.
    scan_step read_tag_at. scan_eof.
    scan_step read_int32_at.
    rewrite (to_uint32_small riff_size) by lia.
    scan_ret.
    replace ((riff_size =? 0) || (2147418112 <=? riff_size)) with false.
    2:{ symmetry. apply orb_false_iff. split.
        - apply Z.eqb_neq. lia.
        - apply Z.leb_gt. lia. }
    scan_ret.
    rewrite tag_RIFF, Z.eqb_refl.
    replace (negb true || (riff_size <? 4)) with false
      by (symmetry; apply Z.ltb_ge; lia).
    cbv iota.
    scan_step read_tag_at.
    rewrite tag_WAVE, Z.eqb_refl. cbn [negb].
    rewrite (to_uint32_small (riff_size - 4)) by lia.
    repeat rewrite bind_assoc_at.
    match goal with
    | |- context [at_split ?i ?b (rb ++ ?a) ?s ?t] =>
        destruct (chunk_loop_to_data (S (S inner)) (riff_size - 4) i b a s t)
          as [tr1 Hloop]
    end.
    { unfold rb in *. unfold data_header. len_solve. }
    { lia. }
    { unfold rb in *. lia. }
    fold rb in Hloop.
    rewrite (bind_cong _ _ _ _ _ Hloop).
    rewrite chunk_loop_S.
    replace (8 <=? riff_size - 4 - Z.of_nat (length rb)) with true
      by (symmetry; apply Z.leb_le; lia).
    repeat rewrite bind_assoc_at.
    match goal with
    | |- context [(WAVHeader.chunk_body p ?n ≫= _)
                    (at_split ?i ?b (data_header _ ++ ?a) ?s ?t)] =>
        destruct (chunk_body_data_finite p n i b a s t data_size)
          as [tr2 Hdat]
    end.
    { unfold data_header. len_solve. }
    { lia. }
    { lia. }
    { lia. }
    { rewrite parsed_mode. reflexivity. }
    rewrite (bind_step _ _ _ _ _ Hdat). cbv beta iota.
    set (left_over := riff_size - 4 - Z.of_nat (length rb) - 8 - data_size).
    match goal with
    | |- context [WAVHeader.mk ?i ?b ?l ?q ?s tr2] =>
        set (h2 := WAVHeader.mk i b l q s tr2)
    end.
    assert (Hlen2 : WAVHeader.len h2 = Z.of_nat (length buf)).
    { unfold h2. cbn [WAVHeader.len]. rewrite Hshape.
      rewrite <- !app_assoc. reflexivity. }
    assert (Hpos2 : WAVHeader.data_pos h2
                    = Z.of_nat (length head) + data_size).
    { unfold h2. cbn [WAVHeader.data_pos]. rewrite Hheadlen.
      unfold data_header. len_solve. }
    assert (Hpast : WAVHeader.len h2 <= WAVHeader.data_pos h2) by lia.
    assert (Hne : 1 <= WAVHeader.len h2 < 4294967296) by lia.
    assert (Hfinal : forall h3 : WAVHeader.t,
               WAVHeader.buffer h3 = WAVHeader.buffer h2 ->
               WAVHeader.len h3 = WAVHeader.len h2 ->
               WAVHeader.headerInfo h3 = WAVHeader.headerInfo h2 ->
               WAVHeader.sound_pos h3 = WAVHeader.sound_pos h2 ->
               exists (i0 i : WAVAudioInfo) (pos : Z)
                      (tr' : list WAVHeader.access),
                 (true, h3)
                 = (true,
                    WAVHeader.mk i buf (Z.of_nat (length buf)) pos
                      (Z.of_nat (length head)) tr')
                 /\ (i = set_data_length data_size (parsed i0)
                     \/ i = set_is_streamed true
                              (set_data_length data_size (parsed i0)))).
    { intros [i3 b3 l3 q3 s3 t3]. unfold h2.
      cbn [WAVHeader.buffer WAVHeader.len WAVHeader.headerInfo
           WAVHeader.sound_pos].
      intros -> -> -> ->.
      eexists zeroed_info, _, _, _. split; [|left; reflexivity].
      f_equal. f_equal; try reflexivity.
      all: first [ rewrite Hshape; rewrite <- !app_assoc; reflexivity
                 | rewrite Hheadlen; unfold data_header; len_solve ]. }
    destruct (Z.leb_spec 8 left_over) as [Hmore|Hdone].
    + rewrite chunk_loop_S.
      replace (8 <=? left_over) with true by (symmetry; apply Z.leb_le; lia).
      repeat rewrite bind_assoc_at.
      rewrite (bind_step _ _ _ _ _ (chunk_body_past p left_over h2 Hne Hpast)).
      cbv beta iota.
      scan_ret.
      replace (0 <? left_over) with true by (symmetry; apply Z.ltb_lt; lia).
      rewrite (to_long_small p left_over) by (unfold left_over; lia).
      repeat rewrite bind_assoc_at.
      erewrite bind_step
        by (apply seek_cur_raw;
            cbn [WAVHeader.data_pos]; unfold left_over; lia).
      cbv beta. scan_ret.
      rewrite riff_loop_past
        by (cbn [WAVHeader.len WAVHeader.data_pos]; unfold left_over; lia).
      rewrite <- Hflat. apply Hfinal; reflexivity.
    + repeat rewrite bind_assoc_at.
      erewrite bind_step by (apply chunk_loop_done; exact Hdone). cbv beta iota.
      destruct (Z.ltb_spec 0 left_over) as [Hsome|Hnone].
      * replace (0 <? left_over) with true by (symmetry; apply Z.ltb_lt; lia).
        rewrite (to_long_small p left_over) by (unfold left_over; lia).
        repeat rewrite bind_assoc_at.
        erewrite bind_step
          by (apply seek_cur_raw;
              cbn [WAVHeader.data_pos]; unfold left_over; lia).
        cbv beta. scan_ret.
        rewrite riff_loop_past
          by (cbn [WAVHeader.len WAVHeader.data_pos]; unfold left_over; lia).
        rewrite <- Hflat. apply Hfinal; reflexivity.
      * replace (0 <? left_over) with false by (symmetry; apply Z.ltb_ge; lia).
        scan_ret. scan_ret.
        rewrite riff_loop_past by lia.
        rewrite <- Hflat. apply Hfinal; reflexivity.
Qed.

End Chunked.

Lemma scan_fuel_split (fuel n1 n2 : nat) :
  (n1 + n2 + 3 <= fuel)%nat ->
  exists outer inner : nat,
    fuel = S outer /\ fuel = (n1 + S (n2 + S (S inner)))%nat.
Proof.
  intros Hfuel. exists (fuel - 1)%nat, (fuel - n1 - n2 - 3)%nat. lia.
Qed.

(** The state of the scanner after a buffer with further chunks, for a
    format chunk that one pass of the inner loop reads. *)
Lemma scan_chunked_begin (p : platform) (fmt : list byte) (fmt_total : Z)
    (parsed : WAVAudioInfo -> WAVAudioInfo) (cs1 cs2 : list chunk)
    (riff_size data_size : Z) (rest : list byte) (fuel : nat) (h0 : WAVHeader.t) :
  let buf := chunked_buffer riff_size cs1 fmt cs2 data_size rest in
  let body := chunks_bytes cs1 ++ fmt ++ chunks_bytes cs2 in
  Z.of_nat (length fmt) = fmt_total -> 8 <= fmt_total ->
  (forall i, is_streamed (parsed i) = is_streamed i) ->
  (forall (remaining : Z) (i : WAVAudioInfo) (before after : list byte) (sp : Z)
          (tr : list WAVHeader.access),
      Z.of_nat (length (before ++ fmt ++ after)) < 2147483648 ->
      0 <= remaining < 4294967296 -> fmt_total <= remaining ->
      exists tr',
        WAVHeader.chunk_body p remaining (at_split i before (fmt ++ after) sp tr)
        = (WAVHeader.Next (remaining - fmt_total),
           at_split (parsed i) (before ++ fmt) after sp tr')) ->
  Forall other_tag cs1 -> Forall other_tag cs2 ->
  (length cs1 + length cs2 + 3 <= fuel)%nat ->
  Z.of_nat (length buf) < 2147483648 ->
  0 <= riff_size < 4294967296 ->
  ((riff_size = 0 \/ 2147418112 <= riff_size)
   /\ 0 <= data_size
   /\ Z.of_nat (length body) + 8 + data_size <= 4294967291)
  \/ (4 + Z.of_nat (length body) + 8 + data_size <= riff_size < 2147418112
      /\ (data_size = 0
          \/ (0 < data_size /\ Z.of_nat (length rest) <= data_size))) ->
  exists i0 i pos tr',
    WAVHeader.begin p fuel buf h0
    = (true,
       WAVHeader.mk i buf (Z.of_nat (length buf)) pos
         (Z.of_nat (length (riff_header riff_size ++ body
                            ++ data_header data_size))) tr')
    /\ (i = set_data_length data_size (parsed i0)
        \/ i = set_is_streamed true (set_data_length data_size (parsed i0))).
Proof.
  intros buf body Hlen Hleast Hmode Hpass Ho1 Ho2 Hfuel Hfit Hriff Hcases.
  destruct (scan_fuel_split fuel (length cs1) (length cs2) Hfuel)
    as [outer [inner [Houter Hinner]]].
  unfold WAVHeader.begin.
  change (WAVHeader.mk zeroed_info buf (Z.of_nat (length buf)) 0
            (WAVHeader.sound_pos h0) (WAVHeader.trail h0))
    with (at_split zeroed_info [] buf (WAVHeader.sound_pos h0)
            (WAVHeader.trail h0)).
  replace (WAVHeader.riff_loop p fuel fuel)
    with (WAVHeader.riff_loop p (S outer)
            (length cs1 + S (length cs2 + S (S inner))))
    by (rewrite <- Houter, <- Hinner; reflexivity).
  exact (scan_chunked p fmt fmt_total parsed Hlen Hleast Hmode Hpass cs1 cs2
           Ho1 Ho2 riff_size data_size rest Hfit Hriff outer inner
           (WAVHeader.sound_pos h0) (WAVHeader.trail h0) Hcases).
Qed.

(** [soundData] after such a scan. *)
Lemma sound_after_scan (p : platform) (i : WAVAudioInfo) (head rest : list byte)
    (buf : list byte) (pos : Z) (tr : list WAVHeader.access) :
  buf = head ++ rest -> Z.of_nat (length buf) < 2147483648 ->
  (0 < length head)%nat ->
  fst (WAVHeader.soundData p
         (WAVHeader.mk i buf (Z.of_nat (length buf)) pos
            (Z.of_nat (length head)) tr))
  = Some (rest, Z.of_nat (length rest)).
Proof.
  intros -> Hfit Hhead. rewrite sound_of_canonical by assumption. reflexivity.
Qed.





(** X24.  A format chunk that declares fewer than 16 bytes is not
    read: when the RIFF chunk has a usable size that reaches the end of
    the buffer, [WAVHeader::begin] leaves the inner loop at that chunk,
    moves to the end of the RIFF chunk and ends with [is_valid] false,
    every field of the descriptor 0 and [sound_pos] as it was, so that
    no [data] chunk behind it is found. *)
Theorem scan_refuses_short_format_chunk (p : platform) (fuel : nat)
    (riff_size k : Z) (rest : list byte) (h0 : WAVHeader.t) :
  let buf := short_fmt_buffer riff_size k rest in
  (1 <= fuel)%nat ->
  0 <= k < 16 ->
  12 + k <= riff_size < 2147418112 ->
  Z.of_nat (length buf) <= riff_size + 9 ->
  let r := WAVHeader.begin p fuel buf h0 in
  fst r = true
  /\ WAVHeader.headerInfo (snd r) = zeroed_info
  /\ WAVHeader.sound_pos (snd r) = WAVHeader.sound_pos h0.
Proof.
  intros buf Hfuel Hk Hriff Hend r. subst r.
  destruct fuel as [|fuel]; [lia|].
  assert (Hfit : Z.of_nat (length buf) < 2147483648) by lia.
  unfold WAVHeader.begin.
  change (WAVHeader.mk zeroed_info buf (Z.of_nat (length buf)) 0
            (WAVHeader.sound_pos h0) (WAVHeader.trail h0))
    with (at_split zeroed_info [] buf (WAVHeader.sound_pos h0)
            (WAVHeader.trail h0)).
  unfold buf, short_fmt_buffer, riff_header in *.
  rewrite <- !app_assoc in *. cbn [app] in *.
  rewrite riff_loop_S.
  scan_eof.
  unfold WAVHeader.riff_body.
  scan_step read_tag_at. scan_eof.
  scan_step read_int32_at.
  rewrite (to_uint32_small riff_size) by lia.
  scan_ret.
  replace ((riff_size =? 0) || (2147418112 <=? riff_size)) with false.
  2:{ symmetry. apply orb_false_iff. split.
      - apply Z.eqb_neq. lia.
      - apply Z.leb_gt. lia. }
  scan_ret.
  rewrite tag_RIFF, Z.eqb_refl.
  replace (negb true || (riff_size <? 4)) with false
    by (symmetry; apply Z.ltb_ge; lia).
  cbv iota.
  scan_step read_tag_at.
  rewrite tag_WAVE, Z.eqb_refl. cbn [negb].
  rewrite (to_uint32_small (riff_size - 4)) by lia.
  rewrite chunk_loop_S.
  replace (8 <=? riff_size - 4) with true by (symmetry; apply Z.leb_le; lia).
  unfold WAVHeader.chunk_body.
  scan_step read_tag_at. scan_eof.
  scan_step read_int32_at.
  rewrite tag_fmt, Z.eqb_refl.
  rewrite (to_uint32_small k) by lia.
  rewrite (to_uint32_small (riff_size - 4 - 8)) by lia.
  replace (riff_size - 4 - 8 <? k) with false by (symmetry; apply Z.ltb_ge; lia).
  replace (k <? 16) with true by (symmetry; apply Z.ltb_lt; lia).
  scan_ret. scan_ret.
  destruct (Z.ltb_spec 0 (riff_size - 4 - 8)) as [Hsome|Hnone].
  - rewrite (to_long_small p (riff_size - 4 - 8)) by lia.
    repeat rewrite bind_assoc_at.
    erewrite bind_step by (apply seek_cur_at; len_solve).
    cbv beta. scan_ret.
    rewrite riff_loop_past
      by (cbn [WAVHeader.len WAVHeader.data_pos]; len_solve).
    cbn [fst snd WAVHeader.headerInfo WAVHeader.sound_pos].
    repeat split; reflexivity.
  - scan_ret. scan_ret.
    rewrite riff_loop_past
      by (unfold at_split; cbn [WAVHeader.len WAVHeader.data_pos]; len_solve).
    cbn [fst snd WAVHeader.headerInfo WAVHeader.sound_pos at_split].
    repeat split; reflexivity.
Qed.

Lemma scan_refuses_short_format_chunk_witness :
  let r := WAVHeader.begin ILP32 1
             (short_fmt_buffer 36 8 ["a"; "b"; "c"; "d"]%byte) WAVHeader.fresh in
  fst r = true /\ WAVHeader.headerInfo (snd r) = zeroed_info.
Proof.
  pose proof (scan_refuses_short_format_chunk ILP32 1 36 8 ["a"; "b"; "c"; "d"]%byte
                WAVHeader.fresh ltac:(lia) ltac:(lia) ltac:(lia)
                ltac:(vm_compute; discriminate)) as H.
  cbv zeta in H. destruct H as [Hdone [Hinfo _]].
  split; [exact Hdone|exact Hinfo].
Defined.

